(** * Synapse matching engine

    A shallow embedding of the matching and recommendation code of the
    Synapse platform (server module [matching]): the five score
    calculators, the aggregator [calculateMatchScore] and the
    recommendation finder [findTopMatches].

    Conventions of the embedding.
    - A JavaScript [number] is a binary64 value, held as the rational
      ([Q]) it denotes.  [fl x] is the binary64 value nearest to [x] (ties
      to even, module [Binary64]); it is written at every literal that is
      not an integer, at every [parseFloat], and at every operation whose
      exact result need not be a binary64 value: the divisions, the
      products with a fraction and the sums that follow them.  Integer
      columns of the database are [Z] and are injected where they meet a
      [number]; they are MySQL [int] columns, and the sums, differences,
      products by small integers and halvings the calculators form from
      them are integers or half-integers far below [2^53], which binary64
      holds exactly, so those operations carry no [fl].  Overflow to
      [Infinity] is outside the model: no value of the module comes near
      [2^1024].  No division by zero is reachable: each of the three
      divisions by a computed value is guarded by a test that the divisor
      is positive.
    - The columns of enumerated type ([userType], [proficiency], [stage],
      [status]) are inductive types, so the fallbacks [|| 0], [|| 1] and
      the initial ["interest_based"] of the source are never taken.
    - A [Record<string, number>] is a finite map [gmap string Q]; object
      spread is right-biased union.
    - An [async] function is a computation that completes normally or
      throws ([Completion]); [try]/[catch] is [try_catch].
    - The value [getDb()] resolves to is an [option Db]: [None] when no
      database is configured; it is the same value throughout one call of
      [findTopMatches].  A [Db] holds the rows of the four tables the
      module reads, in the order the server returns them, and says which
      queries it rejects.
    - [console.error] is not modelled. *)

From Stdlib Require Import ZArith QArith Qround Qabs Qpower Lqa Lia String List Sorted.
From stdpp Require Import gmap strings pretty.
Import ListNotations.

#[local] Set Warnings "-clear-no-such-hyp".

Local Open Scope Q_scope.

(** ** Enumerations of the schema *)

Inductive UserType := founder | freelancer | investor | collaborator.
Inductive Proficiency := beginner | intermediate | advanced | expert.
Inductive Stage := idea | prototype | running | scaling.
Inductive Status := draft | active | paused | completed | archived.
Inductive MatchType := skill_based | investment_based | stage_based | interest_based.

Definition UserType_eqb (a b : UserType) : bool :=
  match a, b with
  | founder, founder | freelancer, freelancer
  | investor, investor | collaborator, collaborator => true
  | _, _ => false
  end.

Definition Status_eqb (a b : Status) : bool :=
  match a, b with
  | draft, draft | active, active | paused, paused
  | completed, completed | archived, archived => true
  | _, _ => false
  end.

(** The text of a stage, as the template literal [`stage_${project.stage}`]
    sees it. *)
Definition Stage_toString (s : Stage) : string :=
  match s with
  | idea => "idea"
  | prototype => "prototype"
  | running => "running"
  | scaling => "scaling"
  end.

(** ** Rows of the tables (the columns the module reads) *)

Module User.
Record t := mk {
  id : Z;
  userType : UserType;
  level : Z;
  projectsCreated : Z;
  collaborations : Z;
  investments : Z;
  (** [decimal(15,2)], read through [parseFloat] *)
  earnings : Q;
  interests : list string
}.
End User.

Module Project.
Record t := mk {
  id : Z;
  ownerId : Z;
  stage : Stage;
  status : Status;
  (** nullable [decimal(15,2)], read through [parseFloat] *)
  totalInvestmentNeeded : option Q;
  seekingInvestment : bool;
  seekingTeam : bool;
  openForCollaboration : bool;
  tags : list string
}.
End Project.

Module UserSkill.
Record t := mk {
  userId : Z;
  skillId : Z;
  proficiency : Proficiency;
  yearsOfExperience : Z
}.
End UserSkill.

Module TeamRequirement.
Record t := mk {
  projectId : Z;
  skillId : Z;
  minProficiency : Proficiency;
  minYearsExperience : Z;
  filled : Z;
  count : Z
}.
End TeamRequirement.

(** ** The [Math] functions the module calls *)

Module Math.
Definition min (a b : Q) : Q := if Qle_bool a b then a else b.
Definition max (a b : Q) : Q := if Qle_bool a b then b else a.
(** [Math.round] rounds half up: [floor (x + 1/2)]. *)
Definition round (x : Q) : Z := Qfloor (x + (1 # 2)).
Definition ceil (x : Q) : Z := Qceiling x.
Definition abs (x : Z) : Z := Z.abs x.
End Math.

(** [a > b] and [a >= b] on numbers. *)
Definition gt (a b : Q) : bool := negb (Qle_bool a b).
Definition ge (a b : Q) : bool := Qle_bool b a.

(** ** Binary64 arithmetic

    Every arithmetic operation of JavaScript returns the binary64 value
    nearest to the exact result, a tie going to the value whose last
    mantissa bit is zero. *)

Module Binary64.
(** [2^e] *)
Definition pow2 (e : Z) : Q := Qpower 2 e.

(** The exponent [e] with [2^e <= x < 2^(e+1)], for a positive [x]: the
    difference of the bit lengths of numerator and denominator, or one
    less. *)
Definition magnitude (x : Q) : Z :=
  let e0 := (Z.log2 (Qnum x) - Z.log2 (Zpos (Qden x)))%Z in
  if Qle_bool (pow2 e0) x then e0 else (e0 - 1)%Z.

(** The integer nearest to [y], a tie going to the even one. *)
Definition rne (y : Q) : Z :=
  let f := Qfloor y in
  match Qcompare (y - inject_Z f) (1 # 2) with
  | Lt => f
  | Gt => (f + 1)%Z
  | Eq => if Z.even f then f else (f + 1)%Z
  end.

(** The exponent of the smallest normal number. *)
Definition emin : Z := -1022.

(** The exponent of the binade a positive [x] is rounded in: below
    [2^emin] it stays that of the subnormal numbers. *)
Definition binade (x : Q) : Z := Z.max (magnitude x) emin.

(** The distance between neighbouring binary64 values around a positive
    [x]: a mantissa has 53 bits. *)
Definition ulp (x : Q) : Q := pow2 (binade x - 52).

(** A positive [x] moved to the nearest multiple of its [ulp]. *)
Definition roundPositive (x : Q) : Q := inject_Z (rne (x / ulp x)) * ulp x.

(** The binary64 value nearest to [x]. *)
Definition nearest (x : Q) : Q :=
  match Qnum x with
  | Z0 => 0
  | Zpos _ => roundPositive x
  | Zneg _ => - roundPositive (- x)
  end.
End Binary64.

(** The value a literal, a [parseFloat] or an arithmetic operation whose
    exact result is [x] evaluates to. *)
Definition fl (x : Q) : Q := Binary64.nearest x.

(** Comparing two terms unfolds [fl] last. *)
#[global] Strategy 100 [fl Binary64.nearest].

(** ** Completions of asynchronous code *)

Inductive Completion (A : Type) : Type :=
| Normal (a : A)
| Throw (e : string).
Arguments Normal {A} a.
Arguments Throw {A} e.

#[global] Instance Completion_ret : MRet Completion := fun A a => Normal a.

#[global] Instance Completion_bind : MBind Completion := fun A B k c =>
  match c with
  | Normal a => k a
  | Throw e => Throw e
  end.

Definition try_catch {A} (body : Completion A) (handler : string -> Completion A)
  : Completion A :=
  match body with
  | Normal a => Normal a
  | Throw e => handler e
  end.

(** ** The database *)

Inductive Query :=
| SelectUser (userId : Z)
| SelectActiveProjects
| SelectUserSkills (userId : Z)
| SelectTeamRequirements (projectId : Z).

Record Db := {
  users : list User.t;
  projects : list Project.t;
  userSkills : list UserSkill.t;
  projectTeamRequirements : list TeamRequirement.t;
  (** the queries the server fails; awaiting one of them throws *)
  rejects : Query -> bool
}.

Definition run {A} (db : Db) (q : Query) (rows : list A) : Completion (list A) :=
  if rejects db q then Throw "query failed" else Normal rows.

(** [db.select().from(users).where(eq(users.id, userId)).limit(1)] *)
Definition selectUser (db : Db) (userId : Z) : Completion (list User.t) :=
  run db (SelectUser userId)
    (firstn 1 (List.filter (fun u => (User.id u =? userId)%Z) (users db))).

(** The condition of the candidate query:
    [and(eq(projects.status, "active"), eq(projects.seekingTeam, true))]. *)
Definition isCandidate (p : Project.t) : bool :=
  Status_eqb (Project.status p) active && Project.seekingTeam p.

(** The rows the candidate query returns when it succeeds:
    [.where(...).limit(100)]. *)
Definition fetchedCandidates (db : Db) : list Project.t :=
  firstn 100 (List.filter isCandidate (projects db)).

(** [db.select().from(projects)
      .where(and(eq(projects.status, "active"), eq(projects.seekingTeam, true)))
      .limit(100)] *)
Definition selectActiveProjects (db : Db) : Completion (list Project.t) :=
  run db SelectActiveProjects (fetchedCandidates db).

Definition selectUserSkills (db : Db) (userId : Z) : Completion (list UserSkill.t) :=
  run db (SelectUserSkills userId)
    (List.filter (fun s => (UserSkill.userId s =? userId)%Z) (userSkills db)).

Definition selectTeamRequirements (db : Db) (projectId : Z)
  : Completion (list TeamRequirement.t) :=
  run db (SelectTeamRequirements projectId)
    (List.filter (fun r => (TeamRequirement.projectId r =? projectId)%Z)
       (projectTeamRequirements db)).

(** ** Results of the calculators *)

Record ScoreResult := {
  score : Q;
  details : gmap string Q
}.

Module MatchScore.
Record t := mk {
  userId : Z;
  projectId : Z;
  totalScore : Z;
  skillScore : Z;
  investmentScore : Z;
  stageScore : Z;
  interestScore : Z;
  engagementScore : Z;
  scoreDetails : gmap string Q;
  matchType : MatchType;
  recommendation : string
}.
End MatchScore.

(** ** Skill matching (40% weight) *)

Definition proficiencyLevels (p : Proficiency) : Z :=
  match p with
  | beginner => 1
  | intermediate => 2
  | advanced => 3
  | expert => 4
  end%Z.

(** Proficiency matching (0-60 points). *)
Definition proficiencyPoints (userSkill : UserSkill.t) (req : TeamRequirement.t) : Q :=
  let userProf := proficiencyLevels (UserSkill.proficiency userSkill) in
  let reqProf := proficiencyLevels (TeamRequirement.minProficiency req) in
  if (userProf >=? reqProf)%Z
  then inject_Z (30 + (userProf - reqProf) * 10)
  else Math.max 0 (inject_Z (20 - (reqProf - userProf) * 10)).

(** Experience matching (0-40 points). *)
Definition experiencePoints (userSkill : UserSkill.t) (req : TeamRequirement.t) : Q :=
  let years := UserSkill.yearsOfExperience userSkill in
  let minYears := TeamRequirement.minYearsExperience req in
  if (years >=? minYears)%Z
  then 30 + Math.min 10 (inject_Z (years - minYears) / 2)
  else Math.max 0 (inject_Z (15 - (minYears - years) * 5)).

(** The state of the loop over the team requirements. *)
Record SkillLoop := {
  totalScore : Q;
  matchedSkills : Z;
  loopDetails : gmap string Q
}.

(** One iteration of [for (const req of teamReqs)]. *)
Definition scoreRequirement (userSkillsData : list UserSkill.t)
    (st : SkillLoop) (req : TeamRequirement.t) : SkillLoop :=
  match List.find
          (fun s => (UserSkill.skillId s =? TeamRequirement.skillId req)%Z)
          userSkillsData with
  | Some userSkill =>
      let skillScore := 0 in
      let skillScore := skillScore + proficiencyPoints userSkill req in
      let skillScore := skillScore + experiencePoints userSkill req in
      {| totalScore := totalScore st + skillScore;
         matchedSkills := matchedSkills st + 1;
         loopDetails :=
           <["skill_" +:+ pretty (TeamRequirement.skillId req) := skillScore]>
             (loopDetails st) |}
  | None => st
  end.

(** The part of [calculateSkillScore] that follows the two queries, when
    both answered with a non-empty array: the loop, the average, the
    coverage bonus and the cap. *)
Definition scoreRequirements (userSkillsData : list UserSkill.t)
    (teamReqs : list TeamRequirement.t) : ScoreResult :=
  let st :=
    fold_left (scoreRequirement userSkillsData) teamReqs
      {| totalScore := 0; matchedSkills := 0; loopDetails := ∅ |} in
  let avgScore :=
    if (matchedSkills st >? 0)%Z
    then fl (totalScore st / inject_Z (matchedSkills st))
    else 0 in
  let matchPercentage :=
    fl (fl (inject_Z (matchedSkills st) / inject_Z (Z.of_nat (length teamReqs)))
        * 100) in
  let coverageBonus :=
    if gt matchPercentage 70 then 10
    else if gt matchPercentage 40 then 5 else 0 in
  let finalScore := Math.min 100 (fl (avgScore + coverageBonus)) in
  let details := <["coverage" := matchPercentage]> (loopDetails st) in
  let details := <["final" := finalScore]> details in
  {| score := finalScore; details := details |}.

Definition calculateSkillScore (user : User.t) (project : Project.t)
    (db : option Db) : Completion ScoreResult :=
  match db with
  | None => Normal {| score := 0; details := ∅ |}
  | Some db =>
    try_catch
      (userSkillsData ← selectUserSkills db (User.id user);
       if (length userSkillsData =? 0)%nat
       then Normal {| score := 0; details := ∅ |}
       else
         teamReqs ← selectTeamRequirements db (Project.id project);
         if (length teamReqs =? 0)%nat
         then Normal {| score := 50; details := {[ "noRequirements" := 50 ]} |}
         else Normal (scoreRequirements userSkillsData teamReqs))
      (fun _ => Normal {| score := 0; details := ∅ |})
  end.

(** ** Investment matching (25% weight) *)

(** [user.interests.includes(tag)] *)
Definition includes (l : list string) (tag : string) : bool :=
  existsb (String.eqb tag) l.

(** [parseFloat(d.toString())] for a decimal column [d]: the binary64
    value nearest to the decimal. *)
Definition parseFloat (d : Q) : Q := fl d.

(** The funding-capacity step: the new score and detail map.
    [totalInvestmentNeeded] is the column as the row holds it. *)
Definition fundingCapacity (user : User.t) (totalInvestmentNeeded : Q)
    (score : Q) (details : gmap string Q) : Q * gmap string Q :=
  let investmentNeeded := parseFloat totalInvestmentNeeded in
  let userInvestmentCapacity := fl (parseFloat (User.earnings user) * 2) in
  if ge userInvestmentCapacity investmentNeeded
  then (score + 30, <["fundingCapacity" := 30]> details)
  else if ge userInvestmentCapacity (fl (investmentNeeded * fl 0.5))
  then (score + 20, <["fundingCapacity" := 20]> details)
  else if ge userInvestmentCapacity (fl (investmentNeeded * fl 0.2))
  then (score + 10, <["fundingCapacity" := 10]> details)
  else (score, details).

Definition calculateInvestmentScore (user : User.t) (project : Project.t)
  : ScoreResult :=
  let details : gmap string Q := ∅ in
  if negb (UserType_eqb (User.userType user) investor)
  then {| score := 0; details := {[ "notInvestor" := 0 ]} |}
  else if negb (Project.seekingInvestment project)
  then {| score := 0; details := {[ "notSeeking" := 0 ]} |}
  else
    let score := 50 in
    let '(score, details) :=
      match Project.totalInvestmentNeeded project with
      | Some totalInvestmentNeeded =>
          fundingCapacity user totalInvestmentNeeded score details
      | None => (score, details)
      end in
    let stagePreference :=
      if includes (User.interests user)
           ("stage_" +:+ Stage_toString (Project.stage project))
      then 10 else 0 in
    let score := score + stagePreference in
    let details := <["stagePreference" := stagePreference]> details in
    let '(score, details) :=
      if (User.investments user >? 0)%Z
      then
        let experienceBonus := Math.min 10 (inject_Z (User.investments user)) in
        (score + experienceBonus, <["experience" := experienceBonus]> details)
      else (score, details) in
    let details := <["final" := Math.min 100 score]> details in
    {| score := Math.min 100 score; details := details |}.

(** ** Stage matching (15% weight) *)

Definition stageHierarchy (s : Stage) : Z :=
  match s with
  | idea => 1
  | prototype => 2
  | running => 3
  | scaling => 4
  end%Z.

(** The stage-match step: the points added to the base score. *)
Definition stageMatch (userLevel projectStageLevel : Z) : Q :=
  if (userLevel =? projectStageLevel)%Z then 40
  else if (Math.abs (userLevel - projectStageLevel) =? 1)%Z then 25
  else if (userLevel >? projectStageLevel)%Z then 15
  else Math.max 5 (inject_Z (20 - Math.abs (userLevel - projectStageLevel) * 5)).

Definition calculateStageScore (user : User.t) (project : Project.t) : ScoreResult :=
  let details : gmap string Q := ∅ in
  let userLevel := Math.ceil (inject_Z (User.level user) / 2) in
  let projectStageLevel := stageHierarchy (Project.stage project) in
  let score := 50 in
  let score := score + stageMatch userLevel projectStageLevel in
  let details := <["stageMatch" := stageMatch userLevel projectStageLevel]> details in
  let '(score, details) :=
    if (User.collaborations user >? 0)%Z
    then
      let collaborationBonus := Math.min 10 (inject_Z (User.collaborations user)) in
      (score + collaborationBonus,
       <["collaborationBonus" := collaborationBonus]> details)
    else (score, details) in
  let details := <["final" := Math.min 100 score]> details in
  {| score := Math.min 100 score; details := details |}.

(** ** Interest matching (15% weight) *)

Definition userTypeBonus (project : Project.t) (t : UserType) : Q :=
  match t with
  | founder => if Project.openForCollaboration project then 15 else 0
  | freelancer => if Project.seekingTeam project then 15 else 0
  | investor => if Project.seekingInvestment project then 15 else 0
  | collaborator => if Project.openForCollaboration project then 15 else 0
  end.

Definition calculateInterestScore (user : User.t) (project : Project.t) : ScoreResult :=
  let details : gmap string Q := ∅ in
  let score := 30 in
  let projectTags := Project.tags project in
  let userInterests := User.interests user in
  let '(score, details) :=
    if (0 <? length projectTags)%nat && (0 <? length userInterests)%nat
    then
      let matchedTags :=
        length (List.filter (fun tag => includes userInterests tag) projectTags) in
      let tagScore :=
        fl (fl (inject_Z (Z.of_nat matchedTags)
                / inject_Z (Z.of_nat (Nat.max (length projectTags)
                                        (length userInterests))))
            * 50) in
      (fl (score + tagScore), <["tagMatching" := tagScore]> details)
    else (score, details) in
  let bonus := userTypeBonus project (User.userType user) in
  let score := fl (score + bonus) in
  let details := <["userTypeBonus" := bonus]> details in
  let details := <["final" := Math.min 100 score]> details in
  {| score := Math.min 100 score; details := details |}.

(** ** Engagement matching (5% weight) *)

Definition calculateEngagementScore (user : User.t) : ScoreResult :=
  let details : gmap string Q := ∅ in
  let score := 50 in
  let totalActivity :=
    (User.projectsCreated user + User.collaborations user + User.investments user)%Z in
  let activityBonus := Math.min 40 (inject_Z (totalActivity * 5)) in
  let score := score + activityBonus in
  let details := <["activity" := activityBonus]> details in
  let levelBonus := Math.min 10 (inject_Z ((User.level user - 1) * 2)) in
  let score := score + levelBonus in
  let details := <["level" := levelBonus]> details in
  let details := <["final" := Math.min 100 score]> details in
  {| score := Math.min 100 score; details := details |}.

(** ** Main matching function *)

Definition matchTypeOf (t : UserType) : MatchType :=
  match t with
  | freelancer => skill_based
  | investor => investment_based
  | founder | collaborator => stage_based
  end.

(** The weighted sum of the five scores: five products, added from left
    to right. *)
Definition weightedTotal (skill investment stage interest engagement : Q) : Q :=
  fl (fl (fl (fl (fl (skill * fl 0.4) + fl (investment * fl 0.25))
              + fl (stage * fl 0.15))
          + fl (interest * fl 0.15))
      + fl (engagement * fl 0.05)).

Definition recommendationOf (totalScore : Q) : string :=
  if ge totalScore 80 then "Excellent match - highly recommended"
  else if ge totalScore 60 then "Good match - consider this opportunity"
  else if ge totalScore 40 then "Fair match - could be worth exploring"
  else "Limited match - may require additional consideration".

(** Object spread [{ ...a, ...b }]: the keys of [b] win. *)
Definition spread (a b : gmap string Q) : gmap string Q := b ∪ a.

(** The body of [calculateMatchScore] once the skill calculator has
    answered with [skillScore]; none of the other four calculators awaits
    the database. *)
Definition matchScoreFrom (user : User.t) (project : Project.t)
    (skillScore : ScoreResult) : MatchScore.t :=
  let investmentScore := calculateInvestmentScore user project in
  let stageScore := calculateStageScore user project in
  let interestScore := calculateInterestScore user project in
  let engagementScore := calculateEngagementScore user in
  let matchType := matchTypeOf (User.userType user) in
  let totalScore :=
    weightedTotal (score skillScore) (score investmentScore) (score stageScore)
      (score interestScore) (score engagementScore) in
  let scoreDetails :=
    spread (spread (spread (spread (details skillScore) (details investmentScore))
                      (details stageScore))
              (details interestScore))
      (details engagementScore) in
  let scoreDetails := <["skillScore" := score skillScore]> scoreDetails in
  let scoreDetails := <["investmentScore" := score investmentScore]> scoreDetails in
  let scoreDetails := <["stageScore" := score stageScore]> scoreDetails in
  let scoreDetails := <["interestScore" := score interestScore]> scoreDetails in
  let scoreDetails := <["engagementScore" := score engagementScore]> scoreDetails in
  let scoreDetails :=
    <["totalScore" := inject_Z (Math.round totalScore)]> scoreDetails in
  {| MatchScore.userId := User.id user;
     MatchScore.projectId := Project.id project;
     MatchScore.totalScore := Math.round totalScore;
     MatchScore.skillScore := Math.round (score skillScore);
     MatchScore.investmentScore := Math.round (score investmentScore);
     MatchScore.stageScore := Math.round (score stageScore);
     MatchScore.interestScore := Math.round (score interestScore);
     MatchScore.engagementScore := Math.round (score engagementScore);
     MatchScore.scoreDetails := scoreDetails;
     MatchScore.matchType := matchType;
     MatchScore.recommendation := recommendationOf totalScore |}.

Definition calculateMatchScore (conn : option Db) (user : User.t)
    (project : Project.t) : Completion MatchScore.t :=
  let db := conn in
  skillScore ← calculateSkillScore user project db;
  Normal (matchScoreFrom user project skillScore).

(** ** Batch matching for recommendations *)

(** [Array.prototype.sort] is a stable sort; with a comparator [cmp] it
    places [a] before [b] when [cmp a b] is negative and keeps the order of
    the array when it is zero.  Insertion from the right is such a sort. *)
Fixpoint sort_insert {A} (cmp : A -> A -> Z) (x : A) (l : list A) : list A :=
  match l with
  | [] => [x]
  | y :: l' =>
      if (cmp x y <=? 0)%Z then x :: y :: l' else y :: sort_insert cmp x l'
  end.

Fixpoint sort {A} (cmp : A -> A -> Z) (l : list A) : list A :=
  match l with
  | [] => []
  | x :: l' => sort_insert cmp x (sort cmp l')
  end.

(** [Array.prototype.slice(0, end)] for an integer [end]: a negative [end]
    counts from the end of the array. *)
Definition slice0 {A} (l : list A) (end_ : Z) : list A :=
  let len := Z.of_nat (length l) in
  let final := if (end_ <? 0)%Z then Z.max (len + end_) 0 else Z.min end_ len in
  firstn (Z.to_nat final) l.

(** The loop [for (const project of activeProjects)]: the array [matches]
    once the loop is over. *)
Fixpoint collectMatches (conn : option Db) (user : User.t) (userId : Z)
    (minScore : Q) (activeProjects : list Project.t) (matches : list MatchScore.t)
  : Completion (list MatchScore.t) :=
  match activeProjects with
  | [] => Normal matches
  | project :: rest =>
      if (Project.ownerId project =? userId)%Z
      then collectMatches conn user userId minScore rest matches
      else
        match_ ← calculateMatchScore conn user project;
        if ge (inject_Z (MatchScore.totalScore match_)) minScore
        then collectMatches conn user userId minScore rest (matches ++ [match_])
        else collectMatches conn user userId minScore rest matches
  end.

Definition byTotalScoreDesc (a b : MatchScore.t) : Z :=
  (MatchScore.totalScore b - MatchScore.totalScore a)%Z.

(** The array [matches] before it is sorted, when the function gets that
    far. *)
Definition discoveredMatches (conn : option Db) (userId : Z) (minScore : Q)
  : Completion (list MatchScore.t) :=
  match conn with
  | None => Normal []
  | Some db =>
      userResult ← selectUser db userId;
      match userResult with
      | [] => Normal []
      | user :: _ =>
          activeProjects ← selectActiveProjects db;
          collectMatches conn user userId minScore activeProjects []
      end
  end.

Definition findTopMatches (conn : option Db) (userId : Z) (limit : Z)
    (minScore : Q) : Completion (list MatchScore.t) :=
  match conn with
  | None => Normal []
  | Some db =>
    try_catch
      (userResult ← selectUser db userId;
       match userResult with
       | [] => Normal []
       | user :: _ =>
           activeProjects ← selectActiveProjects db;
           matches ← collectMatches conn user userId minScore activeProjects [];
           Normal (slice0 (sort byTotalScoreDesc matches) limit)
       end)
      (fun _ => Normal [])
  end.

(** The default arguments of [findTopMatches]. *)
Definition default_limit : Z := 10.
Definition default_minScore : Q := 40.

(** ** Match history and the procedures of the router

    [saveMatchingHistory] and the two procedures of the [matching] router
    that call the module.  The server holds, beside the database the
    calculators read, the rows of the table [matchingHistory], the
    statements it fails and the reading of the clock ([new Date()]). *)

Inductive Action := viewed | applied | invested | dismissed | none.

Definition Action_eqb (a b : Action) : bool :=
  match a, b with
  | viewed, viewed | applied, applied | invested, invested
  | dismissed, dismissed | none, none => true
  | _, _ => false
  end.

Module MatchingHistory.
(** the columns [saveMatchingHistory] writes; [id] and [createdAt] are
    filled in by the server *)
Record t := mk {
  userId : Z;
  projectId : Z;
  matchType : MatchType;
  score : Z;
  scoreDetails : gmap string Q;
  action : Action;
  actionAt : option Z
}.
End MatchingHistory.

Inductive Statement :=
| SelectProjectById (projectId : Z)
| InsertMatchingHistory.

Record Server := {
  (** the value [getDb()] resolves to *)
  connection : option Db;
  matchingHistory : list MatchingHistory.t;
  (** the statements the server fails; awaiting one of them throws *)
  fails : Statement -> bool;
  (** the value of [new Date()] *)
  now : Z
}.

(** [db.insert(matchingHistory).values(row)]: the server after the insert. *)
Definition insertMatchingHistory (srv : Server) (row : MatchingHistory.t)
  : Completion Server :=
  if fails srv InsertMatchingHistory then Throw "insert failed"
  else Normal {| connection := connection srv;
                 matchingHistory := matchingHistory srv ++ [row];
                 fails := fails srv;
                 now := now srv |}.

(** [saveMatchingHistory(match, action)] returns nothing; its completion
    carries the server it leaves behind. *)
Definition saveMatchingHistory (srv : Server) (match_ : MatchScore.t)
    (action : Action) : Completion Server :=
  match connection srv with
  | None => Normal srv
  | Some db =>
    try_catch
      (insertMatchingHistory srv
         {| MatchingHistory.userId := MatchScore.userId match_;
            MatchingHistory.projectId := MatchScore.projectId match_;
            MatchingHistory.matchType := MatchScore.matchType match_;
            MatchingHistory.score := MatchScore.totalScore match_;
            MatchingHistory.scoreDetails := MatchScore.scoreDetails match_;
            MatchingHistory.action := action;
            MatchingHistory.actionAt :=
              if negb (Action_eqb action none) then Some (now srv) else None |})
      (fun _ => Normal srv)
  end.

(** The default of the parameter [action]. *)
Definition default_action : Action := none.

(** [db.select().from(projects).where(eq(projects.id, projectId)).limit(1)] *)
Definition selectProjectById (srv : Server) (db : Db) (projectId : Z)
  : Completion (list Project.t) :=
  if fails srv (SelectProjectById projectId) then Throw "query failed"
  else Normal (firstn 1 (List.filter (fun p => (Project.id p =? projectId)%Z)
                           (projects db))).

(** The procedure [matching.calculateScore] for the signed-in user
    [ctx.user]: its result ([null] is [None]) and the server it leaves
    behind. *)
Definition calculateScore (srv : Server) (user : User.t) (projectId : Z)
  : Completion (option MatchScore.t * Server) :=
  match connection srv with
  | None => Normal (None, srv)
  | Some db =>
      project ← selectProjectById srv db projectId;
      match project with
      | [] => Normal (None, srv)
      | project0 :: _ =>
          match_ ← calculateMatchScore (connection srv) user project0;
          srv' ← saveMatchingHistory srv match_ viewed;
          Normal (Some match_, srv')
      end
  end.

(** [ToIntegerOrInfinity] on a finite number: truncation towards zero, as
    [slice] applies it to its bounds. *)
Definition toInteger (x : Q) : Z :=
  if Qle_bool 0 x then Qfloor x else Qceiling x.

(** The procedure [matching.getRecommendations]: the input is
    [z.object({ limit: z.number().default(10),
                minScore: z.number().default(40) })], a missing field being
    [None]; the limit reaches [slice], which truncates it. *)
Definition getRecommendations (srv : Server) (user : User.t)
    (limit minScore : option Q) : Completion (list MatchScore.t) :=
  findTopMatches (connection srv) (User.id user)
    (toInteger (default (inject_Z default_limit) limit))
    (default default_minScore minScore).

(** ** The lazily created connection

    [getDb] of the module [db]: [_db] is the module variable, [url] the
    value of [process.env.DATABASE_URL] ([None] when unset; the empty
    string is falsy), [drizzle] the constructor of the driver, which may
    throw.  The completion carries the value returned and the module
    variable after the call. *)
Definition getDb (drizzle : string -> Completion Db) (url : option string)
    (_db : option Db) : Completion (option Db * option Db) :=
  let truthy :=
    match url with
    | Some u => negb (String.eqb u "")
    | None => false
    end in
  let unset := match _db with None => true | Some _ => false end in
  _db' ← (if unset && truthy
          then try_catch
                 (db ← drizzle (default "" url); Normal (Some db))
                 (fun _ => Normal None)
          else Normal _db);
  Normal (_db', _db').

(** * Vocabulary of the properties

    The definitions the statements below are written with, and the
    example data they are tried on. *)

(** ** Calculators *)

(** The collaboration bonus [calculateStageScore] adds: nothing when the
    user has no collaborations. *)
Definition collaborationBonusOf (user : User.t) : Q :=
  if (User.collaborations user >? 0)%Z
  then Math.min 10 (inject_Z (User.collaborations user)) else 0.

(** The three ways [calculateSkillScore] answers. *)
Inductive SkillAnswer (user : User.t) (project : Project.t) (conn : option Db)
  : ScoreResult -> Prop :=
| answer_zero :
    (** no database, a failed query, or a user without skills *)
    (conn = None
     \/ (exists db, conn = Some db
                    /\ (selectUserSkills db (User.id user) = Normal []
                        \/ (exists e, selectUserSkills db (User.id user) = Throw e)
                        \/ (exists e, selectTeamRequirements db (Project.id project)
                                      = Throw e)))) ->
    SkillAnswer user project conn {| score := 0; details := ∅ |}
| answer_neutral db skills :
    conn = Some db ->
    selectUserSkills db (User.id user) = Normal skills -> skills <> [] ->
    selectTeamRequirements db (Project.id project) = Normal [] ->
    SkillAnswer user project conn
      {| score := 50; details := {[ "noRequirements" := 50 ]} |}
| answer_scored db skills reqs :
    conn = Some db ->
    selectUserSkills db (User.id user) = Normal skills -> skills <> [] ->
    selectTeamRequirements db (Project.id project) = Normal reqs -> reqs <> [] ->
    SkillAnswer user project conn (scoreRequirements skills reqs).

(** The weighted sum [calculateMatchScore] forms from the scores the five
    calculators return, before any rounding. *)
Definition rawTotal (user : User.t) (project : Project.t) (sk : ScoreResult) : Q :=
  weightedTotal (score sk) (score (calculateInvestmentScore user project))
    (score (calculateStageScore user project))
    (score (calculateInterestScore user project))
    (score (calculateEngagementScore user)).

(** ** Example data and the wording of the specification *)

(** Scenario 1: a freelancer whose only skill is
    [{id = 7, advanced, 5 years}] and a project whose single requirement is
    [{skillId = 7, intermediate, 2 years, count = 1}]. *)
Definition scenario1_user : User.t :=
  User.mk 1 freelancer 1 0 0 0 0 [].
Definition scenario1_project : Project.t :=
  Project.mk 10 2 idea active None false true false [].
Definition scenario1_db : Db :=
  {| users := [scenario1_user];
     projects := [scenario1_project];
     userSkills := [UserSkill.mk 1 7 advanced 5];
     projectTeamRequirements := [TeamRequirement.mk 10 7 intermediate 2 0 1];
     rejects := fun _ => false |}.

(** A user whose level column holds [-30]. *)
Definition negative_level_user : User.t :=
  User.mk 3 founder (-30) 0 0 0 0 [].

Definition within_0_100 (z : Z) : Prop := (0 <= z <= 100)%Z.

Definition scores_within_0_100 (ms : MatchScore.t) : Prop :=
  within_0_100 (MatchScore.skillScore ms)
  /\ within_0_100 (MatchScore.investmentScore ms)
  /\ within_0_100 (MatchScore.stageScore ms)
  /\ within_0_100 (MatchScore.interestScore ms)
  /\ within_0_100 (MatchScore.engagementScore ms)
  /\ within_0_100 (MatchScore.totalScore ms).

(** The statistics of a user that the engagement calculator reads are in
    the range the platform gives them: levels start at 1 and the activity
    counters add up to a non-negative number. *)
Definition engagement_inputs_natural (user : User.t) : Prop :=
  (1 <= User.level user)%Z
  /\ (0 <= User.projectsCreated user + User.collaborations user
           + User.investments user)%Z.

Definition clamp (lo hi x : Z) : Z := Z.max lo (Z.min hi x).

(** The weighted sum as the specification writes it, in exact
    arithmetic. *)
Definition weightedSum (skill investment stage interest engagement : Q) : Q :=
  0.4 * skill + 0.25 * investment + 0.15 * stage + 0.15 * interest
  + 0.05 * engagement.

(** The total as the specification words it: the weighted sum of the five
    rounded scores a [MatchScore] carries, rounded and clamped. *)
Definition totalFromRoundedScores (ms : MatchScore.t) : Z :=
  Math.round
    (weightedSum (inject_Z (MatchScore.skillScore ms))
       (inject_Z (MatchScore.investmentScore ms))
       (inject_Z (MatchScore.stageScore ms))
       (inject_Z (MatchScore.interestScore ms))
       (inject_Z (MatchScore.engagementScore ms))).

(** The integer columns of a user row hold MySQL [int]s. *)
Definition int32 (z : Z) : Prop := (- 2 ^ 31 <= z < 2 ^ 31)%Z.

Definition columns_int32 (user : User.t) : Prop :=
  int32 (User.level user) /\ int32 (User.projectsCreated user)
  /\ int32 (User.collaborations user) /\ int32 (User.investments user).

(** A founder of level 3 with one project and two collaborations, scored
    without a database against an idea that is closed to collaboration: the
    scores are 0, 0, 77, 30 and 69, whose weighted sum is 19.5. *)
Definition tie_user : User.t :=
  User.mk 8 founder 3 1 2 0 0 [].
Definition tie_project : Project.t :=
  Project.mk 40 2 idea active None false false false [].

(** A freelancer with three years of the one skill a project asks two years
    of, the project asking for two more skills: the skill score is
    [30 + 30.5 = 60.5] with a coverage of one third. *)
Definition half_point_user : User.t :=
  User.mk 4 freelancer 1 0 0 0 0 [].
Definition half_point_project : Project.t :=
  Project.mk 20 2 running active None false true false [].
Definition half_point_db : Db :=
  {| users := [half_point_user];
     projects := [half_point_project];
     userSkills := [UserSkill.mk 4 7 intermediate 3];
     projectTeamRequirements :=
       [TeamRequirement.mk 20 7 intermediate 2 0 1;
        TeamRequirement.mk 20 8 intermediate 2 0 1;
        TeamRequirement.mk 20 9 intermediate 2 0 1];
     rejects := fun _ => false |}.

(** The tier as the specification words it: chosen by the total a
    [MatchScore] reports. *)
Definition recommendationByReportedTotal (total : Z) : string :=
  if (total >=? 80)%Z then "Excellent match - highly recommended"
  else if (total >=? 60)%Z then "Good match - consider this opportunity"
  else if (total >=? 40)%Z then "Fair match - could be worth exploring"
  else "Limited match - may require additional consideration".

(** A founder of level 2 with five projects, scored against a prototype
    without team requirements: the weighted sum is
    [20 + 11.25 + 4.5 + 3.85 = 39.6]. *)
Definition boundary_user : User.t :=
  User.mk 5 founder 2 5 0 0 0 [].
Definition boundary_project : Project.t :=
  Project.mk 30 2 prototype active None false true false [].
Definition boundary_db : Db :=
  {| users := [boundary_user];
     projects := [boundary_project];
     userSkills := [UserSkill.mk 5 7 intermediate 3];
     projectTeamRequirements := [];
     rejects := fun _ => false |}.

(** ** Detail maps *)

(** The keys each calculator writes, and the keys [calculateMatchScore]
    adds after the spread. *)
Definition skillFixedKeys : gset string :=
  {[ "noRequirements"; "coverage"; "final" ]}.
Definition investmentKeys : gset string :=
  {[ "notInvestor"; "notSeeking"; "fundingCapacity"; "stagePreference";
     "experience"; "final" ]}.
Definition stageKeys : gset string :=
  {[ "stageMatch"; "collaborationBonus"; "final" ]}.
Definition interestKeys : gset string :=
  {[ "tagMatching"; "userTypeBonus"; "final" ]}.
Definition engagementKeys : gset string :=
  {[ "activity"; "level"; "final" ]}.
Definition summaryKeys : gset string :=
  {[ "skillScore"; "investmentScore"; "stageScore"; "interestScore";
     "engagementScore"; "totalScore" ]}.

Definition isSkillKey (k : string) : Prop :=
  k ∈ skillFixedKeys \/ exists skillId : Z, k = "skill_" +:+ pretty skillId.

(** The spread of the five detail maps, before the summary keys are
    added. *)
Definition spreadDetails (user : User.t) (project : Project.t)
    (sk : ScoreResult) : gmap string Q :=
  spread (spread (spread (spread (details sk)
                            (details (calculateInvestmentScore user project)))
                    (details (calculateStageScore user project)))
            (details (calculateInterestScore user project)))
    (details (calculateEngagementScore user)).

(** [emittedBy user project sk k v]: one of the five calculators returned
    the pair [k := v] in its detail map ([sk] is the answer of the skill
    calculator). *)
Definition emittedBy (user : User.t) (project : Project.t) (sk : ScoreResult)
    (k : string) (v : Q) : Prop :=
  details sk !! k = Some v
  \/ details (calculateInvestmentScore user project) !! k = Some v
  \/ details (calculateStageScore user project) !! k = Some v
  \/ details (calculateInterestScore user project) !! k = Some v
  \/ details (calculateEngagementScore user) !! k = Some v.

(** Scenario 1: the only skill row of the user is [s], a skill of
    identifier 7 held at the advanced tier for 5 years; the only requirement
    row of the project is [r], asking for skill 7 at the intermediate tier
    with 2 years, one person. *)
Definition isScenario1 (db : Db) (user : User.t) (project : Project.t)
    (s : UserSkill.t) (r : TeamRequirement.t) : Prop :=
  selectUserSkills db (User.id user) = Normal [s]
  /\ UserSkill.skillId s = 7%Z
  /\ UserSkill.proficiency s = advanced
  /\ UserSkill.yearsOfExperience s = 5%Z
  /\ selectTeamRequirements db (Project.id project) = Normal [r]
  /\ TeamRequirement.skillId r = 7%Z
  /\ TeamRequirement.minProficiency r = intermediate
  /\ TeamRequirement.minYearsExperience r = 2%Z
  /\ TeamRequirement.count r = 1%Z.

(** A user without any skill row, scored against [boundary_project], which
    has no team requirement. *)
Definition skillless_user : User.t :=
  User.mk 6 freelancer 1 0 0 0 0 [].

(** A founder of level 5 with two projects and six collaborations whose
    one skill, held as a beginner for three years, is one of three that a
    running project closed to collaboration asks for at the intermediate
    tier with two years: the scores are 40.5, 0, 96, 30 and 98, whose
    weighted sum is 40. *)
Definition exact_40_user : User.t :=
  User.mk 9 founder 5 2 6 0 0 [].
Definition exact_40_project : Project.t :=
  Project.mk 50 2 running active None false false false [].
Definition exact_40_db : Db :=
  {| users := [exact_40_user];
     projects := [exact_40_project];
     userSkills := [UserSkill.mk 9 7 beginner 3];
     projectTeamRequirements :=
       [TeamRequirement.mk 50 7 intermediate 2 0 1;
        TeamRequirement.mk 50 8 intermediate 2 0 1;
        TeamRequirement.mk 50 9 intermediate 2 0 1];
     rejects := fun _ => false |}.

(** ** Recommendation finder *)

(** The order [sort byTotalScoreDesc] establishes. *)
Definition atLeastAsGood (a b : MatchScore.t) : Prop :=
  (MatchScore.totalScore b <= MatchScore.totalScore a)%Z.

Definition hasTotal (s : Z) (m : MatchScore.t) : bool :=
  (MatchScore.totalScore m =? s)%Z.

(** The matches in the order the loop found them; empty when the function
    does not get as far as the loop. *)
Definition discoveryOrder (conn : option Db) (userId : Z) (minScore : Q)
  : list MatchScore.t :=
  match discoveredMatches conn userId minScore with
  | Normal matches => matches
  | Throw _ => []
  end.

(** The database with another [projects] table. *)
Definition withProjects (db : Db) (ps : list Project.t) : Db :=
  {| users := users db;
     projects := ps;
     userSkills := userSkills db;
     projectTeamRequirements := projectTeamRequirements db;
     rejects := rejects db |}.

(** [surfacedFrom userId minScore ps ms]: [ms] scores a project of [ps] that
    the user does not own, and reaches the threshold. *)
Definition surfacedFrom (userId : Z) (minScore : Q) (ps : list Project.t)
    (ms : MatchScore.t) : Prop :=
  exists p, In p ps
            /\ MatchScore.projectId ms = Project.id p
            /\ Project.ownerId p <> userId
            /\ minScore <= inject_Z (MatchScore.totalScore ms).

(** A database with five projects for the freelancer of scenario 1: the
    first and the fourth score 55, the second is the user's own, the third
    scores 60, the fifth is a draft. *)
Definition ranking_db : Db :=
  {| users := [scenario1_user];
     projects :=
       [ Project.mk 10 2 idea active None false true false [];
         Project.mk 11 1 idea active None false true false [];
         Project.mk 12 2 idea active None false true false [];
         Project.mk 13 2 idea active None false true false [];
         Project.mk 14 2 idea draft None false true false [] ];
     userSkills := [UserSkill.mk 1 7 advanced 5];
     projectTeamRequirements :=
       [ TeamRequirement.mk 10 7 intermediate 2 0 1;
         TeamRequirement.mk 12 7 beginner 0 0 1;
         TeamRequirement.mk 13 7 intermediate 2 0 1 ];
     rejects := fun _ => false |}.

Definition idAndTotal (ms : MatchScore.t) : Z * Z :=
  (MatchScore.projectId ms, MatchScore.totalScore ms).

(** The identifiers and totals [findTopMatches] returns, in order. *)
Definition ranking (conn : option Db) (userId limit : Z) (minScore : Q)
  : Completion (list (Z * Z)) :=
  result ← findTopMatches conn userId limit minScore;
  Normal (map idAndTotal result).

(** ** Further vocabulary *)

(** The skill row [userSkillsData.find] returns for a requirement. *)
Definition skillFor (userSkillsData : list UserSkill.t) (req : TeamRequirement.t)
  : option UserSkill.t :=
  List.find (fun s => (UserSkill.skillId s =? TeamRequirement.skillId req)%Z)
    userSkillsData.

(** The user holds the required skill at the required tier, or a higher
    one, with the required years, or more. *)
Definition meets (userSkillsData : list UserSkill.t) (req : TeamRequirement.t)
  : Prop :=
  exists s, skillFor userSkillsData req = Some s
            /\ (proficiencyLevels (TeamRequirement.minProficiency req)
                <= proficiencyLevels (UserSkill.proficiency s))%Z
            /\ (TeamRequirement.minYearsExperience req
                <= UserSkill.yearsOfExperience s)%Z.

(** The sum of the three activity counters. *)
Definition totalActivityOf (user : User.t) : Z :=
  (User.projectsCreated user + User.collaborations user + User.investments user)%Z.

(** The investment calculator gets past its two early returns. *)
Definition investmentApplies (user : User.t) (project : Project.t) : Prop :=
  User.userType user = investor /\ Project.seekingInvestment project = true.

(** What a match of [findTopMatches] for [userId] with threshold [minScore]
    is, with respect to the table [projects] of [db]. *)
Definition qualifies (db : Db) (userId : Z) (minScore : Q) (ms : MatchScore.t)
  : Prop :=
  MatchScore.userId ms = userId
  /\ minScore <= inject_Z (MatchScore.totalScore ms)
  /\ exists p, In p (projects db)
               /\ MatchScore.projectId ms = Project.id p
               /\ Project.status p = active
               /\ Project.seekingTeam p = true
               /\ Project.ownerId p <> userId.

(** A freelancer whose one skill no requirement of the project asks for. *)
Definition unmatched_db : Db :=
  {| users := [half_point_user];
     projects := [half_point_project];
     userSkills := [UserSkill.mk 4 7 intermediate 3];
     projectTeamRequirements :=
       [TeamRequirement.mk 20 8 intermediate 2 0 1;
        TeamRequirement.mk 20 9 beginner 0 0 2];
     rejects := fun _ => false |}.

(** The database of scenario 1 when the server fails every query. *)
Definition failing_db : Db :=
  {| users := users scenario1_db;
     projects := projects scenario1_db;
     userSkills := userSkills scenario1_db;
     projectTeamRequirements := projectTeamRequirements scenario1_db;
     rejects := fun _ => true |}.

(** An investor with earnings that cover half of what a project seeking
    investment needs. *)
Definition investor_user : User.t :=
  User.mk 7 investor 3 0 0 2 2500 ["stage_prototype"; "fintech"].
Definition seeking_project : Project.t :=
  Project.mk 40 2 prototype active (Some 10000) true true false
    ["fintech"; "payments"].

(** What one candidate contributes to the array [matches]: nothing when
    the user owns it or the total is below the threshold, its match
    otherwise. *)
Definition keptMatch (conn : option Db) (user : User.t) (userId : Z)
    (minScore : Q) (project : Project.t) : list MatchScore.t :=
  if (Project.ownerId project =? userId)%Z then []
  else match calculateMatchScore conn user project with
       | Normal match_ =>
           if ge (inject_Z (MatchScore.totalScore match_)) minScore
           then [match_] else []
       | Throw _ => []
       end.

(** The matches of a list of candidates, in the order of the candidates. *)
Definition keptMatches (conn : option Db) (user : User.t) (userId : Z)
    (minScore : Q) (ps : list Project.t) : list MatchScore.t :=
  flat_map (keptMatch conn user userId minScore) ps.

(** The row [saveMatchingHistory] inserts for a match and an action. *)
Definition historyRowOf (srv : Server) (match_ : MatchScore.t) (action : Action)
  : MatchingHistory.t :=
  {| MatchingHistory.userId := MatchScore.userId match_;
     MatchingHistory.projectId := MatchScore.projectId match_;
     MatchingHistory.matchType := MatchScore.matchType match_;
     MatchingHistory.score := MatchScore.totalScore match_;
     MatchingHistory.scoreDetails := MatchScore.scoreDetails match_;
     MatchingHistory.action := action;
     MatchingHistory.actionAt :=
       match action with none => None | _ => Some (now srv) end |}.

(** A server on the database of scenario 1 with one row of history, and
    the same server when it fails the insert. *)
Definition scenario1_server : Server :=
  {| connection := Some scenario1_db;
     matchingHistory :=
       [MatchingHistory.mk 1 9 skill_based 50 ∅ none None];
     fails := fun _ => false;
     now := 1700000000 |}.
Definition read_only_server : Server :=
  {| connection := Some scenario1_db;
     matchingHistory := matchingHistory scenario1_server;
     fails := fun st => match st with InsertMatchingHistory => true | _ => false end;
     now := 1700000000 |}.

(** * Properties *)

(** ** Arithmetic of [Math] *)

Lemma ge_true (a b : Q) : ge a b = true <-> b <= a.
Proof. unfold ge. apply Qle_bool_iff. Qed.

Lemma ge_false (a b : Q) : ge a b = false <-> a < b.
Proof.
  unfold ge. split; intros H.
  - apply Qnot_le_lt. intros Hle. apply Qle_bool_iff in Hle. congruence.
  - destruct (Qle_bool b a) eqn:E; [|reflexivity].
    apply Qle_bool_iff in E. lra.
Qed.

Lemma gt_true (a b : Q) : gt a b = true <-> b < a.
Proof.
  unfold gt. destruct (Qle_bool a b) eqn:E; simpl.
  - apply Qle_bool_iff in E. split; [discriminate | lra].
  - split; [intros _ | reflexivity].
    apply Qnot_le_lt. intros Hle. apply Qle_bool_iff in Hle. congruence.
Qed.

Lemma min_spec (a b : Q) :
  (a <= b /\ Math.min a b = a) \/ (b < a /\ Math.min a b = b).
Proof.
  unfold Math.min. destruct (Qle_bool a b) eqn:E.
  - left. split; [now apply Qle_bool_iff | reflexivity].
  - right. split; [|reflexivity].
    apply Qnot_le_lt. intros Hle. apply Qle_bool_iff in Hle. congruence.
Qed.

Lemma max_spec (a b : Q) :
  (a <= b /\ Math.max a b = b) \/ (b < a /\ Math.max a b = a).
Proof.
  unfold Math.max. destruct (Qle_bool a b) eqn:E.
  - left. split; [now apply Qle_bool_iff | reflexivity].
  - right. split; [|reflexivity].
    apply Qnot_le_lt. intros Hle. apply Qle_bool_iff in Hle. congruence.
Qed.

Lemma min_le_l (a b : Q) : Math.min a b <= a.
Proof. destruct (min_spec a b) as [[? ->]|[? ->]]; lra. Qed.

Lemma min_le_r (a b : Q) : Math.min a b <= b.
Proof. destruct (min_spec a b) as [[? ->]|[? ->]]; lra. Qed.

Lemma min_glb (a b c : Q) : c <= a -> c <= b -> c <= Math.min a b.
Proof. intros. destruct (min_spec a b) as [[? ->]|[? ->]]; lra. Qed.

Lemma max_ge_l (a b : Q) : a <= Math.max a b.
Proof. destruct (max_spec a b) as [[? ->]|[? ->]]; lra. Qed.

Lemma max_ge_r (a b : Q) : b <= Math.max a b.
Proof. destruct (max_spec a b) as [[? ->]|[? ->]]; lra. Qed.

Lemma max_lub (a b c : Q) : a <= c -> b <= c -> Math.max a b <= c.
Proof. intros. destruct (max_spec a b) as [[? ->]|[? ->]]; lra. Qed.

Lemma round_mono (x y : Q) : x <= y -> (Math.round x <= Math.round y)%Z.
Proof. intros H. unfold Math.round. apply Qfloor_resp_le. lra. Qed.

Lemma round_inject_Z (n : Z) : Math.round (inject_Z n) = n.
Proof.
  unfold Math.round.
  assert (Hlo : (n <= Qfloor (inject_Z n + (1 # 2)))%Z).
  { rewrite <- (Qfloor_Z n) at 1. apply Qfloor_resp_le. lra. }
  assert (Hhi : (Qfloor (inject_Z n + (1 # 2)) < n + 1)%Z).
  { rewrite Zlt_Qlt, inject_Z_plus.
    pose proof (Qfloor_le (inject_Z n + (1 # 2))). change (inject_Z 1) with 1. lra. }
  lia.
Qed.

Lemma round_lower (x : Q) (n : Z) : inject_Z n <= x -> (n <= Math.round x)%Z.
Proof. intros H. rewrite <- (round_inject_Z n). now apply round_mono. Qed.

Lemma round_upper (x : Q) (n : Z) : x <= inject_Z n -> (Math.round x <= n)%Z.
Proof. intros H. rewrite <- (round_inject_Z n). now apply round_mono. Qed.

(** [Math.round x] is the integer [n] with [n - 1/2 <= x < n + 1/2]. *)
Lemma round_bounds (x : Q) :
  inject_Z (Math.round x) - (1 # 2) <= x < inject_Z (Math.round x) + (1 # 2).
Proof.
  unfold Math.round.
  pose proof (Qfloor_le (x + (1 # 2))) as Hlo.
  pose proof (Qlt_floor (x + (1 # 2))) as Hhi.
  rewrite inject_Z_plus in Hhi. change (inject_Z 1) with 1 in Hhi.
  split; lra.
Qed.

Lemma round_unique (x : Q) (n : Z) :
  inject_Z n - (1 # 2) <= x -> x < inject_Z n + (1 # 2) -> Math.round x = n.
Proof.
  intros Hlo Hhi. pose proof (round_bounds x) as [Hl Hh].
  assert (H1 : inject_Z n < inject_Z (Math.round x + 1)).
  { rewrite inject_Z_plus. change (inject_Z 1) with 1. lra. }
  assert (H2 : inject_Z (Math.round x) < inject_Z (n + 1)).
  { rewrite inject_Z_plus. change (inject_Z 1) with 1. lra. }
  rewrite <- Zlt_Qlt in H1, H2. lia.
Qed.

(** ** Binary64 rounding *)

Import Binary64.

Lemma pow2_pos (e : Z) : 0 < pow2 e.
Proof. apply Qpower_0_lt. reflexivity. Qed.

Lemma pow2_le (a b : Z) : (a <= b)%Z -> pow2 a <= pow2 b.
Proof. intros H. apply Qpower_le_compat_l; [exact H | discriminate]. Qed.

Lemma pow2_lt_inv (a b : Z) : pow2 a < pow2 b -> (a < b)%Z.
Proof. intros H. apply (Qpower_lt_compat_l_inv 2); [exact H | reflexivity]. Qed.

Lemma pow2_plus (a b : Z) : pow2 (a + b) == pow2 a * pow2 b.
Proof. apply Qpower_plus. discriminate. Qed.

Lemma pow2_Z (n : Z) : (0 <= n)%Z -> pow2 n == inject_Z (2 ^ n).
Proof. intros H. unfold pow2. now rewrite Zpower_Qpower. Qed.

Lemma log2_bounds (n : Z) :
  (0 < n)%Z ->
  pow2 (Z.log2 n) <= inject_Z n /\ inject_Z n < pow2 (Z.log2 n + 1).
Proof.
  intros H. destruct (Z.log2_spec n H) as [Hlo Hhi].
  pose proof (Z.log2_nonneg n).
  rewrite !pow2_Z by lia. rewrite <- Zle_Qle, <- Zlt_Qlt.
  unfold Z.succ in Hhi. auto.
Qed.

Lemma Qnum_pos (x : Q) : 0 < x <-> (0 < Qnum x)%Z.
Proof. unfold Qlt. simpl. rewrite Z.mul_1_r. reflexivity. Qed.

Lemma magnitude_spec (x : Q) :
  0 < x -> pow2 (magnitude x) <= x /\ x < pow2 (magnitude x + 1).
Proof.
  intros Hx. unfold magnitude.
  set (a := Z.log2 (Qnum x)). set (b := Z.log2 (Z.pos (Qden x))).
  destruct (log2_bounds (Qnum x)) as [Ha0 Ha1]; [now apply Qnum_pos|].
  destruct (log2_bounds (Z.pos (Qden x))) as [Hb0 Hb1]; [reflexivity|].
  fold a in Ha0, Ha1. fold b in Hb0, Hb1.
  set (N := inject_Z (Qnum x)) in *. set (D := inject_Z (Z.pos (Qden x))) in *.
  assert (HD : 0 < D) by (unfold D; reflexivity).
  assert (HxD : x * D == N).
  { unfold N, D. destruct x as [n d]. unfold Qeq. simpl. lia. }
  assert (Hup : x < pow2 (a - b + 1)).
  { apply (Qmult_lt_r _ _ D HD). rewrite HxD.
    eapply Qlt_le_trans; [exact Ha1|].
    replace (a + 1)%Z with ((a - b + 1) + b)%Z by lia.
    rewrite pow2_plus. apply Qmult_le_l; [apply pow2_pos | exact Hb0]. }
  assert (Hdown : pow2 (a - b - 1) <= x).
  { apply (Qmult_le_r _ _ D HD). rewrite HxD.
    eapply Qle_trans; [|exact Ha0].
    replace a with ((a - b - 1) + (b + 1))%Z at 2 by lia.
    rewrite pow2_plus. apply Qmult_le_l; [apply pow2_pos|].
    apply Qlt_le_weak. exact Hb1. }
  destruct (Qle_bool (pow2 (a - b)) x) eqn:E.
  - apply Qle_bool_iff in E. split; assumption.
  - replace (a - b - 1 + 1)%Z with (a - b)%Z by lia.
    split; [exact Hdown|].
    apply Qnot_le_lt. intros Hle. apply Qle_bool_iff in Hle. congruence.
Qed.

Lemma magnitude_unique (x : Q) (e : Z) :
  pow2 e <= x -> x < pow2 (e + 1) -> magnitude x = e.
Proof.
  intros Hlo Hhi.
  assert (Hx : 0 < x) by (eapply Qlt_le_trans; [apply pow2_pos | exact Hlo]).
  destruct (magnitude_spec x Hx) as [Mlo Mhi].
  assert (magnitude x < e + 1)%Z
    by (apply pow2_lt_inv; eapply Qle_lt_trans; eassumption).
  assert (e < magnitude x + 1)%Z
    by (apply pow2_lt_inv; eapply Qle_lt_trans; eassumption).
  lia.
Qed.

Lemma magnitude_mono (x y : Q) :
  0 < x -> x <= y -> (magnitude x <= magnitude y)%Z.
Proof.
  intros Hx Hxy.
  assert (Hy : 0 < y) by (eapply Qlt_le_trans; eassumption).
  destruct (magnitude_spec x Hx) as [Mlo _].
  destruct (magnitude_spec y Hy) as [_ Mhi].
  assert (magnitude x < magnitude y + 1)%Z; [|lia].
  apply pow2_lt_inv. eapply Qle_lt_trans; [exact Mlo|].
  eapply Qle_lt_trans; eassumption.
Qed.

Lemma Qcompare_cases (a b : Q) :
  CompareSpec (a == b) (a < b) (b < a) (Qcompare a b).
Proof.
  destruct (Qcompare a b) eqn:E; constructor.
  - now apply Qeq_alt.
  - now apply Qlt_alt.
  - now apply Qgt_alt.
Qed.

Lemma rne_cases (y : Q) :
  (rne y = Qfloor y /\ y - inject_Z (Qfloor y) <= 1 # 2)
  \/ (rne y = (Qfloor y + 1)%Z /\ 1 # 2 <= y - inject_Z (Qfloor y)).
Proof.
  unfold rne.
  destruct (Qcompare (y - inject_Z (Qfloor y)) (1 # 2)) eqn:E.
  - apply Qeq_alt in E. destruct (Z.even (Qfloor y)); [left | right];
      (split; [reflexivity | rewrite E; apply Qle_refl]).
  - apply Qlt_alt in E. left. split; [reflexivity | now apply Qlt_le_weak].
  - apply Qgt_alt in E. right. split; [reflexivity | now apply Qlt_le_weak].
Qed.

Lemma floor_bounds (y : Q) :
  inject_Z (Qfloor y) <= y /\ y < inject_Z (Qfloor y) + 1.
Proof.
  split; [apply Qfloor_le|].
  pose proof (Qlt_floor y) as H. rewrite inject_Z_plus in H. exact H.
Qed.

Lemma rne_error (y : Q) :
  - (1 # 2) <= inject_Z (rne y) - y <= 1 # 2.
Proof.
  destruct (floor_bounds y) as [Hlo Hhi].
  destruct (rne_cases y) as [[-> H]|[-> H]].
  - split; lra.
  - rewrite inject_Z_plus. change (inject_Z 1) with 1. split; lra.
Qed.

Lemma rne_mono (y1 y2 : Q) : y1 <= y2 -> (rne y1 <= rne y2)%Z.
Proof.
  intros H.
  pose proof (Qfloor_resp_le _ _ H) as Hf.
  destruct (floor_bounds y1) as [L1 U1]. destruct (floor_bounds y2) as [L2 U2].
  destruct (Z.eq_dec (Qfloor y1) (Qfloor y2)) as [Heq|Hne].
  - unfold rne. rewrite Heq in *.
    destruct (Qcompare_cases (y1 - inject_Z (Qfloor y2)) (1 # 2)) as [E1|E1|E1];
      destruct (Qcompare_cases (y2 - inject_Z (Qfloor y2)) (1 # 2)) as [E2|E2|E2];
      try (destruct (Z.even (Qfloor y2))); try lia; exfalso; lra.
  - destruct (rne_cases y1) as [[-> _]|[-> _]];
      destruct (rne_cases y2) as [[-> _]|[-> _]]; lia.
Qed.

Lemma rne_inject_Z (n : Z) : rne (inject_Z n) = n.
Proof.
  unfold rne. rewrite Qfloor_Z.
  assert (E : Qcompare (inject_Z n - inject_Z n) (1 # 2) = Lt).
  { apply Qlt_alt.
    assert (H : inject_Z n - inject_Z n == 0) by ring.
    rewrite H. reflexivity. }
  rewrite E. reflexivity.
Qed.

Lemma rne_le (y : Q) (n : Z) : y <= inject_Z n -> (rne y <= n)%Z.
Proof. intros H. rewrite <- (rne_inject_Z n). now apply rne_mono. Qed.

Lemma rne_ge (y : Q) (n : Z) : inject_Z n <= y -> (n <= rne y)%Z.
Proof. intros H. rewrite <- (rne_inject_Z n). now apply rne_mono. Qed.

Lemma ulp_pos (x : Q) : 0 < ulp x.
Proof. apply pow2_pos. Qed.

Lemma ulp_binade (x : Q) : ulp x = pow2 (binade x - 52).
Proof. reflexivity. Qed.

Lemma pow2_53 (e : Z) : pow2 (e + 1) == inject_Z (2 ^ 53) * pow2 (e - 52).
Proof.
  replace (e + 1)%Z with (53 + (e - 52))%Z by lia.
  rewrite pow2_plus. rewrite (pow2_Z 53) by lia. reflexivity.
Qed.

Lemma pow2_52 (e : Z) : pow2 e == inject_Z (2 ^ 52) * pow2 (e - 52).
Proof.
  replace e with (52 + (e - 52))%Z at 1 by lia.
  rewrite pow2_plus. rewrite (pow2_Z 52) by lia. reflexivity.
Qed.

Lemma roundPositive_upper (x : Q) :
  0 < x -> roundPositive x <= pow2 (binade x + 1).
Proof.
  intros Hx. unfold roundPositive. rewrite ulp_binade.
  rewrite (pow2_53 (binade x)).
  apply Qmult_le_r; [apply pow2_pos|].
  rewrite <- Zle_Qle. apply rne_le.
  apply Qle_shift_div_r; [apply pow2_pos|].
  rewrite <- pow2_53.
  destruct (magnitude_spec x Hx) as [_ Hhi].
  apply Qlt_le_weak. eapply Qlt_le_trans; [exact Hhi|].
  apply pow2_le. unfold binade. lia.
Qed.

Lemma roundPositive_lower (x : Q) :
  0 < x -> binade x = magnitude x -> pow2 (binade x) <= roundPositive x.
Proof.
  intros Hx Hb. unfold roundPositive. rewrite ulp_binade.
  rewrite (pow2_52 (binade x)) at 1.
  apply Qmult_le_r; [apply pow2_pos|].
  rewrite <- Zle_Qle. apply rne_ge.
  apply Qle_shift_div_l; [apply pow2_pos|].
  rewrite <- pow2_52. rewrite Hb.
  now destruct (magnitude_spec x Hx) as [Hlo _].
Qed.

Lemma roundPositive_nonneg (x : Q) : 0 < x -> 0 <= roundPositive x.
Proof.
  intros Hx. unfold roundPositive.
  apply Qmult_le_0_compat; [|apply Qlt_le_weak, ulp_pos].
  change 0 with (inject_Z 0). rewrite <- Zle_Qle. apply rne_ge.
  change (inject_Z 0) with 0.
  apply Qle_shift_div_l; [apply ulp_pos|]. lra.
Qed.

Lemma roundPositive_mono (x y : Q) :
  0 < x -> x <= y -> roundPositive x <= roundPositive y.
Proof.
  intros Hx Hxy.
  assert (Hy : 0 < y) by (eapply Qlt_le_trans; eassumption).
  pose proof (magnitude_mono x y Hx Hxy) as Hm.
  destruct (Z.eq_dec (binade x) (binade y)) as [Heq|Hne].
  - unfold roundPositive. rewrite !ulp_binade, Heq.
    apply Qmult_le_r; [apply pow2_pos|].
    rewrite <- Zle_Qle. apply rne_mono.
    apply Qmult_le_r; [apply Qinv_lt_0_compat, pow2_pos | exact Hxy].
  - assert (Hlt : (binade x < binade y)%Z) by (unfold binade in *; lia).
    assert (Hby : binade y = magnitude y) by (unfold binade in *; lia).
    eapply Qle_trans; [apply roundPositive_upper; exact Hx|].
    eapply Qle_trans; [|apply roundPositive_lower; assumption].
    apply pow2_le. lia.
Qed.

Lemma nearest_sign (x : Q) :
  (x == 0 /\ nearest x = 0)
  \/ (0 < x /\ nearest x = roundPositive x)
  \/ (x < 0 /\ nearest x = - roundPositive (- x)).
Proof.
  unfold nearest. destruct x as [[|p|p] d]; simpl.
  - left. split; reflexivity.
  - right. left. split; reflexivity.
  - right. right. split; reflexivity.
Qed.

(** Rounding is monotone. *)
Lemma nearest_mono (x y : Q) : x <= y -> nearest x <= nearest y.
Proof.
  intros H.
  destruct (nearest_sign x) as [[Hx ->]|[[Hx ->]|[Hx ->]]];
    destruct (nearest_sign y) as [[Hy ->]|[[Hy ->]|[Hy ->]]];
    try lra.
  - now apply roundPositive_nonneg.
  - now apply roundPositive_mono.
  - assert (0 <= roundPositive (- x)) by (apply roundPositive_nonneg; lra).
    lra.
  - assert (0 <= roundPositive (- x)) by (apply roundPositive_nonneg; lra).
    assert (0 <= roundPositive y) by (apply roundPositive_nonneg; lra).
    lra.
  - assert (roundPositive (- y) <= roundPositive (- x))
      by (apply roundPositive_mono; lra).
    lra.
Qed.

Lemma nearest_comp (x y : Q) : x == y -> nearest x == nearest y.
Proof.
  intros H. apply Qle_antisym; apply nearest_mono; rewrite H; apply Qle_refl.
Qed.

#[global] Instance nearest_Proper : Proper (Qeq ==> Qeq) nearest.
Proof. intros x y H. now apply nearest_comp. Qed.

Lemma nearest_le (x c : Q) : nearest c == c -> x <= c -> nearest x <= c.
Proof. intros Hc H. rewrite <- Hc. now apply nearest_mono. Qed.

Lemma nearest_ge (x c : Q) : nearest c == c -> c <= x -> c <= nearest x.
Proof. intros Hc H. rewrite <- Hc. now apply nearest_mono. Qed.

Lemma rne_scaled_error (x u : Q) :
  0 < u ->
  - ((1 # 2) * u) <= inject_Z (rne (x / u)) * u - x <= (1 # 2) * u.
Proof.
  intros Hu. pose proof (rne_error (x / u)) as [Hlo Hhi].
  assert (E : inject_Z (rne (x / u)) * u - x
              == (inject_Z (rne (x / u)) - x / u) * u).
  { field. intros H0. rewrite H0 in Hu. discriminate Hu. }
  rewrite E.
  assert (H1 : (inject_Z (rne (x / u)) - x / u) * u <= (1 # 2) * u)
    by (apply Qmult_le_compat_r; [exact Hhi | lra]).
  assert (H2 : (- (1 # 2)) * u <= (inject_Z (rne (x / u)) - x / u) * u)
    by (apply Qmult_le_compat_r; [exact Hlo | lra]).
  split; lra.
Qed.

Lemma ulp_le (x : Q) (k : Z) :
  0 < x -> x < pow2 k -> (emin < k)%Z -> ulp x <= pow2 (k - 53).
Proof.
  intros Hx Hk He. unfold ulp. apply pow2_le.
  destruct (magnitude_spec x Hx) as [Hlo _].
  assert (magnitude x < k)%Z
    by (apply pow2_lt_inv; eapply Qle_lt_trans; eassumption).
  unfold binade. lia.
Qed.

Lemma pow2_half (k : Z) : (1 # 2) * pow2 (k - 53) == pow2 (k - 54).
Proof.
  replace (k - 53)%Z with (1 + (k - 54))%Z by lia.
  rewrite pow2_plus. change (pow2 1) with 2. field.
Qed.

Lemma roundPositive_error (x : Q) (k : Z) :
  0 < x -> x < pow2 k -> (emin < k)%Z ->
  - pow2 (k - 54) <= roundPositive x - x <= pow2 (k - 54).
Proof.
  intros Hx Hk He. unfold roundPositive.
  pose proof (rne_scaled_error x (ulp x) (ulp_pos x)) as [Hlo Hhi].
  pose proof (ulp_le x k Hx Hk He) as Hu.
  rewrite <- pow2_half. split; lra.
Qed.

(** The rounding error below [2^k] is at most [2^(k-54)]. *)
Lemma nearest_error (x : Q) (k : Z) :
  (emin < k)%Z -> - pow2 k < x < pow2 k ->
  - pow2 (k - 54) <= nearest x - x <= pow2 (k - 54).
Proof.
  intros He [Hlo Hhi].
  pose proof (pow2_pos (k - 54)) as Hp.
  destruct (nearest_sign x) as [[Hx ->]|[[Hx ->]|[Hx ->]]].
  - rewrite Hx. split; lra.
  - now apply roundPositive_error.
  - assert (H : - pow2 (k - 54) <= roundPositive (- x) - - x <= pow2 (k - 54))
      by (apply roundPositive_error; [lra | lra | exact He]).
    destruct H. split; lra.
Qed.

(** [fl] is monotone and respects the equality of rationals. *)
Lemma fl_mono (x y : Q) : x <= y -> fl x <= fl y.
Proof. apply nearest_mono. Qed.

#[global] Instance fl_Proper : Proper (Qeq ==> Qeq) fl.
Proof. intros x y H. unfold fl. now rewrite H. Qed.

(** A bound that is itself a binary64 value survives rounding. *)
Lemma fl_le (x c : Q) : fl c == c -> x <= c -> fl x <= c.
Proof. apply nearest_le. Qed.

Lemma fl_ge (x c : Q) : fl c == c -> c <= x -> c <= fl x.
Proof. apply nearest_ge. Qed.

Lemma fl_nonneg (x : Q) : 0 <= x -> 0 <= fl x.
Proof. apply fl_ge. reflexivity. Qed.

(** Below [2^40] a rounding moves a value by at most [2^-14]. *)
Lemma fl_error (x : Q) :
  - 1099511627776 < x < 1099511627776 ->
  - (1 # 16384) <= fl x - x <= 1 # 16384.
Proof.
  intros H. apply (nearest_error x 40); [reflexivity | exact H].
Qed.

(** [fl c == c] for a constant [c] that binary64 holds. *)
Ltac binary64_value :=
  match goal with |- fl _ == _ => vm_compute; reflexivity end.

(** ** Stage score *)

Lemma stageMatch_ge_5 (userLevel projectStageLevel : Z) :
  5 <= stageMatch userLevel projectStageLevel.
Proof.
  unfold stageMatch.
  destruct (userLevel =? projectStageLevel)%Z; [lra|].
  destruct (Math.abs _ =? 1)%Z; [lra|].
  destruct (userLevel >? projectStageLevel)%Z; [lra|].
  apply max_ge_l.
Qed.

Lemma stageMatch_le_40 (userLevel projectStageLevel : Z) :
  stageMatch userLevel projectStageLevel <= 40.
Proof.
  unfold stageMatch.
  destruct (userLevel =? projectStageLevel)%Z eqn:E1; [lra|].
  destruct (Math.abs _ =? 1)%Z eqn:E2; [lra|].
  destruct (userLevel >? projectStageLevel)%Z; [lra|].
  apply max_lub; [lra|].
  change 40 with (inject_Z 40). rewrite <- Zle_Qle. unfold Math.abs. lia.
Qed.

Lemma collaborationBonusOf_range (user : User.t) :
  0 <= collaborationBonusOf user <= 10.
Proof.
  unfold collaborationBonusOf.
  destruct (User.collaborations user >? 0)%Z eqn:E; [|lra].
  split; [|apply min_le_l].
  apply min_glb; [lra|].
  change 0 with (inject_Z 0). rewrite <- Zle_Qle. lia.
Qed.

Lemma calculateStageScore_score (user : User.t) (project : Project.t) :
  score (calculateStageScore user project) ==
  Math.min 100
    (50 + stageMatch (Math.ceil (inject_Z (User.level user) / 2))
            (stageHierarchy (Project.stage project))
     + collaborationBonusOf user).
Proof.
  unfold calculateStageScore, collaborationBonusOf.
  destruct (User.collaborations user >? 0)%Z; simpl; [reflexivity|].
  set (a := 50 + stageMatch _ _).
  destruct (min_spec 100 a) as [[? ->]|[? ->]];
    destruct (min_spec 100 (a + 0)) as [[? ->]|[? ->]]; lra.
Qed.

(** ** Ranges of the five calculators *)

Lemma proficiencyPoints_nonneg (s : UserSkill.t) (r : TeamRequirement.t) :
  0 <= proficiencyPoints s r.
Proof.
  unfold proficiencyPoints.
  destruct (_ >=? _)%Z eqn:E; [|apply max_ge_l].
  change 0 with (inject_Z 0). rewrite <- Zle_Qle. lia.
Qed.

Lemma experiencePoints_nonneg (s : UserSkill.t) (r : TeamRequirement.t) :
  0 <= experiencePoints s r.
Proof.
  unfold experiencePoints.
  destruct (_ >=? _)%Z eqn:E; [|apply max_ge_l].
  assert (0 <= Math.min 10 (inject_Z (UserSkill.yearsOfExperience s
                                      - TeamRequirement.minYearsExperience r) / 2)).
  { apply min_glb; [lra|].
    assert (0 <= inject_Z (UserSkill.yearsOfExperience s
                           - TeamRequirement.minYearsExperience r)).
    { change 0 with (inject_Z 0). rewrite <- Zle_Qle. lia. }
    apply Qle_shift_div_l; lra. }
  lra.
Qed.

Lemma scoreRequirement_nonneg (skills : list UserSkill.t) (st : SkillLoop)
    (req : TeamRequirement.t) :
  0 <= totalScore st ->
  0 <= totalScore (scoreRequirement skills st req).
Proof.
  intros H. unfold scoreRequirement.
  destruct (List.find _ skills) as [s|]; [|exact H]. simpl.
  pose proof (proficiencyPoints_nonneg s req).
  pose proof (experiencePoints_nonneg s req). lra.
Qed.

Lemma skill_loop_nonneg (skills : list UserSkill.t)
    (reqs : list TeamRequirement.t) (st : SkillLoop) :
  0 <= totalScore st ->
  0 <= totalScore (fold_left (scoreRequirement skills) reqs st).
Proof.
  revert st. induction reqs as [|req reqs IH]; intros st H; simpl; [exact H|].
  apply IH. now apply scoreRequirement_nonneg.
Qed.

Lemma average_nonneg (total : Q) (matched : Z) :
  0 <= total ->
  0 <= (if (matched >? 0)%Z then fl (total / inject_Z matched) else 0).
Proof.
  intros H. destruct (matched >? 0)%Z eqn:E; [|lra].
  assert (Hm : 0 < inject_Z matched).
  { change 0 with (inject_Z 0). rewrite <- Zlt_Qlt. lia. }
  apply fl_nonneg. apply Qle_shift_div_l; [exact Hm | lra].
Qed.

Lemma scoreRequirements_range (skills : list UserSkill.t)
    (reqs : list TeamRequirement.t) :
  0 <= score (scoreRequirements skills reqs) <= 100.
Proof.
  unfold scoreRequirements. cbn [score].
  split; [|apply min_le_l].
  apply min_glb; [lra|]. apply fl_nonneg.
  match goal with
  | |- 0 <= ?avg + ?bonus =>
      assert (Ha : 0 <= avg);
      [apply average_nonneg, skill_loop_nonneg; simpl; lra|];
      assert (Hb : 0 <= bonus);
      [repeat match goal with |- context [if ?c then _ else _] => destruct c end;
       lra|];
      lra
  end.
Qed.

Lemma calculateSkillScore_answer (user : User.t) (project : Project.t)
    (conn : option Db) :
  exists sk, calculateSkillScore user project conn = Normal sk
             /\ SkillAnswer user project conn sk.
Proof.
  unfold calculateSkillScore.
  destruct conn as [db|];
    [|eexists; split; [reflexivity | apply answer_zero; now left]].
  destruct (selectUserSkills db (User.id user)) as [skills|e] eqn:Hs;
    cbn [mbind Completion_bind try_catch];
    [|eexists; split; [reflexivity|];
      apply answer_zero; right; exists db; split; [reflexivity|];
      right; left; now exists e].
  destruct skills as [|s skills]; cbn [length Nat.eqb];
    [eexists; split; [reflexivity|];
     apply answer_zero; right; exists db; split; [reflexivity|]; now left|].
  destruct (selectTeamRequirements db (Project.id project)) as [reqs|e] eqn:Hr;
    cbn [mbind Completion_bind try_catch];
    [|eexists; split; [reflexivity|];
      apply answer_zero; right; exists db; split; [reflexivity|];
      right; right; now exists e].
  destruct reqs as [|r reqs]; cbn [length Nat.eqb].
  - eexists; split; [reflexivity|].
    now apply (answer_neutral _ _ _ db (s :: skills)).
  - eexists; split; [reflexivity|].
    now apply (answer_scored _ _ _ db (s :: skills) (r :: reqs)).
Qed.

Lemma calculateSkillScore_range (user : User.t) (project : Project.t)
    (conn : option Db) :
  exists r, calculateSkillScore user project conn = Normal r
            /\ 0 <= score r <= 100.
Proof.
  destruct (calculateSkillScore_answer user project conn) as (sk & Hsk & Ha).
  exists sk. split; [exact Hsk|].
  destruct Ha; [simpl; lra | simpl; lra | apply scoreRequirements_range].
Qed.

Lemma fundingCapacity_range (user : User.t) (needed s : Q) (d : gmap string Q) :
  s <= (fundingCapacity user needed s d).1 <= s + 30.
Proof.
  unfold fundingCapacity.
  repeat match goal with |- context [if ?c then _ else _] => destruct c end;
    simpl; lra.
Qed.

Lemma calculateInvestmentScore_range (user : User.t) (project : Project.t) :
  0 <= score (calculateInvestmentScore user project) <= 100.
Proof.
  unfold calculateInvestmentScore.
  destruct (negb (UserType_eqb _ _)); [simpl; lra|].
  destruct (negb (Project.seekingInvestment _)); [simpl; lra|].
  destruct (Project.totalInvestmentNeeded project) as [needed|].
  - pose proof (fundingCapacity_range user needed 50 ∅) as Hf.
    destruct (fundingCapacity user needed 50 ∅) as [s d]. simpl in Hf.
    destruct (User.investments user >? 0)%Z eqn:E; cbn [score];
      (split; [|apply min_le_l]); apply min_glb; try lra.
    + assert (0 <= Math.min 10 (inject_Z (User.investments user))).
      { apply min_glb; [lra|].
        change 0 with (inject_Z 0). rewrite <- Zle_Qle. lia. }
      destruct (includes _ _); lra.
    + destruct (includes _ _); lra.
  - destruct (User.investments user >? 0)%Z eqn:E; cbn [score];
      (split; [|apply min_le_l]); apply min_glb; try lra.
    + assert (0 <= Math.min 10 (inject_Z (User.investments user))).
      { apply min_glb; [lra|].
        change 0 with (inject_Z 0). rewrite <- Zle_Qle. lia. }
      destruct (includes _ _); lra.
    + destruct (includes _ _); lra.
Qed.

Lemma calculateStageScore_range (user : User.t) (project : Project.t) :
  55 <= score (calculateStageScore user project) <= 100.
Proof.
  rewrite calculateStageScore_score.
  split; [|apply min_le_l].
  pose proof (stageMatch_ge_5 (Math.ceil (inject_Z (User.level user) / 2))
                (stageHierarchy (Project.stage project))).
  pose proof (collaborationBonusOf_range user).
  apply min_glb; lra.
Qed.

Lemma userTypeBonus_range (project : Project.t) (t : UserType) :
  0 <= userTypeBonus project t <= 15.
Proof.
  unfold userTypeBonus.
  destruct t;
    repeat match goal with |- context [if ?c then _ else _] => destruct c end;
    lra.
Qed.

Lemma ratio_nonneg (a b : nat) :
  0 <= fl (fl (inject_Z (Z.of_nat a) / inject_Z (Z.of_nat b)) * 50).
Proof.
  assert (Ha : 0 <= inject_Z (Z.of_nat a)).
  { change 0 with (inject_Z 0). rewrite <- Zle_Qle. lia. }
  assert (Hr : 0 <= inject_Z (Z.of_nat a) / inject_Z (Z.of_nat b)).
  { destruct b as [|b].
    - simpl. unfold Qdiv, Qinv. simpl. rewrite Qmult_0_r. lra.
    - assert (Hb : 0 < inject_Z (Z.of_nat (S b))).
      { change 0 with (inject_Z 0). rewrite <- Zlt_Qlt. lia. }
      apply Qle_shift_div_l; [exact Hb | lra]. }
  apply fl_nonneg. apply fl_nonneg in Hr. lra.
Qed.

Lemma calculateInterestScore_range (user : User.t) (project : Project.t) :
  30 <= score (calculateInterestScore user project) <= 100.
Proof.
  unfold calculateInterestScore.
  pose proof (userTypeBonus_range project (User.userType user)).
  assert (F30 : fl 30 == 30) by binary64_value.
  destruct (_ && _); cbn [score]; (split; [|apply min_le_l]);
    (apply min_glb; [lra|]); apply (fl_ge _ 30 F30); [|lra].
  match goal with
  | |- context [fl (fl (inject_Z (Z.of_nat ?a) / inject_Z (Z.of_nat ?b)) * 50)] =>
      pose proof (ratio_nonneg a b) as Hr;
      assert (30 <= fl (30 + fl (fl (inject_Z (Z.of_nat a)
                                      / inject_Z (Z.of_nat b)) * 50)))
        by (apply (fl_ge _ 30 F30); lra)
  end.
  lra.
Qed.

Lemma calculateEngagementScore_upper (user : User.t) :
  score (calculateEngagementScore user) <= 100.
Proof. unfold calculateEngagementScore. cbn [score]. apply min_le_l. Qed.

Lemma calculateEngagementScore_lower (user : User.t) :
  (1 <= User.level user)%Z ->
  (0 <= User.projectsCreated user + User.collaborations user
        + User.investments user)%Z ->
  50 <= score (calculateEngagementScore user).
Proof.
  intros Hl Ha. unfold calculateEngagementScore. cbn [score].
  assert (0 <= Math.min 40 (inject_Z
            ((User.projectsCreated user + User.collaborations user
              + User.investments user) * 5))).
  { apply min_glb; [lra|]. change 0 with (inject_Z 0). rewrite <- Zle_Qle. lia. }
  assert (0 <= Math.min 10 (inject_Z ((User.level user - 1) * 2))).
  { apply min_glb; [lra|]. change 0 with (inject_Z 0). rewrite <- Zle_Qle. lia. }
  apply min_glb; lra.
Qed.

(** ** The aggregator *)

(** [calculateMatchScore] always completes normally: the skill calculator
    catches what its queries throw. *)
Lemma calculateMatchScore_returns (conn : option Db) (user : User.t)
    (project : Project.t) :
  exists sk, calculateSkillScore user project conn = Normal sk
             /\ 0 <= score sk <= 100
             /\ calculateMatchScore conn user project
                = Normal (matchScoreFrom user project sk).
Proof.
  destruct (calculateSkillScore_range user project conn) as (sk & Hsk & Hr).
  exists sk. repeat split; try apply Hr; [exact Hsk|].
  unfold calculateMatchScore. rewrite Hsk. reflexivity.
Qed.

(** A product with a weight grows with the score. *)
Lemma weighted_mono (x y w : Q) : 0 <= w -> x <= y -> fl (x * fl w) <= fl (y * fl w).
Proof.
  intros Hw H. apply fl_mono. apply Qmult_le_compat_r; [exact H|].
  now apply fl_nonneg.
Qed.

(** The weighted sum grows with each of the five scores. *)
Lemma weightedTotal_mono (a b c d e a' b' c' d' e' : Q) :
  a <= a' -> b <= b' -> c <= c' -> d <= d' -> e <= e' ->
  weightedTotal a b c d e <= weightedTotal a' b' c' d' e'.
Proof.
  intros Ha Hb Hc Hd He. unfold weightedTotal.
  repeat (apply fl_mono; apply Qplus_le_compat);
    apply weighted_mono; try assumption; lra.
Qed.

Lemma rawTotal_upper (user : User.t) (project : Project.t) (sk : ScoreResult) :
  score sk <= 100 -> rawTotal user project sk <= 100.
Proof.
  intros H. unfold rawTotal.
  pose proof (calculateInvestmentScore_range user project) as [_ Hi].
  pose proof (calculateStageScore_range user project) as [_ Hs].
  pose proof (calculateInterestScore_range user project) as [_ Hn].
  pose proof (calculateEngagementScore_upper user) as He.
  assert (E : weightedTotal 100 100 100 100 100 == 100)
    by (vm_compute; reflexivity).
  rewrite <- E. now apply weightedTotal_mono.
Qed.

Lemma rawTotal_lower (user : User.t) (project : Project.t) (sk : ScoreResult) :
  0 <= score sk -> 0 <= score (calculateEngagementScore user) ->
  0 <= rawTotal user project sk.
Proof.
  intros H He. unfold rawTotal.
  pose proof (calculateInvestmentScore_range user project) as [Hi _].
  pose proof (calculateStageScore_range user project) as [Hs _].
  pose proof (calculateInterestScore_range user project) as [Hn _].
  assert (E : weightedTotal 0 0 0 0 0 == 0) by (vm_compute; reflexivity).
  rewrite <- E. apply weightedTotal_mono; try assumption; lra.
Qed.

(** C10: for every user and every project the stage score lies in
    [55, 100]: it is the base 50 plus a stage-match bonus of at least 5 plus
    a non-negative collaboration bonus, capped at 100. *)
Theorem stage_score_between_55_and_100 (user : User.t) (project : Project.t) :
  55 <= score (calculateStageScore user project) <= 100
  /\ (forall conn, exists ms,
        calculateMatchScore conn user project = Normal ms
        /\ (55 <= MatchScore.stageScore ms <= 100)%Z)
  /\ exists stageBonus collaborationBonus,
       5 <= stageBonus /\ 0 <= collaborationBonus
       /\ score (calculateStageScore user project)
          == Math.min 100 (50 + stageBonus + collaborationBonus).
Proof.
  split; [apply calculateStageScore_range|].
  split.
  { intros conn.
    destruct (calculateMatchScore_returns conn user project) as (sk & _ & _ & ->).
    eexists; split; [reflexivity|]. cbn [matchScoreFrom MatchScore.stageScore].
    pose proof (calculateStageScore_range user project) as [Hlo Hhi].
    split; [now apply round_lower | now apply round_upper]. }
  exists (stageMatch (Math.ceil (inject_Z (User.level user) / 2))
            (stageHierarchy (Project.stage project))),
         (collaborationBonusOf user).
  split; [apply stageMatch_ge_5|].
  split; [apply collaborationBonusOf_range|].
  apply calculateStageScore_score.
Qed.

(** ** Ranges of the scores of a [MatchScore] *)

(** C2, as stated, fails: for a user of level [-30] the engagement score is
    [50 + 0 + min(10, -62) = -12], and [Math.min(100, -12)] leaves it
    negative. *)
Lemma scores_within_0_100_fails :
  ~ (forall conn user project ms,
       calculateMatchScore conn user project = Normal ms ->
       scores_within_0_100 ms).
Proof.
  intros H.
  specialize (H None negative_level_user scenario1_project _ eq_refl).
  destruct H as (_ & _ & _ & _ & [Hneg _] & _).
  vm_compute in Hneg. apply Hneg. reflexivity.
Qed.

(** C2, amended: every score of a [MatchScore] is at most 100; the skill,
    investment, stage and interest scores are never negative; the
    engagement score and the total are not negative either when the user's
    level is at least 1 and the activity counters do not add up to a
    negative number. *)
Theorem scores_upper_bound_and_natural_lower_bound
    (conn : option Db) (user : User.t) (project : Project.t) :
  exists ms,
    calculateMatchScore conn user project = Normal ms
    /\ (MatchScore.skillScore ms <= 100 /\ MatchScore.investmentScore ms <= 100
        /\ MatchScore.stageScore ms <= 100 /\ MatchScore.interestScore ms <= 100
        /\ MatchScore.engagementScore ms <= 100
        /\ MatchScore.totalScore ms <= 100)%Z
    /\ (0 <= MatchScore.skillScore ms /\ 0 <= MatchScore.investmentScore ms
        /\ 0 <= MatchScore.stageScore ms /\ 0 <= MatchScore.interestScore ms)%Z
    /\ (engagement_inputs_natural user -> scores_within_0_100 ms).
Proof.
  destruct (calculateMatchScore_returns conn user project)
    as (sk & _ & [Hsk0 Hsk1] & ->).
  eexists; split; [reflexivity|].
  pose proof (calculateInvestmentScore_range user project) as [Hi0 Hi1].
  pose proof (calculateStageScore_range user project) as [Hs0 Hs1].
  pose proof (calculateInterestScore_range user project) as [Hn0 Hn1].
  pose proof (calculateEngagementScore_upper user) as He1.
  pose proof (rawTotal_upper user project sk Hsk1) as Ht1.
  assert (U : (MatchScore.skillScore (matchScoreFrom user project sk) <= 100
     /\ MatchScore.investmentScore (matchScoreFrom user project sk) <= 100
     /\ MatchScore.stageScore (matchScoreFrom user project sk) <= 100
     /\ MatchScore.interestScore (matchScoreFrom user project sk) <= 100
     /\ MatchScore.engagementScore (matchScoreFrom user project sk) <= 100
     /\ MatchScore.totalScore (matchScoreFrom user project sk) <= 100)%Z).
  { cbn [matchScoreFrom MatchScore.skillScore MatchScore.investmentScore
           MatchScore.stageScore MatchScore.interestScore
           MatchScore.engagementScore MatchScore.totalScore].
    repeat split; apply (round_upper _ 100); assumption. }
  assert (L : (0 <= MatchScore.skillScore (matchScoreFrom user project sk)
     /\ 0 <= MatchScore.investmentScore (matchScoreFrom user project sk)
     /\ 0 <= MatchScore.stageScore (matchScoreFrom user project sk)
     /\ 0 <= MatchScore.interestScore (matchScoreFrom user project sk))%Z).
  { cbn [matchScoreFrom MatchScore.skillScore MatchScore.investmentScore
           MatchScore.stageScore MatchScore.interestScore].
    repeat split; apply (round_lower _ 0);
      change (inject_Z 0) with 0; try assumption; lra. }
  split; [exact U|]. split; [exact L|].
  intros [Hlevel Hact].
  pose proof (calculateEngagementScore_lower user Hlevel Hact) as He0.
  assert (He0' : 0 <= score (calculateEngagementScore user)) by lra.
  pose proof (rawTotal_lower user project sk Hsk0 He0') as Ht0.
  destruct U as (U1 & U2 & U3 & U4 & U5 & U6).
  destruct L as (L1 & L2 & L3 & L4).
  unfold scores_within_0_100, within_0_100.
  repeat split; try assumption;
    cbn [matchScoreFrom MatchScore.engagementScore MatchScore.totalScore];
    apply (round_lower _ 0); change (inject_Z 0) with 0; assumption.
Qed.

Lemma scores_upper_bound_and_natural_lower_bound_witness :
  exists ms,
    calculateMatchScore (Some scenario1_db) scenario1_user scenario1_project
    = Normal ms
    /\ scores_within_0_100 ms.
Proof.
  destruct (scores_upper_bound_and_natural_lower_bound
              (Some scenario1_db) scenario1_user scenario1_project)
    as (ms & Hms & _ & _ & H).
  exists ms. split; [exact Hms|].
  apply H. unfold engagement_inputs_natural. simpl. lia.
Defined.

(** ** The total score *)

(** C1, as stated, fails: with a skill score of 60.5 the code reports
    [round (24.2 + 9 + 6.75 + 2.5) = round 42.45 = 42], whereas the rounded
    scores 61, 0, 60, 45, 50 give [round 42.65 = 43].  (In binary64 the two
    sums are 42.450000000000003 and 42.650000000000006.) *)
Lemma total_from_rounded_scores_fails :
  ~ (forall conn user project ms,
       calculateMatchScore conn user project = Normal ms ->
       MatchScore.totalScore ms = clamp 0 100 (totalFromRoundedScores ms)).
Proof.
  intros H.
  specialize (H (Some half_point_db) half_point_user half_point_project
                _ eq_refl).
  vm_compute in H. discriminate H.
Qed.

Lemma weightedSum_close (a b c d e : Q) (a' b' c' d' e' : Z) :
  inject_Z a' - (1 # 2) <= a < inject_Z a' + (1 # 2) ->
  inject_Z b' - (1 # 2) <= b < inject_Z b' + (1 # 2) ->
  inject_Z c' - (1 # 2) <= c < inject_Z c' + (1 # 2) ->
  inject_Z d' - (1 # 2) <= d < inject_Z d' + (1 # 2) ->
  inject_Z e' - (1 # 2) <= e < inject_Z e' + (1 # 2) ->
  weightedSum a b c d e - (1 # 2)
  <= weightedSum (inject_Z a') (inject_Z b') (inject_Z c') (inject_Z d')
       (inject_Z e')
  <= weightedSum a b c d e + (1 # 2).
Proof. unfold weightedSum. intros. split; lra. Qed.

Lemma round_close (x y : Q) :
  x - 1 <= y <= x + 1 ->
  (Z.abs (Math.round x - Math.round y) <= 1)%Z.
Proof.
  intros [Hlo Hhi].
  pose proof (round_bounds x) as [Hx0 Hx1].
  pose proof (round_bounds y) as [Hy0 Hy1].
  assert (H1 : inject_Z (Math.round y) < inject_Z (Math.round x + 2)).
  { rewrite inject_Z_plus. change (inject_Z 2) with 2. lra. }
  assert (H2 : inject_Z (Math.round x) < inject_Z (Math.round y + 2)).
  { rewrite inject_Z_plus. change (inject_Z 2) with 2. lra. }
  rewrite <- Zlt_Qlt in H1, H2. lia.
Qed.

(** The five weights as binary64 holds them. *)
Lemma weights_binary64 :
  fl 0.4 == 3602879701896397 # 9007199254740992
  /\ fl 0.25 == 1 # 4
  /\ fl 0.15 == 5404319552844595 # 36028797018963968
  /\ fl 0.05 == 3602879701896397 # 72057594037927936.
Proof. repeat split; binary64_value. Qed.

(** The error of one rounded product or sum, for an exact result [x] below
    [2^40]. *)
Ltac rounding_error x :=
  let H := fresh "E" in
  assert (H : - (1 # 16384) <= fl x - x <= 1 # 16384)
    by (apply fl_error; split; lra);
  let v := fresh "v" in
  set (v := fl x) in *; clearbody v.

(** For scores between [-2^36] and [2^36] the binary64 sum is within a
    thousandth of the exact weighted sum. *)
Lemma weightedTotal_error (a b c d e : Q) :
  - 68719476736 <= a <= 68719476736 ->
  - 68719476736 <= b <= 68719476736 ->
  - 68719476736 <= c <= 68719476736 ->
  - 68719476736 <= d <= 68719476736 ->
  - 68719476736 <= e <= 68719476736 ->
  - (1 # 1000) <= weightedTotal a b c d e - weightedSum a b c d e <= 1 # 1000.
Proof.
  intros Ha Hb Hc Hd He. unfold weightedTotal, weightedSum.
  destruct weights_binary64 as (W1 & W2 & W3 & W4).
  rewrite W1, W2, W3, W4.
  rounding_error (a * (3602879701896397 # 9007199254740992)).
  rounding_error (b * (1 # 4)).
  rounding_error (v + v0).
  rounding_error (c * (5404319552844595 # 36028797018963968)).
  rounding_error (v1 + v2).
  rounding_error (d * (5404319552844595 # 36028797018963968)).
  rounding_error (v3 + v4).
  rounding_error (e * (3602879701896397 # 72057594037927936)).
  rounding_error (v5 + v6).
  split; lra.
Qed.

Lemma calculateEngagementScore_int32 (user : User.t) :
  columns_int32 user ->
  - 68719476736 <= score (calculateEngagementScore user) <= 68719476736.
Proof.
  intros ([L0 L1] & [P0 P1] & [C0 C1] & [I0 I1]).
  pose proof (calculateEngagementScore_upper user) as Hup.
  split; [|lra]. clear Hup.
  unfold calculateEngagementScore. cbn [score].
  assert (Ha : - 32212254720
               <= Math.min 40 (inject_Z
                    ((User.projectsCreated user + User.collaborations user
                      + User.investments user) * 5))).
  { apply min_glb; [lra|].
    change (- 32212254720) with (inject_Z (- 32212254720)).
    rewrite <- Zle_Qle. lia. }
  assert (Hl : - 4294967298
               <= Math.min 10 (inject_Z ((User.level user - 1) * 2))).
  { apply min_glb; [lra|].
    change (- 4294967298) with (inject_Z (- 4294967298)).
    rewrite <- Zle_Qle. lia. }
  apply min_glb; lra.
Qed.

(** The sum is formed in binary64.  For the scores 0, 0, 77, 30 and 69 the
    exact weighted sum is the tie 19.5, which would round to 20; the
    products 11.549999999999999, 4.5 and 3.45 add up to
    19.499999999999996, and the reported total is 19. *)
Example total_below_a_tie :
  exists ms, calculateMatchScore None tie_user tie_project = Normal ms
    /\ (MatchScore.skillScore ms, MatchScore.investmentScore ms,
        MatchScore.stageScore ms, MatchScore.interestScore ms,
        MatchScore.engagementScore ms) = (0, 0, 77, 30, 69)%Z
    /\ weightedSum 0 0 77 30 69 == 39 # 2
    /\ weightedTotal 0 0 77 30 69 == 5488762045857791 # 281474976710656
    /\ MatchScore.totalScore ms = 19%Z
    /\ totalFromRoundedScores ms = 20%Z.
Proof.
  eexists. split; [reflexivity|].
  repeat split; vm_compute; reflexivity.
Qed.

(** C1, amended: the reported total is the rounding of the weighted sum of
    the five scores as the calculators return them, before they are
    rounded, the five products and four sums being formed in binary64 from
    left to right; no clamp is applied and the total is at most 100 all the
    same; for a user row whose integer columns are MySQL [int]s the
    binary64 sum is within a thousandth of the exact weighted sum of those
    scores, and the total differs by at most 1 from the rounding of the
    exact weighted sum of the five rounded scores. *)
Theorem total_is_rounded_weighted_sum_of_raw_scores
    (conn : option Db) (user : User.t) (project : Project.t) :
  exists sk ms,
    calculateSkillScore user project conn = Normal sk
    /\ calculateMatchScore conn user project = Normal ms
    /\ MatchScore.totalScore ms
       = Math.round
           (fl (fl (fl (fl (fl (score sk * fl 0.4)
                            + fl (score (calculateInvestmentScore user project)
                                  * fl 0.25))
                        + fl (score (calculateStageScore user project) * fl 0.15))
                    + fl (score (calculateInterestScore user project) * fl 0.15))
                + fl (score (calculateEngagementScore user) * fl 0.05)))
    /\ (MatchScore.totalScore ms <= 100)%Z
    /\ (columns_int32 user ->
        - (1 # 1000)
        <= rawTotal user project sk
           - weightedSum (score sk) (score (calculateInvestmentScore user project))
               (score (calculateStageScore user project))
               (score (calculateInterestScore user project))
               (score (calculateEngagementScore user))
        <= 1 # 1000
        /\ (Z.abs (MatchScore.totalScore ms - totalFromRoundedScores ms) <= 1)%Z).
Proof.
  destruct (calculateMatchScore_returns conn user project)
    as (sk & Hsk & [Hsk0 Hsk1] & Hms).
  exists sk, (matchScoreFrom user project sk).
  split; [exact Hsk|]. split; [exact Hms|].
  split; [reflexivity|].
  split; [apply (round_upper _ 100); now apply rawTotal_upper|].
  intros Hint.
  pose proof (calculateInvestmentScore_range user project) as Hi.
  pose proof (calculateStageScore_range user project) as Hs.
  pose proof (calculateInterestScore_range user project) as Hn.
  pose proof (calculateEngagementScore_int32 user Hint) as He.
  assert (Herr :
    - (1 # 1000)
    <= rawTotal user project sk
       - weightedSum (score sk) (score (calculateInvestmentScore user project))
           (score (calculateStageScore user project))
           (score (calculateInterestScore user project))
           (score (calculateEngagementScore user))
    <= 1 # 1000).
  { unfold rawTotal. apply weightedTotal_error; try split; lra. }
  split; [exact Herr|].
  unfold totalFromRoundedScores.
  cbn [matchScoreFrom MatchScore.skillScore MatchScore.investmentScore
         MatchScore.stageScore MatchScore.interestScore
         MatchScore.engagementScore MatchScore.totalScore].
  fold (rawTotal user project sk).
  apply round_close.
  pose proof (weightedSum_close _ _ _ _ _ _ _ _ _ _
                (round_bounds (score sk))
                (round_bounds (score (calculateInvestmentScore user project)))
                (round_bounds (score (calculateStageScore user project)))
                (round_bounds (score (calculateInterestScore user project)))
                (round_bounds (score (calculateEngagementScore user)))) as Hc.
  split; lra.
Qed.

Lemma total_is_rounded_weighted_sum_of_raw_scores_witness :
  exists ms,
    calculateMatchScore None tie_user tie_project = Normal ms
    /\ MatchScore.totalScore ms = 19%Z
    /\ (Z.abs (MatchScore.totalScore ms - totalFromRoundedScores ms) <= 1)%Z.
Proof.
  destruct (total_is_rounded_weighted_sum_of_raw_scores
              None tie_user tie_project)
    as (sk & ms & Hsk & Hms & Ht & _ & H).
  exists ms. split; [exact Hms|].
  injection Hsk as <-.
  split; [rewrite Ht; vm_compute; reflexivity|].
  apply H. unfold columns_int32, int32. simpl. lia.
Defined.

(** ** The recommendation *)

(** C5, as stated, fails: a weighted sum of 39.6 (39.600000000000001 in
    binary64) is reported as the total 40, yet the text is the one of the
    lowest tier, because the comparison is made on 39.6. *)
Lemma recommendation_by_reported_total_fails :
  ~ (forall conn user project ms,
       calculateMatchScore conn user project = Normal ms ->
       MatchScore.recommendation ms
       = recommendationByReportedTotal (MatchScore.totalScore ms)).
Proof.
  intros H.
  specialize (H (Some boundary_db) boundary_user boundary_project _ eq_refl).
  vm_compute in H. discriminate H.
Qed.

Lemma recommendationOf_tiers (x : Q) :
  (80 <= x -> recommendationOf x = "Excellent match - highly recommended")
  /\ (60 <= x < 80 -> recommendationOf x = "Good match - consider this opportunity")
  /\ (40 <= x < 60 -> recommendationOf x = "Fair match - could be worth exploring")
  /\ (x < 40 -> recommendationOf x
                = "Limited match - may require additional consideration").
Proof.
  unfold recommendationOf.
  destruct (ge x 80) eqn:E80; [apply ge_true in E80 | apply ge_false in E80];
  destruct (ge x 60) eqn:E60; [apply ge_true in E60 | apply ge_false in E60
                              |apply ge_true in E60 | apply ge_false in E60];
  destruct (ge x 40) eqn:E40;
    try apply ge_true in E40; try apply ge_false in E40;
    repeat split; intros; try reflexivity; exfalso; lra.
Qed.

Lemma recommendation_agrees_off_boundary (x : Q) :
  Math.round x <> 40%Z -> Math.round x <> 60%Z -> Math.round x <> 80%Z ->
  recommendationOf x = recommendationByReportedTotal (Math.round x).
Proof.
  intros H40 H60 H80.
  pose proof (round_bounds x) as [Hlo Hhi].
  set (t := Math.round x) in *.
  assert (Hcmp : forall n : Z, t <> n ->
            ge x (inject_Z n) = (t >=? n)%Z).
  { intros n Hn. destruct (t >=? n)%Z eqn:E.
    - apply ge_true.
      assert (inject_Z (n + 1) <= inject_Z t) by (rewrite <- Zle_Qle; lia).
      rewrite inject_Z_plus in *. change (inject_Z 1) with 1 in *. lra.
    - apply ge_false.
      assert (inject_Z (t + 1) <= inject_Z n) by (rewrite <- Zle_Qle; lia).
      rewrite inject_Z_plus in *. change (inject_Z 1) with 1 in *. lra. }
  unfold recommendationOf, recommendationByReportedTotal.
  rewrite <- (Hcmp 80%Z H80), <- (Hcmp 60%Z H60), <- (Hcmp 40%Z H40).
  reflexivity.
Qed.

(** The thresholds are compared with the binary64 sum.  For the scores
    40.5, 0, 96, 30 and 98 the exact weighted sum is 40; the products
    16.2, 14.399999999999999, 4.5 and 4.9 add up to 39.99999999999999, and
    the text is the one of the lowest tier. *)
Example recommendation_below_an_exact_40 :
  exists sk ms,
    calculateSkillScore exact_40_user exact_40_project (Some exact_40_db)
    = Normal sk
    /\ calculateMatchScore (Some exact_40_db) exact_40_user exact_40_project
       = Normal ms
    /\ score sk == 40.5
    /\ (MatchScore.investmentScore ms, MatchScore.stageScore ms,
        MatchScore.interestScore ms, MatchScore.engagementScore ms)
       = (0, 96, 30, 98)%Z
    /\ weightedSum 40.5 0 96 30 98 == 40
    /\ rawTotal exact_40_user exact_40_project sk
       == 5629499534213119 # 140737488355328
    /\ MatchScore.totalScore ms = 40%Z
    /\ MatchScore.recommendation ms
       = "Limited match - may require additional consideration".
Proof.
  eexists. eexists. split; [reflexivity|]. split; [reflexivity|].
  repeat split; vm_compute; reflexivity.
Qed.

(** C5, amended: the recommendation text is determined by the weighted sum
    before it is rounded, a binary64 value (at least 80: "Excellent match";
    at least 60: "Good match"; at least 40: "Fair match"; below 40:
    "Limited match"); it is the text the reported total selects whenever
    the reported total is not exactly 40, 60 or 80. *)
Theorem recommendation_follows_unrounded_total
    (conn : option Db) (user : User.t) (project : Project.t) :
  exists sk ms,
    calculateSkillScore user project conn = Normal sk
    /\ calculateMatchScore conn user project = Normal ms
    /\ MatchScore.totalScore ms = Math.round (rawTotal user project sk)
    /\ (80 <= rawTotal user project sk ->
        MatchScore.recommendation ms = "Excellent match - highly recommended")
    /\ (60 <= rawTotal user project sk < 80 ->
        MatchScore.recommendation ms = "Good match - consider this opportunity")
    /\ (40 <= rawTotal user project sk < 60 ->
        MatchScore.recommendation ms = "Fair match - could be worth exploring")
    /\ (rawTotal user project sk < 40 ->
        MatchScore.recommendation ms
        = "Limited match - may require additional consideration")
    /\ (MatchScore.totalScore ms <> 40%Z -> MatchScore.totalScore ms <> 60%Z ->
        MatchScore.totalScore ms <> 80%Z ->
        MatchScore.recommendation ms
        = recommendationByReportedTotal (MatchScore.totalScore ms)).
Proof.
  destruct (calculateMatchScore_returns conn user project)
    as (sk & Hsk & _ & Hms).
  exists sk, (matchScoreFrom user project sk).
  split; [exact Hsk|]. split; [exact Hms|]. split; [reflexivity|].
  destruct (recommendationOf_tiers (rawTotal user project sk))
    as (T1 & T2 & T3 & T4).
  repeat split; try assumption.
  apply recommendation_agrees_off_boundary.
Qed.

Lemma recommendation_follows_unrounded_total_witness :
  exists ms,
    calculateMatchScore (Some boundary_db) boundary_user boundary_project
    = Normal ms
    /\ MatchScore.totalScore ms = 40%Z
    /\ MatchScore.recommendation ms
       = "Limited match - may require additional consideration".
Proof.
  destruct (recommendation_follows_unrounded_total
              (Some boundary_db) boundary_user boundary_project)
    as (sk & ms & Hsk & Hms & Ht & _ & _ & _ & Hlim & _).
  exists ms. split; [exact Hms|].
  injection Hsk as <-.
  split; [rewrite Ht; vm_compute; reflexivity|].
  apply Hlim. vm_compute. reflexivity.
Defined.

(** ** The merged detail map *)

Lemma skill_key_ne (s k : string) :
  String.get 5 k <> String.get 5 "skill_" -> "skill_" +:+ s <> k.
Proof. intros H E. apply H. rewrite <- E. reflexivity. Qed.

Ltac not_in_keys :=
  rewrite ?not_elem_of_union, ?not_elem_of_singleton;
  repeat split; first [discriminate | apply skill_key_ne; discriminate].

Lemma skill_key_not_elsewhere (k : string) :
  isSkillKey k -> k <> "final" ->
  (k ∉ investmentKeys) /\ (k ∉ stageKeys) /\ (k ∉ interestKeys)
  /\ (k ∉ engagementKeys) /\ (k ∉ summaryKeys).
Proof.
  unfold isSkillKey, skillFixedKeys, investmentKeys, stageKeys, interestKeys,
    engagementKeys, summaryKeys.
  intros [Hk|[n ->]] Hne.
  - rewrite !elem_of_union, !elem_of_singleton in Hk.
    destruct Hk as [[->| ->]| ->]; [| |congruence];
      repeat split; not_in_keys.
  - repeat split; not_in_keys.
Qed.

Lemma investment_key_not_later (k : string) :
  k ∈ investmentKeys -> k <> "final" ->
  (k ∉ stageKeys) /\ (k ∉ interestKeys) /\ (k ∉ engagementKeys) /\ (k ∉ summaryKeys).
Proof.
  unfold investmentKeys, stageKeys, interestKeys, engagementKeys, summaryKeys.
  intros Hk Hne. rewrite !elem_of_union, !elem_of_singleton in Hk.
  destruct Hk as [[[[[->| ->]| ->]| ->]| ->]| ->]; [| | | | |congruence];
    repeat split; not_in_keys.
Qed.

Lemma stage_key_not_later (k : string) :
  k ∈ stageKeys -> k <> "final" ->
  (k ∉ interestKeys) /\ (k ∉ engagementKeys) /\ (k ∉ summaryKeys).
Proof.
  unfold stageKeys, interestKeys, engagementKeys, summaryKeys.
  intros Hk Hne. rewrite !elem_of_union, !elem_of_singleton in Hk.
  destruct Hk as [[->| ->]| ->]; [| |congruence]; repeat split; not_in_keys.
Qed.

Lemma interest_key_not_later (k : string) :
  k ∈ interestKeys -> k <> "final" -> (k ∉ engagementKeys) /\ (k ∉ summaryKeys).
Proof.
  unfold interestKeys, engagementKeys, summaryKeys.
  intros Hk Hne. rewrite !elem_of_union, !elem_of_singleton in Hk.
  destruct Hk as [[->| ->]| ->]; [| |congruence]; repeat split; not_in_keys.
Qed.

Lemma engagement_key_not_summary (k : string) :
  k ∈ engagementKeys -> (k ∉ summaryKeys).
Proof.
  unfold engagementKeys, summaryKeys.
  intros Hk. rewrite !elem_of_union, !elem_of_singleton in Hk.
  destruct Hk as [[->| ->]| ->]; not_in_keys.
Qed.

Lemma fundingCapacity_dom (user : User.t) (needed s : Q) (d : gmap string Q) :
  dom (fundingCapacity user needed s d).2 ⊆ {[ "fundingCapacity" ]} ∪ dom d.
Proof.
  unfold fundingCapacity.
  repeat match goal with |- context [if ?c then _ else _] => destruct c end;
    simpl; rewrite ?dom_insert_L; set_solver.
Qed.

Lemma calculateInvestmentScore_keys (user : User.t) (project : Project.t) :
  dom (details (calculateInvestmentScore user project)) ⊆ investmentKeys.
Proof.
  unfold calculateInvestmentScore, investmentKeys.
  destruct (negb (UserType_eqb _ _));
    [simpl; rewrite dom_singleton_L; set_solver|].
  destruct (negb (Project.seekingInvestment _));
    [simpl; rewrite dom_singleton_L; set_solver|].
  destruct (Project.totalInvestmentNeeded project) as [needed|].
  - pose proof (fundingCapacity_dom user needed 50 ∅) as Hf.
    destruct (fundingCapacity user needed 50 ∅) as [s d]. simpl in Hf.
    destruct (User.investments user >? 0)%Z; cbn [details];
      rewrite ?dom_insert_L; set_solver.
  - destruct (User.investments user >? 0)%Z; cbn [details];
      rewrite ?dom_insert_L; set_solver.
Qed.

Lemma calculateStageScore_keys (user : User.t) (project : Project.t) :
  dom (details (calculateStageScore user project)) ⊆ stageKeys.
Proof.
  unfold calculateStageScore, stageKeys.
  destruct (User.collaborations user >? 0)%Z; cbn [details];
    rewrite ?dom_insert_L; set_solver.
Qed.

Lemma calculateInterestScore_keys (user : User.t) (project : Project.t) :
  dom (details (calculateInterestScore user project)) ⊆ interestKeys.
Proof.
  unfold calculateInterestScore, interestKeys.
  destruct (_ && _); cbn [details]; rewrite ?dom_insert_L; set_solver.
Qed.

Lemma calculateEngagementScore_keys (user : User.t) :
  dom (details (calculateEngagementScore user)) ⊆ engagementKeys.
Proof.
  unfold calculateEngagementScore, engagementKeys. cbn [details].
  rewrite ?dom_insert_L. set_solver.
Qed.

Lemma skill_loop_keys (skills : list UserSkill.t)
    (reqs : list TeamRequirement.t) (st : SkillLoop) (k : string) :
  k ∈ dom (loopDetails (fold_left (scoreRequirement skills) reqs st)) ->
  k ∈ dom (loopDetails st) \/ exists skillId : Z, k = "skill_" +:+ pretty skillId.
Proof.
  revert st. induction reqs as [|req reqs IH]; intros st Hk; simpl in Hk.
  - now left.
  - apply IH in Hk. destruct Hk as [Hk|Hk]; [|now right].
    unfold scoreRequirement in Hk.
    destruct (List.find _ skills); [|now left].
    cbn [loopDetails] in Hk. rewrite dom_insert_L in Hk.
    apply elem_of_union in Hk as [Hk|Hk]; [|now left].
    apply elem_of_singleton in Hk. right. eauto.
Qed.

Lemma calculateSkillScore_keys (user : User.t) (project : Project.t)
    (conn : option Db) (sk : ScoreResult) (k : string) :
  SkillAnswer user project conn sk -> k ∈ dom (details sk) -> isSkillKey k.
Proof.
  unfold isSkillKey, skillFixedKeys.
  intros Ha Hk. destruct Ha; cbn [details] in Hk.
  - set_solver.
  - rewrite dom_singleton_L in Hk. left. set_solver.
  - unfold scoreRequirements in Hk. cbn [details] in Hk.
    rewrite !dom_insert_L in Hk.
    apply elem_of_union in Hk as [Hk|Hk]; [left; set_solver|].
    apply elem_of_union in Hk as [Hk|Hk]; [left; set_solver|].
    apply skill_loop_keys in Hk as [Hk|Hk]; [|now right].
    cbn [loopDetails] in Hk. set_solver.
Qed.

Lemma lookup_outside_keys (m : gmap string Q) (keys : gset string) (k : string) :
  dom m ⊆ keys -> (k ∉ keys) -> m !! k = None.
Proof. intros Hd Hk. apply not_elem_of_dom. set_solver. Qed.

Lemma lookup_inside_keys (m : gmap string Q) (keys : gset string) (k : string)
    (v : Q) :
  dom m ⊆ keys -> m !! k = Some v -> k ∈ keys.
Proof. intros Hd Hk. apply Hd. apply elem_of_dom. eauto. Qed.

Lemma spread_lookup_later (a b : gmap string Q) (k : string) (v : Q) :
  b !! k = Some v -> spread a b !! k = Some v.
Proof. intros H. unfold spread. now apply lookup_union_Some_l. Qed.

Lemma spread_lookup_earlier (a b : gmap string Q) (k : string) :
  b !! k = None -> spread a b !! k = a !! k.
Proof. intros H. unfold spread. now apply lookup_union_r. Qed.

Lemma scoreDetails_lookup (user : User.t) (project : Project.t)
    (sk : ScoreResult) (k : string) :
  (k ∉ summaryKeys) ->
  MatchScore.scoreDetails (matchScoreFrom user project sk) !! k
  = spreadDetails user project sk !! k.
Proof.
  unfold summaryKeys. rewrite !not_elem_of_union, !not_elem_of_singleton.
  intros (((((H1 & H2) & H3) & H4) & H5) & H6).
  cbn [matchScoreFrom MatchScore.scoreDetails].
  rewrite !lookup_insert_ne by congruence. reflexivity.
Qed.

(** C6, as stated, fails: the stage calculator returns [final := 90] for a
    level-1 user and an idea-stage project, and the merged map holds
    [final := 50], the value of the engagement calculator, which is spread
    last. *)
Lemma merged_details_keep_every_pair_fails :
  ~ (forall conn user project sk ms k v,
       calculateSkillScore user project conn = Normal sk ->
       calculateMatchScore conn user project = Normal ms ->
       emittedBy user project sk k v ->
       MatchScore.scoreDetails ms !! k = Some v).
Proof.
  intros H.
  specialize (H None scenario1_user scenario1_project _ _ "final" 90
                eq_refl eq_refl).
  assert (He : emittedBy scenario1_user scenario1_project
                 {| score := 0; details := ∅ |} "final" 90).
  { right. right. left. vm_compute. reflexivity. }
  specialize (H He). vm_compute in H. discriminate H.
Qed.

Lemma spreadDetails_engagement (user : User.t) (project : Project.t)
    (sk : ScoreResult) (k : string) (v : Q) :
  details (calculateEngagementScore user) !! k = Some v ->
  spreadDetails user project sk !! k = Some v.
Proof. intros H. unfold spreadDetails. now apply spread_lookup_later. Qed.

Lemma spreadDetails_interest (user : User.t) (project : Project.t)
    (sk : ScoreResult) (k : string) (v : Q) :
  (k ∉ engagementKeys) ->
  details (calculateInterestScore user project) !! k = Some v ->
  spreadDetails user project sk !! k = Some v.
Proof.
  intros He H. unfold spreadDetails.
  rewrite spread_lookup_earlier
    by (eapply lookup_outside_keys;
        [apply calculateEngagementScore_keys | exact He]).
  now apply spread_lookup_later.
Qed.

Lemma spreadDetails_stage (user : User.t) (project : Project.t)
    (sk : ScoreResult) (k : string) (v : Q) :
  (k ∉ interestKeys) -> (k ∉ engagementKeys) ->
  details (calculateStageScore user project) !! k = Some v ->
  spreadDetails user project sk !! k = Some v.
Proof.
  intros Hi He H. unfold spreadDetails.
  rewrite spread_lookup_earlier
    by (eapply lookup_outside_keys;
        [apply calculateEngagementScore_keys | exact He]).
  rewrite spread_lookup_earlier
    by (eapply lookup_outside_keys;
        [apply calculateInterestScore_keys | exact Hi]).
  now apply spread_lookup_later.
Qed.

Lemma spreadDetails_investment (user : User.t) (project : Project.t)
    (sk : ScoreResult) (k : string) (v : Q) :
  (k ∉ stageKeys) -> (k ∉ interestKeys) -> (k ∉ engagementKeys) ->
  details (calculateInvestmentScore user project) !! k = Some v ->
  spreadDetails user project sk !! k = Some v.
Proof.
  intros Hs Hi He H. unfold spreadDetails.
  rewrite spread_lookup_earlier
    by (eapply lookup_outside_keys;
        [apply calculateEngagementScore_keys | exact He]).
  rewrite spread_lookup_earlier
    by (eapply lookup_outside_keys;
        [apply calculateInterestScore_keys | exact Hi]).
  rewrite spread_lookup_earlier
    by (eapply lookup_outside_keys;
        [apply calculateStageScore_keys | exact Hs]).
  now apply spread_lookup_later.
Qed.

Lemma spreadDetails_skill (user : User.t) (project : Project.t)
    (sk : ScoreResult) (k : string) :
  (k ∉ investmentKeys) -> (k ∉ stageKeys) -> (k ∉ interestKeys) ->
  (k ∉ engagementKeys) ->
  spreadDetails user project sk !! k = details sk !! k.
Proof.
  intros Hv Hs Hi He. unfold spreadDetails.
  rewrite spread_lookup_earlier
    by (eapply lookup_outside_keys;
        [apply calculateEngagementScore_keys | exact He]).
  rewrite spread_lookup_earlier
    by (eapply lookup_outside_keys;
        [apply calculateInterestScore_keys | exact Hi]).
  rewrite spread_lookup_earlier
    by (eapply lookup_outside_keys;
        [apply calculateStageScore_keys | exact Hs]).
  apply spread_lookup_earlier.
  eapply lookup_outside_keys; [apply calculateInvestmentScore_keys | exact Hv].
Qed.

(** Every pair a calculator returns under a key other than ["final"]
    reaches the merged map. *)
Lemma scoreDetails_keeps_unshared_keys (user : User.t) (project : Project.t)
    (conn : option Db) (sk : ScoreResult) (k : string) (v : Q) :
  SkillAnswer user project conn sk ->
  k <> "final" -> emittedBy user project sk k v ->
  MatchScore.scoreDetails (matchScoreFrom user project sk) !! k = Some v.
Proof.
  intros Ha Hne [H|[H|[H|[H|H]]]].
  - assert (Hk : isSkillKey k).
    { eapply calculateSkillScore_keys; [exact Ha|]. apply elem_of_dom. eauto. }
    destruct (skill_key_not_elsewhere k Hk Hne) as (Hv & Hs & Hi & He & Hsum).
    rewrite scoreDetails_lookup by exact Hsum.
    rewrite spreadDetails_skill; assumption.
  - pose proof (lookup_inside_keys _ _ _ _
                  (calculateInvestmentScore_keys user project) H) as Hk.
    destruct (investment_key_not_later k Hk Hne) as (Hs & Hi & He & Hsum).
    rewrite scoreDetails_lookup by exact Hsum.
    now apply spreadDetails_investment.
  - pose proof (lookup_inside_keys _ _ _ _
                  (calculateStageScore_keys user project) H) as Hk.
    destruct (stage_key_not_later k Hk Hne) as (Hi & He & Hsum).
    rewrite scoreDetails_lookup by exact Hsum.
    now apply spreadDetails_stage.
  - pose proof (lookup_inside_keys _ _ _ _
                  (calculateInterestScore_keys user project) H) as Hk.
    destruct (interest_key_not_later k Hk Hne) as (He & Hsum).
    rewrite scoreDetails_lookup by exact Hsum.
    now apply spreadDetails_interest.
  - pose proof (lookup_inside_keys _ _ _ _
                  (calculateEngagementScore_keys user) H) as Hk.
    rewrite scoreDetails_lookup by now apply engagement_key_not_summary.
    now apply spreadDetails_engagement.
Qed.

(** C6, amended: the detail maps are merged by object spread in the order
    skill, investment, stage, interest, engagement, without namespacing.
    Every pair the engagement calculator returns is in the merged map; every
    pair another calculator returns under a key other than ["final"] is in
    the merged map; under ["final"] the merged map holds the engagement
    score, whatever the other calculators returned under that key. *)
Theorem merged_details_keep_all_but_final
    (conn : option Db) (user : User.t) (project : Project.t) :
  exists sk ms,
    calculateSkillScore user project conn = Normal sk
    /\ calculateMatchScore conn user project = Normal ms
    /\ (forall k v,
          details (calculateEngagementScore user) !! k = Some v ->
          MatchScore.scoreDetails ms !! k = Some v)
    /\ (forall k v,
          k <> "final" -> emittedBy user project sk k v ->
          MatchScore.scoreDetails ms !! k = Some v)
    /\ MatchScore.scoreDetails ms !! "final"
       = Some (score (calculateEngagementScore user)).
Proof.
  destruct (calculateSkillScore_answer user project conn) as (sk & Hsk & Ha).
  exists sk, (matchScoreFrom user project sk).
  split; [exact Hsk|].
  split; [unfold calculateMatchScore; rewrite Hsk; reflexivity|].
  assert (He : forall k v,
            details (calculateEngagementScore user) !! k = Some v ->
            MatchScore.scoreDetails (matchScoreFrom user project sk) !! k
            = Some v).
  { intros k v H.
    pose proof (lookup_inside_keys _ _ _ _
                  (calculateEngagementScore_keys user) H) as Hk.
    rewrite scoreDetails_lookup by now apply engagement_key_not_summary.
    now apply spreadDetails_engagement. }
  split; [exact He|].
  split; [intros k v; now apply (scoreDetails_keeps_unshared_keys _ _ conn)|].
  apply He. unfold calculateEngagementScore. cbn [details score].
  apply lookup_insert_eq.
Qed.

Lemma merged_details_keep_all_but_final_witness :
  exists ms,
    calculateMatchScore None scenario1_user scenario1_project = Normal ms
    /\ MatchScore.scoreDetails ms !! "stageMatch" = Some 40.
Proof.
  destruct (merged_details_keep_all_but_final
              None scenario1_user scenario1_project)
    as (sk & ms & Hsk & Hms & _ & H & _).
  exists ms. split; [exact Hms|].
  apply H; [discriminate|].
  right. right. left. vm_compute. reflexivity.
Defined.

(** ** Skill score: the two scenarios of the specification *)

Lemma scenario1_is_scenario1 :
  isScenario1 scenario1_db scenario1_user scenario1_project
    (UserSkill.mk 1 7 advanced 5) (TeamRequirement.mk 10 7 intermediate 2 0 1).
Proof. unfold isScenario1. repeat split. Qed.

(** C3, as stated, fails: in scenario 1 the skill score is
    [40 + 31.5 + 10 = 81.5], which the cap at 100 leaves as it is. *)
Lemma scenario1_score_is_not_100 :
  ~ (forall db user project s r,
       isScenario1 db user project s r ->
       exists sk, calculateSkillScore user project (Some db) = Normal sk
                  /\ 30 <= proficiencyPoints s r
                  /\ 30 <= experiencePoints s r
                  /\ score sk == 100).
Proof.
  intros H.
  destruct (H _ _ _ _ _ scenario1_is_scenario1) as (sk & Hsk & _ & _ & Hscore).
  injection Hsk as <-. vm_compute in Hscore. discriminate Hscore.
Qed.

(** C3, amended: in scenario 1 the proficiency component is 40 and the
    experience component is 31.5, both at least 30; the requirement scores
    71.5; the coverage is 100% and earns the bonus of 10; the skill score is
    81.5, below the cap, and is reported as 82. *)
Theorem scenario1_skill_score (db : Db) (user : User.t) (project : Project.t)
    (s : UserSkill.t) (r : TeamRequirement.t) :
  isScenario1 db user project s r ->
  exists sk,
    calculateSkillScore user project (Some db) = Normal sk
    /\ proficiencyPoints s r == 40 /\ 30 <= proficiencyPoints s r
    /\ experiencePoints s r == 31.5 /\ 30 <= experiencePoints s r
    /\ (exists v, details sk !! "skill_7" = Some v /\ v == 71.5)
    /\ (exists c, details sk !! "coverage" = Some c /\ c == 100)
    /\ score sk == proficiencyPoints s r + experiencePoints s r + 10
    /\ score sk == 81.5
    /\ Math.round (score sk) = 82%Z.
Proof.
  intros (Hs & Hid & Hprof & Hyears & Hr & Hrid & Hrprof & Hryears & _).
  destruct s as [suid sid sprof syears], r as [rpid rid rprof ryears rfilled rcount].
  cbn in Hid, Hprof, Hyears, Hrid, Hrprof, Hryears. subst.
  unfold calculateSkillScore. rewrite Hs. cbn [mbind Completion_bind].
  cbn [length Nat.eqb]. rewrite Hr. cbn [mbind Completion_bind try_catch].
  cbn [length Nat.eqb].
  eexists. split; [reflexivity|].
  repeat split; try (vm_compute; congruence).
  - eexists. split; [vm_compute; reflexivity | vm_compute; reflexivity].
  - eexists. split; [vm_compute; reflexivity | vm_compute; reflexivity].
Qed.

Lemma scenario1_skill_score_witness :
  exists sk,
    calculateSkillScore scenario1_user scenario1_project (Some scenario1_db)
    = Normal sk
    /\ score sk == 81.5.
Proof.
  destruct (scenario1_skill_score _ _ _ _ _ scenario1_is_scenario1)
    as (sk & Hsk & _ & _ & _ & _ & _ & _ & _ & Hscore & _).
  exists sk. split; [exact Hsk | exact Hscore].
Defined.

(** C4, as stated, fails: the skills of the user are looked at first, and a
    user without skills gets the score 0 and an empty detail map, whether the
    project has requirements or not. *)
Lemma no_skills_no_requirements_scores_0 :
  ~ (forall db user project,
       selectTeamRequirements db (Project.id project) = Normal [] ->
       exists sk, calculateSkillScore user project (Some db) = Normal sk
                  /\ score sk == 50
                  /\ is_Some (details sk !! "noRequirements")).
Proof.
  intros H.
  destruct (H boundary_db skillless_user boundary_project eq_refl)
    as (sk & Hsk & Hscore & _).
  injection Hsk as <-. vm_compute in Hscore. discriminate Hscore.
Qed.

(** C4, amended: for every user with at least one skill, scoring a project
    with zero team requirements yields a skill score of exactly 50 and the
    detail map [{ noRequirements: 50 }]; the [MatchScore] reports the skill
    score 50 and carries the flag in its merged detail map.  A user without
    a recorded skill gets the score 0 and an empty detail map whatever the
    project requires; the [MatchScore] reports the skill score 0 and its
    merged detail map carries no flag. *)
Theorem no_requirements_score_50 (db : Db) (user : User.t) (project : Project.t)
    (skills : list UserSkill.t) :
  selectUserSkills db (User.id user) = Normal skills ->
  (skills <> [] ->
   selectTeamRequirements db (Project.id project) = Normal [] ->
   calculateSkillScore user project (Some db)
   = Normal {| score := 50; details := {[ "noRequirements" := 50 ]} |}
   /\ exists ms,
        calculateMatchScore (Some db) user project = Normal ms
        /\ MatchScore.skillScore ms = 50%Z
        /\ MatchScore.scoreDetails ms !! "noRequirements" = Some 50)
  /\ (skills = [] ->
      calculateSkillScore user project (Some db)
      = Normal {| score := 0; details := ∅ |}
      /\ exists ms,
           calculateMatchScore (Some db) user project = Normal ms
           /\ MatchScore.skillScore ms = 0%Z
           /\ MatchScore.scoreDetails ms !! "noRequirements" = None).
Proof.
  intros Hs. split.
  - intros Hne Hr.
    assert (Hsk : calculateSkillScore user project (Some db)
                  = Normal {| score := 50;
                              details := {[ "noRequirements" := 50 ]} |}).
    { unfold calculateSkillScore. rewrite Hs. cbn [mbind Completion_bind].
      destruct skills as [|s skills]; [congruence|]. cbn [length Nat.eqb].
      rewrite Hr. reflexivity. }
    split; [exact Hsk|].
    eexists. split; [unfold calculateMatchScore; rewrite Hsk; reflexivity|].
    split; [reflexivity|].
    apply (scoreDetails_keeps_unshared_keys _ _ (Some db)).
    + now apply (answer_neutral _ _ _ db skills).
    + discriminate.
    + left. cbn [details]. apply lookup_singleton_eq.
  - intros ->.
    assert (Hsk : calculateSkillScore user project (Some db)
                  = Normal {| score := 0; details := ∅ |}).
    { unfold calculateSkillScore. rewrite Hs. reflexivity. }
    split; [exact Hsk|].
    eexists. split; [unfold calculateMatchScore; rewrite Hsk; reflexivity|].
    split; [reflexivity|].
    rewrite scoreDetails_lookup by (unfold summaryKeys; not_in_keys).
    unfold spreadDetails. cbn [details].
    rewrite spread_lookup_earlier
      by (apply (lookup_outside_keys _ _ _ (calculateEngagementScore_keys user));
          unfold engagementKeys; not_in_keys).
    rewrite spread_lookup_earlier
      by (apply (lookup_outside_keys _ _ _
                   (calculateInterestScore_keys user project));
          unfold interestKeys; not_in_keys).
    rewrite spread_lookup_earlier
      by (apply (lookup_outside_keys _ _ _
                   (calculateStageScore_keys user project));
          unfold stageKeys; not_in_keys).
    rewrite spread_lookup_earlier
      by (apply (lookup_outside_keys _ _ _
                   (calculateInvestmentScore_keys user project));
          unfold investmentKeys; not_in_keys).
    apply lookup_empty.
Qed.

Lemma no_requirements_score_50_witness :
  calculateSkillScore boundary_user boundary_project (Some boundary_db)
  = Normal {| score := 50; details := {[ "noRequirements" := 50 ]} |}
  /\ calculateSkillScore skillless_user boundary_project (Some boundary_db)
     = Normal {| score := 0; details := ∅ |}.
Proof.
  split.
  - apply (no_requirements_score_50 boundary_db boundary_user boundary_project
             [UserSkill.mk 5 7 intermediate 3]).
    + reflexivity.
    + discriminate.
    + reflexivity.
  - apply (no_requirements_score_50 boundary_db skillless_user boundary_project
             []).
    + reflexivity.
    + reflexivity.
Defined.

(** ** The recommendation finder *)

Section Sorting.
Context {A : Type} (key : A -> Z).

(** the comparator [(a, b) => key b - key a] *)
Local Abbreviation cmp := (fun a b : A => (key b - key a)%Z).
Local Abbreviation above := (fun a b : A => (key b <= key a)%Z).

Lemma sort_insert_Forall (P : A -> Prop) (x : A) (l : list A) :
  P x -> Forall P l -> Forall P (sort_insert cmp x l).
Proof.
  intros Hx Hl. induction Hl as [|y l Hy Hl IH]; simpl.
  - constructor; [exact Hx | constructor].
  - destruct (key y - key x <=? 0)%Z; repeat constructor; assumption.
Qed.

Lemma sort_insert_sorted (x : A) (l : list A) :
  StronglySorted above l -> StronglySorted above (sort_insert cmp x l).
Proof.
  induction 1 as [|y l Hs IH Hy]; simpl.
  - repeat constructor.
  - destruct (key y - key x <=? 0)%Z eqn:E.
    + apply Z.leb_le in E. constructor; [now constructor|].
      constructor; [lia|].
      eapply Forall_impl; [exact Hy|].
      intros z Hz. simpl in *. lia.
    + apply Z.leb_gt in E. constructor; [exact IH|].
      apply sort_insert_Forall; [lia | exact Hy].
Qed.

Lemma sort_sorted (l : list A) : StronglySorted above (sort cmp l).
Proof.
  induction l as [|x l IH]; simpl; [constructor|].
  now apply sort_insert_sorted.
Qed.

Lemma sort_insert_length (x : A) (l : list A) :
  length (sort_insert cmp x l) = S (length l).
Proof.
  induction l as [|y l IH]; simpl; [reflexivity|].
  destruct (key y - key x <=? 0)%Z; simpl; congruence.
Qed.

Lemma sort_length (l : list A) : length (sort cmp l) = length l.
Proof.
  induction l as [|x l IH]; simpl; [reflexivity|].
  rewrite sort_insert_length. congruence.
Qed.

Lemma sort_insert_In (x y : A) (l : list A) :
  In y (sort_insert cmp x l) -> y = x \/ In y l.
Proof.
  induction l as [|z l IH]; simpl.
  - intros [->|[]]. now left.
  - destruct (key z - key x <=? 0)%Z; simpl; intuition auto.
Qed.

Lemma sort_In (y : A) (l : list A) : In y (sort cmp l) -> In y l.
Proof.
  induction l as [|x l IH]; simpl; [tauto|].
  intros H. apply sort_insert_In in H as [->|H]; auto.
Qed.

(** Stability: the entries of one key keep their order. *)
Lemma sort_insert_stable (s : Z) (x : A) (l : list A) :
  List.filter (fun a => (key a =? s)%Z) (sort_insert cmp x l)
  = List.filter (fun a => (key a =? s)%Z) (x :: l).
Proof.
  induction l as [|y l IH]; [reflexivity|].
  cbn [sort_insert]. destruct (key y - key x <=? 0)%Z eqn:E; [reflexivity|].
  apply Z.leb_gt in E.
  cbn [List.filter] in *. rewrite IH.
  destruct (key x =? s)%Z eqn:Ex, (key y =? s)%Z eqn:Ey; try reflexivity.
  apply Z.eqb_eq in Ex, Ey. lia.
Qed.

Lemma sort_stable (s : Z) (l : list A) :
  List.filter (fun a => (key a =? s)%Z) (sort cmp l)
  = List.filter (fun a => (key a =? s)%Z) l.
Proof.
  induction l as [|x l IH]; [reflexivity|].
  cbn [sort]. rewrite sort_insert_stable. cbn [List.filter].
  rewrite IH. reflexivity.
Qed.
End Sorting.

Lemma slice0_prefix {A} (l : list A) (end_ : Z) :
  exists n, slice0 l end_ = firstn n l.
Proof. unfold slice0. eauto. Qed.

Lemma slice0_length {A} (l : list A) (end_ : Z) :
  (0 <= end_)%Z -> (Z.of_nat (length (slice0 l end_)) <= end_)%Z.
Proof.
  intros H. unfold slice0.
  destruct (end_ <? 0)%Z eqn:E; [apply Z.ltb_lt in E; lia|].
  rewrite length_firstn. lia.
Qed.

Lemma slice0_length_le {A} (l : list A) (end_ : Z) :
  (length (slice0 l end_) <= length l)%nat.
Proof. unfold slice0. rewrite length_firstn. lia. Qed.

Lemma firstn_sorted {A} (R : A -> A -> Prop) (n : nat) (l : list A) :
  StronglySorted R l -> StronglySorted R (firstn n l).
Proof.
  intros H. revert n. induction H as [|x l Hs IH Hx]; intros [|n]; simpl;
    try constructor.
  - apply IH.
  - apply Forall_forall. intros y Hy.
    rewrite Forall_forall in Hx. apply Hx.
    rewrite <- (firstn_skipn n l). apply elem_of_app. now left.
Qed.

Lemma firstn_filter_prefix {A} (f : A -> bool) (n : nat) (l : list A) :
  List.filter f (firstn n l) `prefix_of` List.filter f l.
Proof.
  exists (List.filter f (skipn n l)).
  rewrite <- List.filter_app, firstn_skipn. reflexivity.
Qed.

Lemma sorted_pairs {A} (R : A -> A -> Prop) (l : list A) (i j : nat) (a b : A) :
  StronglySorted R l -> (i < j)%nat ->
  l !! i = Some a -> l !! j = Some b -> R a b.
Proof.
  intros H. revert i j. induction H as [|x l Hs IH Hx]; intros i j Hij Ha Hb.
  - discriminate Ha.
  - destruct j as [|j]; [lia|]. destruct i as [|i].
    + injection Ha as <-. simpl in Hb.
      rewrite Forall_forall in Hx. apply Hx.
      eapply list_elem_of_lookup_2. exact Hb.
    + simpl in Ha, Hb. apply (IH i j); [lia | assumption | assumption].
Qed.

Lemma surfacedFrom_cons (userId : Z) (minScore : Q) (p : Project.t)
    (ps : list Project.t) (ms : MatchScore.t) :
  surfacedFrom userId minScore ps ms -> surfacedFrom userId minScore (p :: ps) ms.
Proof. intros (q & Hq & H). exists q. split; [now right | exact H]. Qed.

(** The loop never throws; it appends to [matches], in the order of the
    candidates, at most one match per candidate. *)
Lemma collectMatches_spec (conn : option Db) (user : User.t) (userId : Z)
    (minScore : Q) (ps : list Project.t) (matches : list MatchScore.t) :
  exists found,
    collectMatches conn user userId minScore ps matches
    = Normal (matches ++ found)
    /\ (length found <= length ps)%nat
    /\ Forall (surfacedFrom userId minScore ps) found.
Proof.
  revert matches. induction ps as [|p ps IH]; intros matches.
  - exists []. cbn [collectMatches]. rewrite app_nil_r. repeat split; auto.
  - cbn [collectMatches].
    destruct (Project.ownerId p =? userId)%Z eqn:Eo.
    + destruct (IH matches) as (found & -> & Hlen & Hall).
      exists found. repeat split; [simpl; lia|].
      eapply Forall_impl; [exact Hall|]. intros ms. apply surfacedFrom_cons.
    + destruct (calculateMatchScore_returns conn user p) as (sk & _ & _ & ->).
      cbn [mbind Completion_bind].
      set (m := matchScoreFrom user p sk).
      destruct (ge (inject_Z (MatchScore.totalScore m)) minScore) eqn:Eg.
      * destruct (IH (matches ++ [m])) as (found & -> & Hlen & Hall).
        exists (m :: found). rewrite <- app_assoc. repeat split; [simpl; lia|].
        constructor.
        -- exists p. repeat split; [now left | | now apply ge_true].
           apply Z.eqb_neq. exact Eo.
        -- eapply Forall_impl; [exact Hall|]. intros ms. apply surfacedFrom_cons.
      * destruct (IH matches) as (found & -> & Hlen & Hall).
        exists found. repeat split; [simpl; lia|].
        eapply Forall_impl; [exact Hall|]. intros ms. apply surfacedFrom_cons.
Qed.

Lemma slice0_nil {A} (end_ : Z) : slice0 (@nil A) end_ = [].
Proof. unfold slice0. apply firstn_nil. Qed.

(** What [findTopMatches] returns: the matches in discovery order, sorted
    and sliced.  Whatever is thrown on the way is caught. *)
Lemma findTopMatches_outcome (conn : option Db) (userId limit : Z) (minScore : Q) :
  findTopMatches conn userId limit minScore
  = Normal (slice0 (sort byTotalScoreDesc (discoveryOrder conn userId minScore))
              limit).
Proof.
  unfold findTopMatches, discoveryOrder, discoveredMatches.
  destruct conn as [db|]; [|cbn [sort]; now rewrite slice0_nil].
  destruct (selectUser db userId) as [[|user rest]|e];
    cbn [mbind Completion_bind try_catch sort];
    try now rewrite slice0_nil.
  destruct (selectActiveProjects db) as [ps|e];
    cbn [mbind Completion_bind try_catch sort];
    try now rewrite slice0_nil.
  destruct (collectMatches_spec (Some db) user userId minScore ps [])
    as (found & -> & _).
  reflexivity.
Qed.

(** The matches found come from the fetched candidates. *)
Lemma discoveryOrder_spec (conn : option Db) (userId : Z) (minScore : Q) :
  (length (discoveryOrder conn userId minScore) <= 100)%nat
  /\ forall db, conn = Some db ->
       Forall (surfacedFrom userId minScore (fetchedCandidates db))
         (discoveryOrder conn userId minScore).
Proof.
  unfold discoveryOrder, discoveredMatches.
  destruct conn as [db|]; [|split; [simpl; lia | intros db [=]]].
  destruct (selectUser db userId) as [[|user rest]|e];
    cbn [mbind Completion_bind];
    try (split; [simpl; lia | intros ? _; constructor]).
  unfold selectActiveProjects, run.
  destruct (rejects db SelectActiveProjects);
    cbn [mbind Completion_bind];
    try (split; [simpl; lia | intros ? _; constructor]).
  destruct (collectMatches_spec (Some db) user userId minScore
              (fetchedCandidates db) []) as (found & -> & Hlen & Hall).
  cbn [app]. split.
  - etransitivity; [exact Hlen|]. unfold fetchedCandidates.
    rewrite length_firstn. lia.
  - intros db' [= <-]. exact Hall.
Qed.

Example ranking_example :
  ranking (Some ranking_db) 1 10 40 = Normal [(12, 60); (10, 55); (13, 55)]%Z
  /\ ranking (Some ranking_db) 1 2 40 = Normal [(12, 60); (10, 55)]%Z
  /\ ranking (Some ranking_db) 1 (-1) 40 = Normal [(12, 60); (10, 55)]%Z
  /\ ranking (Some ranking_db) 1 10 101 = Normal []
  /\ ranking (Some ranking_db) 99 10 40 = Normal [].
Proof. repeat split; vm_compute; reflexivity. Qed.

(** C7, as stated, fails in its last part: [slice(0, limit)] with a
    negative limit drops entries from the end of the array, and the router
    hands over the limit of the request without a check of its sign.  With
    the limit [-1] and three matches, two entries are returned. *)
Lemma findTopMatches_longer_than_negative_limit :
  ~ (forall conn userId limit minScore result,
       findTopMatches conn userId limit minScore = Normal result ->
       (Z.of_nat (length result) <= limit)%Z).
Proof.
  intros H.
  destruct (findTopMatches (Some ranking_db) 1 (-1) 40) as [result|e] eqn:E;
    [|vm_compute in E; discriminate E].
  specialize (H _ _ _ _ _ E).
  assert (Hlen : length result = 2%nat).
  { vm_compute in E. injection E as <-. reflexivity. }
  rewrite Hlen in H. vm_compute in H. apply H. reflexivity.
Qed.

(** C7, amended: the list [findTopMatches] returns is in descending order
    of total score (an entry that appears before another has a total at
    least as large); entries of equal total are in the order in which the
    loop found them; and, for a limit that is not negative, the list has at
    most [limit] entries. *)
Theorem findTopMatches_ranked (conn : option Db) (userId limit : Z)
    (minScore : Q) :
  exists result,
    findTopMatches conn userId limit minScore = Normal result
    /\ (forall (i j : nat) (a b : MatchScore.t),
          (i < j)%nat -> result !! i = Some a -> result !! j = Some b ->
          (MatchScore.totalScore a >= MatchScore.totalScore b)%Z)
    /\ (forall s : Z,
          List.filter (hasTotal s) result
          `prefix_of` List.filter (hasTotal s)
                        (discoveryOrder conn userId minScore))
    /\ ((0 <= limit)%Z -> (Z.of_nat (length result) <= limit)%Z).
Proof.
  eexists. split; [apply findTopMatches_outcome|].
  set (found := discoveryOrder conn userId minScore).
  destruct (slice0_prefix (sort byTotalScoreDesc found) limit) as [n Hn].
  repeat split.
  - intros i j a b Hij Ha Hb. rewrite Hn in Ha, Hb.
    apply Z.le_ge.
    apply (sorted_pairs atLeastAsGood _ i j a b
             (firstn_sorted _ n _ (sort_sorted MatchScore.totalScore found))
             Hij Ha Hb).
  - intros s. rewrite Hn. unfold hasTotal.
    rewrite <- (sort_stable MatchScore.totalScore s found).
    apply firstn_filter_prefix.
  - apply slice0_length.
Qed.

Lemma findTopMatches_ranked_witness :
  exists result,
    findTopMatches (Some ranking_db) 1 2 40 = Normal result
    /\ (Z.of_nat (length result) <= 2)%Z.
Proof.
  destruct (findTopMatches_ranked (Some ranking_db) 1 2 40)
    as (result & Hr & _ & _ & Hlen).
  exists result. split; [exact Hr|]. apply Hlen. lia.
Defined.

Lemma filter_none {A} (f : A -> bool) (l : list A) :
  (forall x, In x l -> f x = false) -> List.filter f l = [].
Proof.
  induction l as [|x l IH]; intros H; [reflexivity|]. simpl.
  rewrite (H x) by now left. apply IH. intros y Hy. apply H. now right.
Qed.

(** C8: [findTopMatches] completes normally whatever the database holds or
    fails to answer; for a user identifier that no row of [users] carries
    it returns the empty list, and when no project is an active project
    seeking a team it returns the empty list; so it does without a
    database. *)
Theorem findTopMatches_never_raises (conn : option Db) (userId limit : Z)
    (minScore : Q) :
  (exists result, findTopMatches conn userId limit minScore = Normal result)
  /\ (forall db, conn = Some db ->
        (forall u, In u (users db) -> User.id u <> userId) ->
        findTopMatches conn userId limit minScore = Normal [])
  /\ (forall db, conn = Some db ->
        (forall p, In p (projects db) -> isCandidate p = false) ->
        findTopMatches conn userId limit minScore = Normal [])
  /\ (conn = None -> findTopMatches conn userId limit minScore = Normal []).
Proof.
  split; [eexists; apply findTopMatches_outcome|].
  split; [|split].
  - intros db -> Hnone. unfold findTopMatches, selectUser, run.
    rewrite filter_none
      by (intros u Hu; apply Z.eqb_neq; now apply Hnone).
    destruct (rejects db (SelectUser userId)); reflexivity.
  - intros db -> Hnone.
    unfold findTopMatches, selectActiveProjects, fetchedCandidates, run.
    rewrite (filter_none isCandidate) by exact Hnone.
    destruct (selectUser db userId) as [[|user rest]|e]; try reflexivity.
    cbn [mbind Completion_bind].
    destruct (rejects db SelectActiveProjects); [reflexivity|].
    cbn [firstn mbind Completion_bind collectMatches try_catch sort].
    now rewrite slice0_nil.
  - intros ->. reflexivity.
Qed.

Lemma findTopMatches_never_raises_witness :
  findTopMatches (Some ranking_db) 99 10 40 = Normal [].
Proof.
  destruct (findTopMatches_never_raises (Some ranking_db) 99 10 40)
    as (_ & Hunknown & _).
  apply (Hunknown ranking_db eq_refl).
  intros u [<-|[]]. discriminate.
Defined.

Lemma filter_fixed {A} (f : A -> bool) (l : list A) :
  Forall (fun x => f x = true) l -> List.filter f l = l.
Proof.
  induction 1 as [|x l Hx Hl IH]; [reflexivity|]. simpl.
  rewrite Hx, IH. reflexivity.
Qed.

Lemma firstn_Forall {A} (P : A -> Prop) (n : nat) (l : list A) :
  Forall P l -> Forall P (firstn n l).
Proof.
  intros H. revert n. induction H as [|x l Hx Hl IH]; intros [|n]; simpl;
    constructor; auto.
Qed.

Lemma filter_Forall {A} (f : A -> bool) (l : list A) :
  Forall (fun x => f x = true) (List.filter f l).
Proof.
  induction l as [|x l IH]; simpl; [constructor|].
  destruct (f x) eqn:E; [constructor; assumption | assumption].
Qed.

(** Fetching from a table that holds the fetched rows only returns the
    same rows. *)
Lemma fetchedCandidates_withProjects (db : Db) :
  fetchedCandidates (withProjects db (fetchedCandidates db))
  = fetchedCandidates db.
Proof.
  unfold fetchedCandidates at 1. cbn [withProjects projects].
  rewrite filter_fixed
    by (unfold fetchedCandidates; apply firstn_Forall, filter_Forall).
  apply firstn_all2. unfold fetchedCandidates. rewrite length_firstn. lia.
Qed.

(** Scoring reads the skill and requirement tables, not [projects]. *)
Lemma collectMatches_withProjects (db : Db) (table : list Project.t)
    (user : User.t) (userId : Z) (minScore : Q) (ps : list Project.t)
    (matches : list MatchScore.t) :
  collectMatches (Some (withProjects db table)) user userId minScore ps matches
  = collectMatches (Some db) user userId minScore ps matches.
Proof.
  revert matches. induction ps as [|p ps IH]; intros matches; [reflexivity|].
  cbn [collectMatches]. rewrite !IH.
  destruct (Project.ownerId p =? userId)%Z; [reflexivity|].
  change (calculateMatchScore (Some (withProjects db table)) user p)
    with (calculateMatchScore (Some db) user p).
  destruct (calculateMatchScore (Some db) user p) as [m|e]; [|reflexivity].
  cbn [mbind Completion_bind]. rewrite IH. reflexivity.
Qed.

(** C9: [findTopMatches] fetches at most 100 candidate projects, so for
    any limit and threshold the list it returns has at most 100 entries,
    every entry scores one of the fetched candidates, and the answer is the
    one it gives when the table holds the fetched candidates only: the
    candidates beyond the first 100 are not scored. *)
Theorem findTopMatches_at_most_100_candidates (db : Db) (userId limit : Z)
    (minScore : Q) :
  (length (fetchedCandidates db) <= 100)%nat
  /\ exists result,
       findTopMatches (Some db) userId limit minScore = Normal result
       /\ (length result <= 100)%nat
       /\ Forall (surfacedFrom userId minScore (fetchedCandidates db)) result
       /\ findTopMatches (Some (withProjects db (fetchedCandidates db)))
            userId limit minScore
          = Normal result.
Proof.
  split; [unfold fetchedCandidates; rewrite length_firstn; lia|].
  eexists. split; [apply findTopMatches_outcome|].
  destruct (discoveryOrder_spec (Some db) userId minScore) as [Hlen Hall].
  specialize (Hall db eq_refl).
  set (found := discoveryOrder (Some db) userId minScore) in *.
  split; [|split].
  - etransitivity; [apply slice0_length_le|].
    rewrite (sort_length MatchScore.totalScore). exact Hlen.
  - apply List.Forall_forall. intros ms Hms.
    destruct (slice0_prefix (sort byTotalScoreDesc found) limit) as [n Hn].
    rewrite Hn in Hms.
    assert (Hin : In ms found).
    { apply (sort_In MatchScore.totalScore).
      rewrite <- (firstn_skipn n (sort _ found)). apply in_or_app. now left. }
    rewrite List.Forall_forall in Hall. now apply Hall.
  - unfold found. rewrite <- (findTopMatches_outcome (Some db)).
    unfold findTopMatches.
    change (selectUser (withProjects db (fetchedCandidates db)) userId)
      with (selectUser db userId).
    destruct (selectUser db userId) as [[|user rest]|e]; try reflexivity.
    cbn [mbind Completion_bind].
    unfold selectActiveProjects, run.
    rewrite fetchedCandidates_withProjects.
    cbn [withProjects rejects].
    destruct (rejects db SelectActiveProjects); [reflexivity|].
    cbn [mbind Completion_bind].
    rewrite collectMatches_withProjects. reflexivity.
Qed.

(** * Further properties of the calculators *)

(** ** Skill calculator *)

Lemma proficiencyLevels_range (p : Proficiency) :
  (1 <= proficiencyLevels p <= 4)%Z.
Proof. destruct p; simpl; lia. Qed.

(** X1: the two components of a requirement's score stay within the ranges
    the source announces: proficiency matching gives 0 to 60 points and
    experience matching 0 to 40 points. *)
Theorem requirement_points_within_announced_ranges
    (s : UserSkill.t) (r : TeamRequirement.t) :
  0 <= proficiencyPoints s r <= 60 /\ 0 <= experiencePoints s r <= 40.
Proof.
  split; split;
    try apply proficiencyPoints_nonneg; try apply experiencePoints_nonneg.
  - unfold proficiencyPoints.
    pose proof (proficiencyLevels_range (UserSkill.proficiency s)).
    pose proof (proficiencyLevels_range (TeamRequirement.minProficiency r)).
    destruct (_ >=? _)%Z eqn:E.
    + change 60 with (inject_Z 60). rewrite <- Zle_Qle. lia.
    + apply max_lub; [lra|].
      change 60 with (inject_Z 60). rewrite <- Zle_Qle. lia.
  - unfold experiencePoints.
    destruct (_ >=? _)%Z eqn:E.
    + pose proof (min_le_l 10 (inject_Z (UserSkill.yearsOfExperience s
                                 - TeamRequirement.minYearsExperience r) / 2)).
      lra.
    + rewrite Z.geb_leb, Z.leb_gt in E.
      apply max_lub; [lra|].
      change 40 with (inject_Z 40). rewrite <- Zle_Qle. lia.
Qed.

Lemma meets_points (skills : list UserSkill.t) (r : TeamRequirement.t)
    (s : UserSkill.t) :
  (proficiencyLevels (TeamRequirement.minProficiency r)
   <= proficiencyLevels (UserSkill.proficiency s))%Z ->
  (TeamRequirement.minYearsExperience r <= UserSkill.yearsOfExperience s)%Z ->
  60 <= proficiencyPoints s r + experiencePoints s r.
Proof.
  intros Hp Hy.
  assert (H1 : 30 <= proficiencyPoints s r).
  { unfold proficiencyPoints.
    destruct (_ >=? _)%Z eqn:E; [|rewrite Z.geb_leb, Z.leb_gt in E; lia].
    change 30 with (inject_Z 30). rewrite <- Zle_Qle. lia. }
  assert (H2 : 30 <= experiencePoints s r).
  { unfold experiencePoints.
    destruct (_ >=? _)%Z eqn:E; [|rewrite Z.geb_leb, Z.leb_gt in E; lia].
    assert (0 <= Math.min 10 (inject_Z (UserSkill.yearsOfExperience s
                                - TeamRequirement.minYearsExperience r) / 2)).
    { apply min_glb; [lra|]. apply Qle_shift_div_l; [lra|].
      rewrite Qmult_0_l. change 0 with (inject_Z 0). rewrite <- Zle_Qle. lia. }
    lra. }
  lra.
Qed.

(** The loop over requirements the user meets: every one is counted, and
    each adds at least 60 to the running total. *)
Lemma skill_loop_all_met (skills : list UserSkill.t)
    (reqs : list TeamRequirement.t) (st : SkillLoop) :
  Forall (meets skills) reqs ->
  matchedSkills (fold_left (scoreRequirement skills) reqs st)
  = (matchedSkills st + Z.of_nat (length reqs))%Z
  /\ totalScore st + 60 * inject_Z (Z.of_nat (length reqs))
     <= totalScore (fold_left (scoreRequirement skills) reqs st).
Proof.
  intros H. revert st. induction H as [|r reqs Hr Hall IH]; intros st.
  - cbn [fold_left length]. change (inject_Z (Z.of_nat 0)) with 0.
    split; [lia | lra].
  - cbn [fold_left length].
    destruct (IH (scoreRequirement skills st r)) as [Hm Ht].
    destruct Hr as (s & Hs & Hp & Hy).
    unfold skillFor in Hs.
    assert (Hst : matchedSkills (scoreRequirement skills st r)
                  = (matchedSkills st + 1)%Z
                  /\ totalScore st + 60 <= totalScore (scoreRequirement skills st r)).
    { unfold scoreRequirement. rewrite Hs. cbn [matchedSkills totalScore].
      split; [reflexivity|].
      pose proof (meets_points skills r s Hp Hy). lra. }
    destruct Hst as [Hm1 Ht1]. split.
    + rewrite Hm, Hm1. lia.
    + rewrite Nat2Z.inj_succ. unfold Z.succ. rewrite inject_Z_plus.
      change (inject_Z 1) with 1. lra.
Qed.

(** X2: a user who meets every requirement of a project (the skill, at the
    required tier or above, with the required years or more) gets a skill
    score of at least 70: at least 60 on average, plus the full coverage
    bonus. *)
Theorem skill_score_at_least_70_when_all_requirements_met
    (db : Db) (user : User.t) (project : Project.t)
    (skills : list UserSkill.t) (reqs : list TeamRequirement.t) :
  selectUserSkills db (User.id user) = Normal skills ->
  selectTeamRequirements db (Project.id project) = Normal reqs ->
  reqs <> [] ->
  Forall (meets skills) reqs ->
  exists sk, calculateSkillScore user project (Some db) = Normal sk
             /\ 70 <= score sk <= 100.
Proof.
  intros Hs Hr Hne Hall.
  assert (Hskills : skills <> []).
  { destruct reqs as [|r reqs]; [congruence|].
    inversion Hall as [|? ? (s & Hf & _) _]; subst.
    intros ->. discriminate Hf. }
  exists (scoreRequirements skills reqs). split.
  { unfold calculateSkillScore. rewrite Hs. cbn [mbind Completion_bind].
    destruct skills as [|s skills]; [congruence|]. cbn [length Nat.eqb].
    rewrite Hr. cbn [mbind Completion_bind try_catch].
    destruct reqs as [|r reqs]; [congruence|]. reflexivity. }
  split; [|apply scoreRequirements_range].
  unfold scoreRequirements. cbn [score].
  destruct (skill_loop_all_met skills reqs
              {| totalScore := 0; matchedSkills := 0; loopDetails := ∅ |} Hall)
    as [Hm Ht].
  set (st := fold_left _ _ _) in *. cbn [matchedSkills totalScore] in Hm, Ht.
  set (n := Z.of_nat (length reqs)) in *.
  assert (Hn : (0 < n)%Z).
  { unfold n. destruct reqs; [congruence|]. simpl. lia. }
  assert (HnQ : 0 < inject_Z n).
  { change 0 with (inject_Z 0). rewrite <- Zlt_Qlt. exact Hn. }
  rewrite Hm. rewrite Z.add_0_l.
  destruct (n >? 0)%Z eqn:E; [|rewrite Z.gtb_ltb, Z.ltb_ge in E; lia].
  assert (Havg : 60 <= fl (totalScore st / inject_Z n)).
  { apply fl_ge; [binary64_value|].
    apply Qle_shift_div_l; [exact HnQ | lra]. }
  assert (Hall1 : inject_Z n / inject_Z n == 1) by (field; lra).
  assert (Hpct : fl (fl (inject_Z n / inject_Z n) * 100) == 100).
  { rewrite Hall1. vm_compute. reflexivity. }
  assert (Hgt : gt (fl (fl (inject_Z n / inject_Z n) * 100)) 70 = true).
  { apply gt_true. rewrite Hpct. lra. }
  rewrite Hgt. apply min_glb; [lra|].
  apply fl_ge; [binary64_value | lra].
Qed.

Lemma skill_score_at_least_70_when_all_requirements_met_witness :
  exists sk,
    calculateSkillScore scenario1_user scenario1_project (Some scenario1_db)
    = Normal sk
    /\ 70 <= score sk <= 100.
Proof.
  apply (skill_score_at_least_70_when_all_requirements_met
           scenario1_db scenario1_user scenario1_project
           [UserSkill.mk 1 7 advanced 5]
           [TeamRequirement.mk 10 7 intermediate 2 0 1]).
  - reflexivity.
  - reflexivity.
  - discriminate.
  - constructor; [|constructor].
    exists (UserSkill.mk 1 7 advanced 5). repeat split; simpl; lia.
Defined.

Lemma skill_loop_none_met (skills : list UserSkill.t)
    (reqs : list TeamRequirement.t) (st : SkillLoop) :
  Forall (fun r => skillFor skills r = None) reqs ->
  fold_left (scoreRequirement skills) reqs st = st.
Proof.
  intros H. revert st. induction H as [|r reqs Hr Hall IH]; intros st;
    [reflexivity|].
  cbn [fold_left]. rewrite IH. unfold scoreRequirement.
  unfold skillFor in Hr. rewrite Hr. reflexivity.
Qed.

(** X3: when the user has skills but none of them is asked for by the
    project's requirements, the skill score is 0 and the coverage entry of
    the detail map is 0: less than the neutral 50 of a project without
    requirements. *)
Theorem skill_score_zero_when_no_requirement_matches
    (db : Db) (user : User.t) (project : Project.t)
    (skills : list UserSkill.t) (reqs : list TeamRequirement.t) :
  selectUserSkills db (User.id user) = Normal skills -> skills <> [] ->
  selectTeamRequirements db (Project.id project) = Normal reqs -> reqs <> [] ->
  Forall (fun r => skillFor skills r = None) reqs ->
  exists sk, calculateSkillScore user project (Some db) = Normal sk
             /\ score sk == 0
             /\ (exists c, details sk !! "coverage" = Some c /\ c == 0)
             /\ (exists f, details sk !! "final" = Some f /\ f == 0)
             /\ dom (details sk) = {[ "coverage"; "final" ]}.
Proof.
  intros Hs Hsne Hr Hrne Hnone.
  exists (scoreRequirements skills reqs). split.
  { unfold calculateSkillScore. rewrite Hs. cbn [mbind Completion_bind].
    destruct skills as [|s skills]; [congruence|]. cbn [length Nat.eqb].
    rewrite Hr. cbn [mbind Completion_bind try_catch].
    destruct reqs as [|r reqs]; [congruence|]. reflexivity. }
  unfold scoreRequirements. rewrite (skill_loop_none_met skills reqs _ Hnone).
  cbn [matchedSkills totalScore loopDetails score details].
  set (pct := fl (fl (inject_Z 0 / inject_Z (Z.of_nat (length reqs))) * 100)).
  assert (Hpct : pct == 0).
  { assert (H0 : inject_Z 0 / inject_Z (Z.of_nat (length reqs)) == 0)
      by (unfold Qdiv; ring).
    unfold pct. rewrite H0. vm_compute. reflexivity. }
  assert (H70 : gt pct 70 = false).
  { destruct (gt pct 70) eqn:E; [|reflexivity].
    apply gt_true in E. rewrite Hpct in E. lra. }
  assert (H40 : gt pct 40 = false).
  { destruct (gt pct 40) eqn:E; [|reflexivity].
    apply gt_true in E. rewrite Hpct in E. lra. }
  rewrite H70, H40. cbn [Z.gtb Z.compare].
  split; [vm_compute; reflexivity|].
  split; [|split].
  - exists pct. split; [|exact Hpct].
    rewrite lookup_insert_ne by discriminate. apply lookup_insert_eq.
  - eexists. split; [apply lookup_insert_eq|]. vm_compute. reflexivity.
  - rewrite !dom_insert_L, dom_empty_L. set_solver.
Qed.

Lemma skill_score_zero_when_no_requirement_matches_witness :
  exists sk,
    calculateSkillScore half_point_user half_point_project (Some unmatched_db)
    = Normal sk
    /\ score sk == 0.
Proof.
  destruct (skill_score_zero_when_no_requirement_matches
              unmatched_db half_point_user half_point_project
              [UserSkill.mk 4 7 intermediate 3]
              [TeamRequirement.mk 20 8 intermediate 2 0 1;
               TeamRequirement.mk 20 9 beginner 0 0 2])
    as (sk & Hsk & Hscore & _).
  - reflexivity.
  - discriminate.
  - reflexivity.
  - discriminate.
  - repeat constructor.
  - exists sk. split; [exact Hsk | exact Hscore].
Defined.

(** X4: the skill calculator fails safe.  Without a database, or when the
    query for the user's skills or the query for the project's requirements
    throws, it completes normally with the score 0 and an empty detail map,
    and [calculateMatchScore] goes on to report a skill score of 0. *)
Theorem skill_calculator_fails_safe (user : User.t) (project : Project.t) :
  calculateSkillScore user project None
  = Normal {| score := 0; details := ∅ |}
  /\ (forall db,
        rejects db (SelectUserSkills (User.id user)) = true
        \/ rejects db (SelectTeamRequirements (Project.id project)) = true ->
        calculateSkillScore user project (Some db)
        = Normal {| score := 0; details := ∅ |}
        /\ exists ms, calculateMatchScore (Some db) user project = Normal ms
                      /\ MatchScore.skillScore ms = 0%Z).
Proof.
  split; [reflexivity|].
  intros db H.
  assert (Hsk : calculateSkillScore user project (Some db)
                = Normal {| score := 0; details := ∅ |}).
  { unfold calculateSkillScore, selectUserSkills, selectTeamRequirements, run.
    destruct (rejects db (SelectUserSkills (User.id user))) eqn:E1;
      [reflexivity|].
    destruct H as [H|H]; [discriminate|]. rewrite H.
    cbn [mbind Completion_bind].
    destruct (length _ =? 0)%nat; reflexivity. }
  split; [exact Hsk|].
  eexists. split; [unfold calculateMatchScore; rewrite Hsk; reflexivity|].
  reflexivity.
Qed.

Lemma skill_calculator_fails_safe_witness :
  calculateSkillScore scenario1_user scenario1_project (Some failing_db)
  = Normal {| score := 0; details := ∅ |}.
Proof.
  destruct (skill_calculator_fails_safe scenario1_user scenario1_project)
    as [_ H].
  apply (H failing_db). left. reflexivity.
Defined.

(** ** Investment calculator *)

Ltac ge_cases :=
  repeat match goal with
         | |- context [ge ?a ?b] => destruct (ge a b) eqn:?
         end;
  repeat match goal with
         | H : ge _ _ = true |- _ => apply ge_true in H
         | H : ge _ _ = false |- _ => apply ge_false in H
         end.

Lemma min_mono (c a b : Q) : a <= b -> Math.min c a <= Math.min c b.
Proof.
  intros H.
  destruct (min_spec c a) as [[? ->]|[? ->]];
    destruct (min_spec c b) as [[? ->]|[? ->]]; lra.
Qed.

(** The thresholds of the funding step are binary64 products.  A fifth of
    1001.00 is 200.20000000000002 there, which twice 100.10, that is 200.2,
    does not reach: earnings of 100.10 earn no funding points against a
    need of 1001.00, while earnings of 100.00 earn 10 against a need of
    1000.00. *)
Example funding_threshold_is_a_binary64_product :
  1001 * 0.2 <= 100.10 * 2
  /\ fl (fl 100.10 * 2) < fl (fl 1001 * fl 0.2)
  /\ (fundingCapacity (User.mk 7 investor 1 0 0 0 100.10 []) 1001 50 ∅).1 == 50
  /\ (fundingCapacity (User.mk 7 investor 1 0 0 0 100 []) 1000 50 ∅).1 == 60.
Proof. repeat split; vm_compute; congruence. Qed.

Lemma fundingCapacity_lower (user : User.t) (needed s : Q) (d : gmap string Q) :
  s <= (fundingCapacity user needed s d).1.
Proof. apply fundingCapacity_range. Qed.

Lemma fundingCapacity_mono (u1 u2 : User.t) (needed s : Q)
    (d1 d2 : gmap string Q) :
  User.earnings u1 <= User.earnings u2 ->
  (fundingCapacity u1 needed s d1).1 <= (fundingCapacity u2 needed s d2).1.
Proof.
  intros H. unfold fundingCapacity, parseFloat.
  assert (Hc : fl (fl (User.earnings u1) * 2) <= fl (fl (User.earnings u2) * 2)).
  { apply fl_mono. apply fl_mono in H. lra. }
  ge_cases; cbn [fst]; lra.
Qed.

(** X5: the investment score is 0, with the marker [notInvestor] or
    [notSeeking] as the whole detail map, unless the user is an investor and
    the project seeks investment; in that case it lies between 50 and 100,
    and the detail map carries it under [final] and carries no marker. *)
Theorem investment_score_zero_or_at_least_50 (user : User.t) (project : Project.t) :
  (User.userType user <> investor ->
   calculateInvestmentScore user project
   = {| score := 0; details := {[ "notInvestor" := 0 ]} |})
  /\ (User.userType user = investor ->
      Project.seekingInvestment project = false ->
      calculateInvestmentScore user project
      = {| score := 0; details := {[ "notSeeking" := 0 ]} |})
  /\ (investmentApplies user project ->
      50 <= score (calculateInvestmentScore user project) <= 100
      /\ details (calculateInvestmentScore user project) !! "final"
         = Some (score (calculateInvestmentScore user project))
      /\ details (calculateInvestmentScore user project) !! "notInvestor" = None
      /\ details (calculateInvestmentScore user project) !! "notSeeking" = None).
Proof.
  unfold investmentApplies, calculateInvestmentScore.
  split; [|split].
  - intros H. destruct (User.userType user); try reflexivity. congruence.
  - intros -> ->. reflexivity.
  - intros [-> ->]. cbn [UserType_eqb negb].
    destruct (Project.totalInvestmentNeeded project) as [needed|].
    + pose proof (fundingCapacity_lower user needed 50 ∅) as Hf.
      pose proof (fundingCapacity_dom user needed 50 ∅) as Hd.
      destruct (fundingCapacity user needed 50 ∅) as [s d].
      cbn [fst snd] in Hf, Hd.
      assert (Hm : d !! "notInvestor" = None /\ d !! "notSeeking" = None).
      { split; apply not_elem_of_dom; intros Hin; apply Hd in Hin;
          rewrite dom_empty_L in Hin; set_solver. }
      destruct Hm as [Hm1 Hm2].
      destruct (User.investments user >? 0)%Z eqn:E; cbn [score details].
      * assert (0 <= Math.min 10 (inject_Z (User.investments user))).
        { apply min_glb; [lra|].
          change 0 with (inject_Z 0). rewrite <- Zle_Qle. lia. }
        repeat split; try apply min_le_l; try apply lookup_insert_eq.
        -- apply min_glb; [lra|]. destruct (includes _ _); lra.
        -- rewrite !lookup_insert_ne by discriminate. exact Hm1.
        -- rewrite !lookup_insert_ne by discriminate. exact Hm2.
      * repeat split; try apply min_le_l; try apply lookup_insert_eq.
        -- apply min_glb; [lra|]. destruct (includes _ _); lra.
        -- rewrite !lookup_insert_ne by discriminate. exact Hm1.
        -- rewrite !lookup_insert_ne by discriminate. exact Hm2.
    + destruct (User.investments user >? 0)%Z eqn:E; cbn [score details].
      * assert (0 <= Math.min 10 (inject_Z (User.investments user))).
        { apply min_glb; [lra|].
          change 0 with (inject_Z 0). rewrite <- Zle_Qle. lia. }
        repeat split; try apply min_le_l; try apply lookup_insert_eq.
        -- apply min_glb; [lra|]. destruct (includes _ _); lra.
      * repeat split; try apply min_le_l; try apply lookup_insert_eq.
        apply min_glb; [lra|]. destruct (includes _ _); lra.
Qed.

Lemma investment_score_zero_or_at_least_50_witness :
  50 <= score (calculateInvestmentScore investor_user seeking_project) <= 100.
Proof.
  destruct (investment_score_zero_or_at_least_50 investor_user seeking_project)
    as (_ & _ & H).
  apply H. split; reflexivity.
Defined.

(** X6: the investment score does not go down when the earnings go up:
    of two users who differ in their earnings only, the one who earned
    more scores at least as much against every project. *)
Theorem investment_score_monotone_in_earnings (u1 u2 : User.t)
    (project : Project.t) :
  User.userType u1 = User.userType u2 ->
  User.interests u1 = User.interests u2 ->
  User.investments u1 = User.investments u2 ->
  User.earnings u1 <= User.earnings u2 ->
  score (calculateInvestmentScore u1 project)
  <= score (calculateInvestmentScore u2 project).
Proof.
  intros Ht Hi Hv He. unfold calculateInvestmentScore.
  rewrite Ht, Hi, Hv.
  destruct (negb (UserType_eqb _ _)); [cbn [score]; lra|].
  destruct (negb (Project.seekingInvestment _)); [cbn [score]; lra|].
  destruct (Project.totalInvestmentNeeded project) as [needed|].
  - pose proof (fundingCapacity_mono u1 u2 needed 50 ∅ ∅ He) as Hf.
    destruct (fundingCapacity u1 needed 50 ∅) as [s1 d1].
    destruct (fundingCapacity u2 needed 50 ∅) as [s2 d2].
    cbn [fst] in Hf.
    destruct (User.investments u2 >? 0)%Z; cbn [score];
      apply min_mono; lra.
  - destruct (User.investments u2 >? 0)%Z; cbn [score]; lra.
Qed.

Lemma investment_score_monotone_in_earnings_witness :
  score (calculateInvestmentScore investor_user seeking_project)
  <= score (calculateInvestmentScore
              (User.mk 7 investor 3 0 0 2 6000 ["stage_prototype"; "fintech"])
              seeking_project).
Proof.
  apply investment_score_monotone_in_earnings; try reflexivity.
  vm_compute. discriminate.
Defined.

(** ** Interest calculator *)

Lemma ratio_le_50 (a b : nat) :
  (a <= b)%nat -> (0 < b)%nat ->
  fl (fl (inject_Z (Z.of_nat a) / inject_Z (Z.of_nat b)) * 50) <= 50.
Proof.
  intros Hab Hb.
  assert (HbQ : 0 < inject_Z (Z.of_nat b)).
  { change 0 with (inject_Z 0). rewrite <- Zlt_Qlt. lia. }
  assert (Hle : inject_Z (Z.of_nat a) <= inject_Z (Z.of_nat b)).
  { rewrite <- Zle_Qle. lia. }
  assert (H1 : fl (inject_Z (Z.of_nat a) / inject_Z (Z.of_nat b)) <= 1).
  { apply fl_le; [binary64_value|].
    apply Qle_shift_div_r; [exact HbQ | lra]. }
  apply fl_le; [binary64_value | lra].
Qed.

Lemma userTypeBonus_cases (project : Project.t) (t : UserType) :
  userTypeBonus project t = 0 \/ userTypeBonus project t = 15.
Proof.
  unfold userTypeBonus.
  destruct t;
    match goal with |- context [if ?c then _ else _] => destruct c end;
    auto.
Qed.

(** The two roundings of the interest score keep it between the exact
    bounds of its three terms. *)
Lemma interest_sum_range (tagScore bonus : Q) :
  0 <= tagScore <= 50 -> bonus = 0 \/ bonus = 15 ->
  30 + bonus <= fl (fl (30 + tagScore) + bonus) <= 80 + bonus.
Proof.
  intros [Hlo Hhi] Hb.
  assert (H30 : 30 <= fl (30 + tagScore))
    by (apply fl_ge; [binary64_value | lra]).
  assert (H80 : fl (30 + tagScore) <= 80)
    by (apply fl_le; [binary64_value | lra]).
  destruct Hb as [-> | ->]; split;
    first [apply fl_ge | apply fl_le]; try binary64_value; lra.
Qed.

Lemma interest_base_range (bonus : Q) :
  bonus = 0 \/ bonus = 15 -> fl (30 + bonus) == 30 + bonus.
Proof. intros [-> | ->]; vm_compute; reflexivity. Qed.

Lemma calculateInterestScore_le_95 (user : User.t) (project : Project.t) :
  score (calculateInterestScore user project) <= 95.
Proof.
  unfold calculateInterestScore.
  pose proof (userTypeBonus_range project (User.userType user)) as Hb.
  destruct ((0 <? length (Project.tags project))%nat
            && (0 <? length (User.interests user))%nat) eqn:E;
    cbn [score];
    (eapply Qle_trans; [apply min_le_r|]).
  - apply andb_true_iff in E as [E1 E2]. apply Nat.ltb_lt in E1, E2.
    match goal with
    | |- context [fl (fl (inject_Z (Z.of_nat ?a) / inject_Z (Z.of_nat ?b)) * 50)] =>
        pose proof (ratio_nonneg a b) as Hlo;
        assert (Hhi : fl (fl (inject_Z (Z.of_nat a) / inject_Z (Z.of_nat b)) * 50)
                      <= 50);
        [apply ratio_le_50; [|lia];
         etransitivity; [apply List.filter_length_le | apply Nat.le_max_l]|];
        pose proof (interest_sum_range _ _ (conj Hlo Hhi)
                      (userTypeBonus_cases project (User.userType user)))
    end.
    lra.
  - rewrite (interest_base_range _
               (userTypeBonus_cases project (User.userType user))).
    lra.
Qed.

(** X7: the interest score lies between 30 and 95: the tag overlap adds at
    most 50 and the role bonus at most 15, so the cap at 100 is never
    reached and the score is 30 plus a tag amount between 0 and 50 plus the
    role bonus the detail map records. *)
Theorem interest_score_between_30_and_95 (user : User.t) (project : Project.t) :
  30 <= score (calculateInterestScore user project) <= 95
  /\ exists tagScore bonus,
       0 <= tagScore <= 50 /\ 0 <= bonus <= 15
       /\ details (calculateInterestScore user project) !! "userTypeBonus"
          = Some bonus
       /\ score (calculateInterestScore user project) == 30 + tagScore + bonus.
Proof.
  unfold calculateInterestScore.
  pose proof (userTypeBonus_range project (User.userType user)) as Hb.
  set (bonus := userTypeBonus project (User.userType user)) in *.
  destruct ((0 <? length (Project.tags project))%nat
            && (0 <? length (User.interests user))%nat) eqn:E;
    cbn [score details].
  - apply andb_true_iff in E as [E1 E2].
    apply Nat.ltb_lt in E1, E2.
    set (matched := length (List.filter _ (Project.tags project))).
    set (larger := Nat.max _ _).
    assert (Hm : (matched <= larger)%nat).
    { unfold matched, larger.
      etransitivity; [apply List.filter_length_le | apply Nat.le_max_l]. }
    assert (Hl : (0 < larger)%nat) by (unfold larger; lia).
    pose proof (ratio_le_50 matched larger Hm Hl) as Hhi.
    pose proof (ratio_nonneg matched larger) as Hlo.
    set (tagMatching :=
           fl (fl (inject_Z (Z.of_nat matched) / inject_Z (Z.of_nat larger)) * 50))
      in *.
    pose proof (interest_sum_range tagMatching bonus (conj Hlo Hhi)
                  (userTypeBonus_cases project (User.userType user)))
      as [Hs0 Hs1].
    set (sum := fl (fl (30 + tagMatching) + bonus)) in *.
    destruct (min_spec 100 sum) as [[? Hmin]|[? Hmin]]; [lra|].
    rewrite Hmin. split; [lra|].
    exists (sum - 30 - bonus), bonus.
    split; [split; lra|]. split; [split; lra|]. split; [|lra].
    rewrite lookup_insert_ne by discriminate. apply lookup_insert_eq.
  - pose proof (interest_base_range bonus
                  (userTypeBonus_cases project (User.userType user))) as Hs.
    set (sum := fl (30 + bonus)) in *.
    destruct (min_spec 100 sum) as [[? Hmin]|[? Hmin]]; [lra|].
    rewrite Hmin. split; [lra|].
    exists 0, bonus.
    split; [split; lra|]. split; [split; lra|]. split; [|lra].
    rewrite lookup_insert_ne by discriminate. apply lookup_insert_eq.
Qed.

(** ** Engagement calculator *)

(** X8: the engagement score does not go down when the level or the
    total of the activity counters goes up. *)
Theorem engagement_score_monotone (u1 u2 : User.t) :
  (User.level u1 <= User.level u2)%Z ->
  (totalActivityOf u1 <= totalActivityOf u2)%Z ->
  score (calculateEngagementScore u1) <= score (calculateEngagementScore u2).
Proof.
  intros Hl Ha. unfold calculateEngagementScore, totalActivityOf in *.
  cbn [score]. apply min_mono.
  assert (H1 : Math.min 40 (inject_Z ((User.projectsCreated u1
                 + User.collaborations u1 + User.investments u1) * 5))
               <= Math.min 40 (inject_Z ((User.projectsCreated u2
                 + User.collaborations u2 + User.investments u2) * 5))).
  { apply min_mono. rewrite <- Zle_Qle. lia. }
  assert (H2 : Math.min 10 (inject_Z ((User.level u1 - 1) * 2))
               <= Math.min 10 (inject_Z ((User.level u2 - 1) * 2))).
  { apply min_mono. rewrite <- Zle_Qle. lia. }
  lra.
Qed.

Lemma engagement_score_monotone_witness :
  score (calculateEngagementScore scenario1_user)
  <= score (calculateEngagementScore boundary_user).
Proof.
  apply engagement_score_monotone; unfold totalActivityOf; simpl; lia.
Defined.

(** X9: the engagement score is 100 exactly when the activity counters
    add up to at least 8 and the level is at least 6; for every other user
    it is below 100. *)
Theorem engagement_score_100_iff (user : User.t) :
  score (calculateEngagementScore user) == 100
  <-> (8 <= totalActivityOf user)%Z /\ (6 <= User.level user)%Z.
Proof.
  unfold calculateEngagementScore, totalActivityOf. cbn [score].
  set (a := (User.projectsCreated user + User.collaborations user
             + User.investments user)%Z).
  set (l := User.level user).
  assert (Ha : 40 <= inject_Z (a * 5) <-> (8 <= a)%Z).
  { change 40 with (inject_Z 40). rewrite <- Zle_Qle. lia. }
  assert (Hl : 10 <= inject_Z ((l - 1) * 2) <-> (6 <= l)%Z).
  { change 10 with (inject_Z 10). rewrite <- Zle_Qle. lia. }
  destruct (min_spec 40 (inject_Z (a * 5))) as [[HA ->]|[HA ->]];
    destruct (min_spec 10 (inject_Z ((l - 1) * 2))) as [[HL ->]|[HL ->]];
    match goal with
    | |- Math.min 100 ?x == 100 <-> _ =>
        destruct (min_spec 100 x) as [[HM ->]|[HM ->]]
    end;
    split; intros H; try (split; [apply Ha | apply Hl]); try lra;
    try (destruct H as [H1 H2]; apply Ha in H1; apply Hl in H2; lra).
Qed.

(** ** Stage calculator *)

(** [Math.ceil(level / 2)] on an integer level. *)
Lemma ceil_half (level : Z) :
  Math.ceil (inject_Z level / 2) = ((level + 1) / 2)%Z.
Proof.
  unfold Math.ceil, Qceiling, Qfloor. cbn.
  change (Z.pos (1 * 2)) with 2%Z. rewrite Z.mul_1_r.
  pose proof (Z.div_mod (- level) 2 ltac:(lia)).
  pose proof (Z.mod_pos_bound (- level) 2 ltac:(lia)).
  pose proof (Z.div_mod (level + 1) 2 ltac:(lia)).
  pose proof (Z.mod_pos_bound (level + 1) 2 ltac:(lia)).
  lia.
Qed.

(** X10: the stage calculator reads the level of the user in steps of
    two: for every [k], a user of level [2k - 1] and a user of level [2k]
    with the same number of collaborations get the same score and the same
    detail map against every project. *)
Theorem stage_score_same_for_level_pairs (k : Z) (u1 u2 : User.t)
    (project : Project.t) :
  User.level u1 = (2 * k - 1)%Z ->
  User.level u2 = (2 * k)%Z ->
  User.collaborations u1 = User.collaborations u2 ->
  calculateStageScore u1 project = calculateStageScore u2 project.
Proof.
  intros H1 H2 Hc. unfold calculateStageScore.
  rewrite !ceil_half, H1, H2, Hc.
  assert (E1 : ((2 * k - 1 + 1) / 2 = k)%Z).
  { replace (2 * k - 1 + 1)%Z with (k * 2)%Z by lia. apply Z.div_mul. lia. }
  assert (E2 : ((2 * k + 1) / 2 = k)%Z).
  { replace (2 * k + 1)%Z with (1 + k * 2)%Z by lia.
    rewrite Z.div_add by lia. reflexivity. }
  rewrite E1, E2. reflexivity.
Qed.

Lemma stage_score_same_for_level_pairs_witness :
  calculateStageScore (User.mk 8 founder 3 0 2 0 0 []) scenario1_project
  = calculateStageScore (User.mk 9 founder 4 0 2 0 0 []) scenario1_project.
Proof.
  apply (stage_score_same_for_level_pairs 2); reflexivity.
Defined.

(** * Further properties of the aggregator *)

Lemma investment_score_zero_unless_applies (user : User.t) (project : Project.t) :
  ~ investmentApplies user project ->
  score (calculateInvestmentScore user project) = 0.
Proof.
  unfold investmentApplies, calculateInvestmentScore. intros H.
  destruct (User.userType user); try reflexivity. cbn [UserType_eqb negb].
  destruct (Project.seekingInvestment project); [|reflexivity].
  exfalso. apply H. split; reflexivity.
Qed.

Lemma recommendation_not_excellent (x : Q) :
  x < 80 -> recommendationOf x <> "Excellent match - highly recommended".
Proof.
  intros H. unfold recommendationOf.
  destruct (ge x 80) eqn:E; [apply ge_true in E; lra|].
  destruct (ge x 60); [discriminate|].
  destruct (ge x 40); discriminate.
Qed.

(** X11: unless the user is an investor and the project seeks investment,
    the total of a match is at most 74 and the recommendation is never the
    one of the highest tier: a quarter of the weight rests on the
    investment score, which is 0, and the interest score cannot exceed
    95. *)
Theorem total_at_most_74_without_investment (conn : option Db)
    (user : User.t) (project : Project.t) :
  ~ investmentApplies user project ->
  exists ms,
    calculateMatchScore conn user project = Normal ms
    /\ MatchScore.investmentScore ms = 0%Z
    /\ (MatchScore.totalScore ms <= 74)%Z
    /\ MatchScore.recommendation ms <> "Excellent match - highly recommended".
Proof.
  intros Hno.
  destruct (calculateMatchScore_returns conn user project)
    as (sk & _ & [Hsk0 Hsk1] & ->).
  eexists. split; [reflexivity|].
  pose proof (investment_score_zero_unless_applies user project Hno) as Hinv.
  pose proof (calculateStageScore_range user project) as [_ Hst].
  pose proof (calculateInterestScore_le_95 user project) as Hin.
  pose proof (calculateEngagementScore_upper user) as Hen.
  assert (Hraw : rawTotal user project sk <= 74.25).
  { unfold rawTotal. rewrite Hinv.
    assert (E : weightedTotal 100 0 100 95 100 == 74.25)
      by (vm_compute; reflexivity).
    rewrite <- E. apply weightedTotal_mono; lra. }
  cbn [matchScoreFrom MatchScore.investmentScore MatchScore.totalScore
         MatchScore.recommendation].
  split; [rewrite Hinv; reflexivity|].
  split.
  - change 74%Z with (Math.round 74.25). apply round_mono. exact Hraw.
  - apply recommendation_not_excellent.
    change (weightedTotal _ _ _ _ _) with (rawTotal user project sk). lra.
Qed.

Lemma total_at_most_74_without_investment_witness :
  exists ms,
    calculateMatchScore (Some scenario1_db) scenario1_user scenario1_project
    = Normal ms
    /\ (MatchScore.totalScore ms <= 74)%Z.
Proof.
  destruct (total_at_most_74_without_investment
              (Some scenario1_db) scenario1_user scenario1_project)
    as (ms & Hms & _ & Ht & _).
  - intros [H _]. discriminate H.
  - exists ms. split; [exact Hms | exact Ht].
Defined.

(** X12: for a user whose level is at least 1 and whose activity counters
    do not add up to a negative number, the total of every match is at
    least 15: the stage score is at least 55, the interest score at least
    30 and the engagement score at least 50. *)
Theorem total_at_least_15_for_natural_user (conn : option Db)
    (user : User.t) (project : Project.t) :
  engagement_inputs_natural user ->
  exists ms,
    calculateMatchScore conn user project = Normal ms
    /\ (15 <= MatchScore.totalScore ms)%Z
    /\ (50 <= MatchScore.engagementScore ms)%Z.
Proof.
  intros [Hl Ha].
  destruct (calculateMatchScore_returns conn user project)
    as (sk & _ & [Hsk0 Hsk1] & ->).
  eexists. split; [reflexivity|].
  pose proof (calculateInvestmentScore_range user project) as [Hinv _].
  pose proof (calculateStageScore_range user project) as [Hst _].
  pose proof (calculateInterestScore_range user project) as [Hin _].
  pose proof (calculateEngagementScore_lower user Hl Ha) as Hen.
  cbn [matchScoreFrom MatchScore.totalScore MatchScore.engagementScore].
  split.
  - change 15%Z with (Math.round 15.25). apply round_mono.
    assert (E : weightedTotal 0 0 55 30 50 == 15.25)
      by (vm_compute; reflexivity).
    rewrite <- E. apply weightedTotal_mono; lra.
  - apply (round_lower _ 50). exact Hen.
Qed.

Lemma total_at_least_15_for_natural_user_witness :
  exists ms,
    calculateMatchScore None scenario1_user scenario1_project = Normal ms
    /\ (15 <= MatchScore.totalScore ms)%Z.
Proof.
  destruct (total_at_least_15_for_natural_user
              None scenario1_user scenario1_project)
    as (ms & Hms & Ht & _).
  - unfold engagement_inputs_natural. simpl. lia.
  - exists ms. split; [exact Hms | exact Ht].
Defined.

(** X13: the six summary entries of the merged detail map agree with the
    fields of the [MatchScore]: [totalScore] holds the reported total, and
    each of [skillScore], [investmentScore], [stageScore], [interestScore],
    [engagementScore] holds the score of its calculator before rounding,
    which rounds to the reported sub-score. *)
Theorem summary_entries_agree_with_fields (conn : option Db)
    (user : User.t) (project : Project.t) :
  exists ms,
    calculateMatchScore conn user project = Normal ms
    /\ MatchScore.scoreDetails ms !! "totalScore"
       = Some (inject_Z (MatchScore.totalScore ms))
    /\ (exists v, MatchScore.scoreDetails ms !! "skillScore" = Some v
                  /\ Math.round v = MatchScore.skillScore ms)
    /\ (exists v, MatchScore.scoreDetails ms !! "investmentScore" = Some v
                  /\ Math.round v = MatchScore.investmentScore ms)
    /\ (exists v, MatchScore.scoreDetails ms !! "stageScore" = Some v
                  /\ Math.round v = MatchScore.stageScore ms)
    /\ (exists v, MatchScore.scoreDetails ms !! "interestScore" = Some v
                  /\ Math.round v = MatchScore.interestScore ms)
    /\ (exists v, MatchScore.scoreDetails ms !! "engagementScore" = Some v
                  /\ Math.round v = MatchScore.engagementScore ms).
Proof.
  destruct (calculateMatchScore_returns conn user project)
    as (sk & _ & _ & ->).
  eexists. split; [reflexivity|].
  cbn [matchScoreFrom MatchScore.scoreDetails MatchScore.totalScore
         MatchScore.skillScore MatchScore.investmentScore MatchScore.stageScore
         MatchScore.interestScore MatchScore.engagementScore].
  split; [apply lookup_insert_eq|].
  repeat split; eexists;
    (split; [rewrite ?lookup_insert_ne by discriminate; apply lookup_insert_eq
            | reflexivity]).
Qed.

(** * Further properties of the recommendation finder *)

Lemma collectMatches_keptMatches (conn : option Db) (user : User.t)
    (userId : Z) (minScore : Q) (ps : list Project.t)
    (matches : list MatchScore.t) :
  collectMatches conn user userId minScore ps matches
  = Normal (matches ++ keptMatches conn user userId minScore ps).
Proof.
  revert matches. induction ps as [|p ps IH]; intros matches.
  - cbn [collectMatches keptMatches flat_map]. now rewrite app_nil_r.
  - cbn [collectMatches keptMatches flat_map]. unfold keptMatch at 1.
    destruct (Project.ownerId p =? userId)%Z; [apply IH|].
    destruct (calculateMatchScore_returns conn user p) as (sk & _ & _ & ->).
    cbn [mbind Completion_bind].
    destruct (ge _ minScore).
    + rewrite IH, <- app_assoc. reflexivity.
    + apply IH.
Qed.

Lemma selectUser_id (db : Db) (userId : Z) (user : User.t)
    (rest : list User.t) :
  selectUser db userId = Normal (user :: rest) ->
  User.id user = userId /\ In user (users db).
Proof.
  unfold selectUser, run. destruct (rejects db _); [discriminate|].
  intros [= H].
  assert (Hin : In user (List.filter (fun u => (User.id u =? userId)%Z)
                           (users db))).
  { rewrite <- (firstn_skipn 1). rewrite H. now left. }
  apply List.filter_In in Hin as [Hin Hid].
  split; [now apply Z.eqb_eq | exact Hin].
Qed.

(** The array [matches] before the sort: empty, or the matches of the
    fetched candidates for the user row found. *)
Lemma discoveryOrder_cases (conn : option Db) (userId : Z) (minScore : Q) :
  discoveryOrder conn userId minScore = []
  \/ exists db user rest,
       conn = Some db
       /\ selectUser db userId = Normal (user :: rest)
       /\ rejects db SelectActiveProjects = false
       /\ discoveryOrder conn userId minScore
          = keptMatches conn user userId minScore (fetchedCandidates db).
Proof.
  unfold discoveryOrder, discoveredMatches.
  destruct conn as [db|]; [|now left].
  destruct (selectUser db userId) as [[|user rest]|e] eqn:Hu;
    cbn [mbind Completion_bind]; try now left.
  unfold selectActiveProjects, run.
  destruct (rejects db SelectActiveProjects) eqn:Hr;
    cbn [mbind Completion_bind]; [now left|].
  right. exists db, user, rest.
  rewrite collectMatches_keptMatches. cbn [app]. auto.
Qed.

Lemma discoveryOrder_when_found (db : Db) (userId : Z) (minScore : Q)
    (user : User.t) (rest : list User.t) :
  selectUser db userId = Normal (user :: rest) ->
  rejects db SelectActiveProjects = false ->
  discoveryOrder (Some db) userId minScore
  = keptMatches (Some db) user userId minScore (fetchedCandidates db).
Proof.
  intros Hu Hr. unfold discoveryOrder, discoveredMatches.
  rewrite Hu. cbn [mbind Completion_bind].
  unfold selectActiveProjects, run. rewrite Hr. cbn [mbind Completion_bind].
  rewrite collectMatches_keptMatches. reflexivity.
Qed.

Lemma In_keptMatches (conn : option Db) (user : User.t) (userId : Z)
    (minScore : Q) (ps : list Project.t) (ms : MatchScore.t) :
  In ms (keptMatches conn user userId minScore ps)
  <-> exists p, In p ps
                /\ Project.ownerId p <> userId
                /\ calculateMatchScore conn user p = Normal ms
                /\ minScore <= inject_Z (MatchScore.totalScore ms).
Proof.
  unfold keptMatches. rewrite in_flat_map. split.
  - intros (p & Hp & Hin). exists p. split; [exact Hp|].
    unfold keptMatch in Hin.
    destruct (Project.ownerId p =? userId)%Z eqn:Eo; [destruct Hin|].
    apply Z.eqb_neq in Eo.
    destruct (calculateMatchScore conn user p) as [m|e]; [|destruct Hin].
    destruct (ge _ minScore) eqn:Eg; [|destruct Hin].
    destruct Hin as [<-|[]]. apply ge_true in Eg. auto.
  - intros (p & Hp & Ho & Hm & Ht). exists p. split; [exact Hp|].
    unfold keptMatch. apply Z.eqb_neq in Ho. rewrite Ho, Hm.
    apply ge_true in Ht. rewrite Ht. now left.
Qed.

Lemma In_fetchedCandidates (db : Db) (p : Project.t) :
  In p (fetchedCandidates db) ->
  In p (projects db)
  /\ Project.status p = active /\ Project.seekingTeam p = true.
Proof.
  unfold fetchedCandidates. intros H.
  assert (Hin : In p (List.filter isCandidate (projects db))).
  { rewrite <- (firstn_skipn 100). apply in_or_app. now left. }
  apply List.filter_In in Hin as [Hin Hc]. split; [exact Hin|].
  unfold isCandidate in Hc. apply andb_true_iff in Hc as [Hs Ht].
  split; [|exact Ht]. destruct (Project.status p); try discriminate.
  reflexivity.
Qed.

Lemma In_slice0 {A} (l : list A) (end_ : Z) (x : A) :
  In x (slice0 l end_) -> In x l.
Proof.
  destruct (slice0_prefix l end_) as [n ->]. intros H.
  rewrite <- (firstn_skipn n l). apply in_or_app. now left.
Qed.

Lemma In_result (conn : option Db) (userId limit : Z) (minScore : Q)
    (ms : MatchScore.t) :
  In ms (slice0 (sort byTotalScoreDesc (discoveryOrder conn userId minScore))
           limit) ->
  In ms (discoveryOrder conn userId minScore).
Proof.
  intros H. apply In_slice0 in H.
  now apply (sort_In MatchScore.totalScore) in H.
Qed.

(** X14: every entry [findTopMatches] returns is a match of the requested
    user, with a total that reaches the threshold, for a row of the table
    [projects] that is active, seeks a team and is not owned by the
    requested user. *)
Theorem findTopMatches_entries_qualify (db : Db) (userId limit : Z)
    (minScore : Q) :
  exists result,
    findTopMatches (Some db) userId limit minScore = Normal result
    /\ Forall (qualifies db userId minScore) result.
Proof.
  eexists. split; [apply findTopMatches_outcome|].
  apply List.Forall_forall. intros ms Hms. apply In_result in Hms.
  destruct (discoveryOrder_cases (Some db) userId minScore)
    as [Hnil|(db' & user & rest & [= <-] & Hu & _ & Heq)].
  - rewrite Hnil in Hms. destruct Hms.
  - rewrite Heq in Hms.
    apply In_keptMatches in Hms as (p & Hp & Ho & Hm & Ht).
    apply selectUser_id in Hu as [Hid _].
    apply In_fetchedCandidates in Hp as (Hin & Hs & Hteam).
    destruct (calculateMatchScore_returns (Some db) user p)
      as (sk & _ & _ & Hret).
    rewrite Hret in Hm. injection Hm as <-.
    split; [exact Hid|]. split; [exact Ht|].
    exists p. auto.
Qed.

Lemma total_upper (conn : option Db) (user : User.t) (p : Project.t)
    (ms : MatchScore.t) :
  calculateMatchScore conn user p = Normal ms ->
  (MatchScore.totalScore ms <= 100)%Z.
Proof.
  destruct (calculateMatchScore_returns conn user p)
    as (sk & _ & [_ Hsk] & ->).
  intros [= <-]. cbn [matchScoreFrom MatchScore.totalScore].
  apply (round_upper _ 100). now apply rawTotal_upper.
Qed.

Lemma nil_when_nothing_allowed {A} (l : list A) :
  (forall x, In x l -> False) -> l = [].
Proof. destruct l as [|x l]; [reflexivity|]. intros H. destruct (H x). now left. Qed.

(** X15: with a threshold above 100, [findTopMatches] returns the empty
    list, whatever the database holds: no total exceeds 100. *)
Theorem findTopMatches_empty_above_100 (conn : option Db) (userId limit : Z)
    (minScore : Q) :
  100 < minScore ->
  findTopMatches conn userId limit minScore = Normal [].
Proof.
  intros H. rewrite findTopMatches_outcome.
  assert (Hnil : discoveryOrder conn userId minScore = []).
  { destruct (discoveryOrder_cases conn userId minScore)
      as [Hnil|(db & user & rest & _ & _ & _ & Heq)]; [exact Hnil|].
    rewrite Heq. apply nil_when_nothing_allowed. intros ms Hms.
    apply In_keptMatches in Hms as (p & _ & _ & Hm & Ht).
    apply total_upper in Hm.
    assert (inject_Z (MatchScore.totalScore ms) <= 100).
    { change 100 with (inject_Z 100). now rewrite <- Zle_Qle. }
    lra. }
  rewrite Hnil. cbn [sort]. now rewrite slice0_nil.
Qed.

Lemma findTopMatches_empty_above_100_witness :
  findTopMatches (Some ranking_db) 1 10 101 = Normal [].
Proof.
  apply findTopMatches_empty_above_100. vm_compute. reflexivity.
Defined.

Lemma total_upper_74 (conn : option Db) (user : User.t) (p : Project.t)
    (ms : MatchScore.t) :
  User.userType user <> investor ->
  calculateMatchScore conn user p = Normal ms ->
  (MatchScore.totalScore ms <= 74)%Z.
Proof.
  intros Hno.
  destruct (calculateMatchScore_returns conn user p)
    as (sk & _ & [_ Hsk] & ->).
  intros [= <-]. cbn [matchScoreFrom MatchScore.totalScore].
  assert (Hinv : score (calculateInvestmentScore user p) = 0).
  { apply investment_score_zero_unless_applies. intros [H _]. contradiction. }
  pose proof (calculateStageScore_range user p) as [_ Hst].
  pose proof (calculateInterestScore_le_95 user p) as Hin.
  pose proof (calculateEngagementScore_upper user) as Hen.
  change 74%Z with (Math.round 74.25). apply round_mono.
  rewrite Hinv.
  assert (E : weightedTotal 100 0 100 95 100 == 74.25)
    by (vm_compute; reflexivity).
  rewrite <- E. apply weightedTotal_mono; lra.
Qed.

(** X16: for a user who is not an investor, [findTopMatches] with a
    threshold above 74 returns the empty list. *)
Theorem findTopMatches_empty_above_74_for_non_investor (db : Db)
    (userId limit : Z) (minScore : Q) :
  (forall u, In u (users db) -> User.id u = userId ->
             User.userType u <> investor) ->
  74 < minScore ->
  findTopMatches (Some db) userId limit minScore = Normal [].
Proof.
  intros Hrole H. rewrite findTopMatches_outcome.
  assert (Hnil : discoveryOrder (Some db) userId minScore = []).
  { destruct (discoveryOrder_cases (Some db) userId minScore)
      as [Hnil|(db' & user & rest & [= <-] & Hu & _ & Heq)]; [exact Hnil|].
    rewrite Heq. apply nil_when_nothing_allowed. intros ms Hms.
    apply In_keptMatches in Hms as (p & _ & _ & Hm & Ht).
    apply selectUser_id in Hu as [Hid Hin].
    apply total_upper_74 in Hm; [|now apply Hrole].
    assert (inject_Z (MatchScore.totalScore ms) <= 74).
    { change 74 with (inject_Z 74). now rewrite <- Zle_Qle. }
    lra. }
  rewrite Hnil. cbn [sort]. now rewrite slice0_nil.
Qed.

Lemma findTopMatches_empty_above_74_for_non_investor_witness :
  findTopMatches (Some ranking_db) 1 10 75 = Normal [].
Proof.
  apply findTopMatches_empty_above_74_for_non_investor.
  - intros u [<-|[]] _. discriminate.
  - vm_compute. reflexivity.
Defined.

Lemma sort_insert_Permutation {A} (cmp : A -> A -> Z) (x : A) (l : list A) :
  Permutation (sort_insert cmp x l) (x :: l).
Proof.
  induction l as [|y l IH]; [reflexivity|]. cbn [sort_insert].
  destruct (cmp x y <=? 0)%Z; [reflexivity|].
  rewrite IH. apply perm_swap.
Qed.

Lemma sort_Permutation {A} (cmp : A -> A -> Z) (l : list A) :
  Permutation (sort cmp l) l.
Proof.
  induction l as [|x l IH]; [reflexivity|]. cbn [sort].
  rewrite sort_insert_Permutation. now constructor.
Qed.

Lemma sorted_split {A} (R : A -> A -> Prop) (n : nat) (l : list A) (a b : A) :
  StronglySorted R l -> In a (firstn n l) -> In b (skipn n l) -> R a b.
Proof.
  intros H. revert n. induction H as [|x l Hs IH Hx]; intros n Ha Hb.
  - rewrite firstn_nil in Ha. destruct Ha.
  - destruct n as [|n]; [destruct Ha|]. cbn [firstn skipn] in Ha, Hb.
    destruct Ha as [<-|Ha].
    + rewrite List.Forall_forall in Hx. apply Hx.
      rewrite <- (firstn_skipn n l). apply in_or_app. now right.
    + now apply (IH n).
Qed.

(** X17: the limit cuts off the weakest matches.  The matches found split
    into the returned list and the rest, and no match of the rest has a
    higher total than a returned one. *)
Theorem findTopMatches_keeps_the_best (conn : option Db) (userId limit : Z)
    (minScore : Q) :
  exists result rest,
    findTopMatches conn userId limit minScore = Normal result
    /\ Permutation (result ++ rest) (discoveryOrder conn userId minScore)
    /\ forall a b, In a result -> In b rest ->
         (MatchScore.totalScore b <= MatchScore.totalScore a)%Z.
Proof.
  set (found := discoveryOrder conn userId minScore).
  destruct (slice0_prefix (sort byTotalScoreDesc found) limit) as [n Hn].
  exists (slice0 (sort byTotalScoreDesc found) limit),
         (skipn n (sort byTotalScoreDesc found)).
  split; [apply findTopMatches_outcome|].
  rewrite Hn. split.
  - rewrite firstn_skipn. apply sort_Permutation.
  - intros a b Ha Hb.
    apply (sorted_split atLeastAsGood n _ a b
             (sort_sorted MatchScore.totalScore found) Ha Hb).
Qed.

Lemma slice0_all {A} (l : list A) (end_ : Z) :
  (Z.of_nat (length l) <= end_)%Z -> slice0 l end_ = l.
Proof.
  intros H. unfold slice0.
  destruct (end_ <? 0)%Z eqn:E; [apply Z.ltb_lt in E; lia|].
  apply firstn_all2. lia.
Qed.

(** X18: a limit of 100 or more cuts nothing off.  The returned list is
    then a rearrangement of all the matches found, and when the user row
    and the candidates are fetched, every fetched candidate that the user
    does not own and whose total reaches the threshold has its match in the
    list. *)
Theorem findTopMatches_complete_for_large_limit (db : Db) (userId limit : Z)
    (minScore : Q) :
  (100 <= limit)%Z ->
  exists result,
    findTopMatches (Some db) userId limit minScore = Normal result
    /\ Permutation result (discoveryOrder (Some db) userId minScore)
    /\ forall user rest p ms,
         selectUser db userId = Normal (user :: rest) ->
         rejects db SelectActiveProjects = false ->
         In p (fetchedCandidates db) ->
         Project.ownerId p <> userId ->
         calculateMatchScore (Some db) user p = Normal ms ->
         minScore <= inject_Z (MatchScore.totalScore ms) ->
         In ms result.
Proof.
  intros Hlimit.
  eexists. split; [apply findTopMatches_outcome|].
  destruct (discoveryOrder_spec (Some db) userId minScore) as [Hlen _].
  set (found := discoveryOrder (Some db) userId minScore) in *.
  rewrite slice0_all
    by (rewrite (sort_length MatchScore.totalScore); lia).
  split; [apply sort_Permutation|].
  intros user rest p ms Hu Hr Hp Ho Hm Ht.
  eapply Permutation_in; [symmetry; apply sort_Permutation|].
  unfold found. rewrite (discoveryOrder_when_found db userId minScore user rest Hu Hr).
  apply In_keptMatches. exists p. auto.
Qed.

Lemma findTopMatches_complete_for_large_limit_witness :
  exists result,
    findTopMatches (Some ranking_db) 1 100 40 = Normal result
    /\ Permutation result (discoveryOrder (Some ranking_db) 1 40).
Proof.
  destruct (findTopMatches_complete_for_large_limit ranking_db 1 100 40)
    as (result & Hr & Hp & _).
  - lia.
  - exists result. split; [exact Hr | exact Hp].
Defined.

Lemma firstn_prefix_mono {A} (n m : nat) (l : list A) :
  (n <= m)%nat -> firstn n l `prefix_of` firstn m l.
Proof.
  intros H. exists (firstn (m - n) (skipn n l)).
  rewrite <- (firstn_skipn n (firstn m l)) at 1.
  rewrite firstn_firstn, Nat.min_l by exact H.
  f_equal. rewrite skipn_firstn_comm. reflexivity.
Qed.

(** X19: raising a limit that is not negative only appends entries: the
    list returned for the smaller limit is the beginning of the list
    returned for the larger one. *)
Theorem findTopMatches_limit_monotone (conn : option Db) (userId : Z)
    (limit1 limit2 : Z) (minScore : Q) :
  (0 <= limit1 <= limit2)%Z ->
  exists result1 result2,
    findTopMatches conn userId limit1 minScore = Normal result1
    /\ findTopMatches conn userId limit2 minScore = Normal result2
    /\ result1 `prefix_of` result2.
Proof.
  intros [H0 H12].
  exists (slice0 (sort byTotalScoreDesc (discoveryOrder conn userId minScore))
            limit1),
         (slice0 (sort byTotalScoreDesc (discoveryOrder conn userId minScore))
            limit2).
  split; [apply findTopMatches_outcome|].
  split; [apply findTopMatches_outcome|].
  unfold slice0.
  destruct (limit1 <? 0)%Z eqn:E1; [apply Z.ltb_lt in E1; lia|].
  destruct (limit2 <? 0)%Z eqn:E2; [apply Z.ltb_lt in E2; lia|].
  apply firstn_prefix_mono. lia.
Qed.

Lemma findTopMatches_limit_monotone_witness :
  exists result1 result2,
    findTopMatches (Some ranking_db) 1 1 40 = Normal result1
    /\ findTopMatches (Some ranking_db) 1 3 40 = Normal result2
    /\ result1 `prefix_of` result2.
Proof.
  apply findTopMatches_limit_monotone. lia.
Defined.

(** X20: the number of entries [findTopMatches] returns is the smaller of
    the limit and the number of matches found when the limit is not
    negative; a negative limit [-k] is not read as "none": [slice] then
    drops the last [k] of the sorted matches and returns the others. *)
Theorem findTopMatches_length (conn : option Db) (userId limit : Z)
    (minScore : Q) :
  exists result,
    findTopMatches conn userId limit minScore = Normal result
    /\ Z.of_nat (length result)
       = (if (limit <? 0)%Z
          then Z.max 0 (Z.of_nat (length (discoveryOrder conn userId minScore))
                        + limit)
          else Z.min limit
                 (Z.of_nat (length (discoveryOrder conn userId minScore))))%Z.
Proof.
  eexists. split; [apply findTopMatches_outcome|].
  unfold slice0. rewrite length_firstn.
  rewrite (sort_length MatchScore.totalScore).
  destruct (limit <? 0)%Z eqn:E;
    [apply Z.ltb_lt in E | apply Z.ltb_ge in E]; lia.
Qed.

(** * Properties of the match history and of the router *)

Lemma saveMatchingHistory_cases (srv : Server) (match_ : MatchScore.t)
    (action : Action) :
  (connection srv <> None /\ fails srv InsertMatchingHistory = false
   /\ saveMatchingHistory srv match_ action
      = Normal {| connection := connection srv;
                  matchingHistory :=
                    matchingHistory srv ++ [historyRowOf srv match_ action];
                  fails := fails srv;
                  now := now srv |})
  \/ ((connection srv = None \/ fails srv InsertMatchingHistory = true)
      /\ saveMatchingHistory srv match_ action = Normal srv).
Proof.
  unfold saveMatchingHistory, insertMatchingHistory.
  destruct (connection srv) as [db|] eqn:Hc; [|right; auto].
  destruct (fails srv InsertMatchingHistory) eqn:Hf; [right; auto|].
  left. split; [discriminate|]. split; [reflexivity|].
  cbn [try_catch]. unfold historyRowOf. destruct action; reflexivity.
Qed.

(** X21: [saveMatchingHistory] never throws and only ever appends.  With
    a database and a successful insert the table gains exactly one row, at
    the end, carrying the identifiers, match type, total and detail map of
    the match and the action, with [actionAt] set exactly when the action
    is not [none]; without a database or when the insert fails the server
    is left as it was. *)
Theorem saveMatchingHistory_appends_one_row_or_nothing (srv : Server)
    (match_ : MatchScore.t) (action : Action) :
  exists srv',
    saveMatchingHistory srv match_ action = Normal srv'
    /\ connection srv' = connection srv
    /\ matchingHistory srv `prefix_of` matchingHistory srv'
    /\ (connection srv <> None -> fails srv InsertMatchingHistory = false ->
        exists row,
          matchingHistory srv' = matchingHistory srv ++ [row]
          /\ MatchingHistory.userId row = MatchScore.userId match_
          /\ MatchingHistory.projectId row = MatchScore.projectId match_
          /\ MatchingHistory.matchType row = MatchScore.matchType match_
          /\ MatchingHistory.score row = MatchScore.totalScore match_
          /\ MatchingHistory.scoreDetails row = MatchScore.scoreDetails match_
          /\ MatchingHistory.action row = action
          /\ (MatchingHistory.actionAt row = None <-> action = none)
          /\ (action <> none -> MatchingHistory.actionAt row = Some (now srv)))
    /\ (connection srv = None \/ fails srv InsertMatchingHistory = true ->
        srv' = srv).
Proof.
  destruct (saveMatchingHistory_cases srv match_ action)
    as [(Hc & Hf & ->)|([Hc|Hf] & ->)].
  - eexists. split; [reflexivity|]. cbn [connection matchingHistory].
    split; [reflexivity|].
    split; [now exists [historyRowOf srv match_ action]|].
    split.
    + intros _ _. exists (historyRowOf srv match_ action).
      unfold historyRowOf. cbn.
      repeat split; try (destruct action; congruence).
    + intros [H|H]; congruence.
  - exists srv. repeat split; try reflexivity; congruence.
  - exists srv. repeat split; try reflexivity; congruence.
Qed.

Lemma saveMatchingHistory_appends_one_row_or_nothing_witness :
  exists srv' match_,
    calculateMatchScore (Some scenario1_db) scenario1_user scenario1_project
    = Normal match_
    /\ saveMatchingHistory scenario1_server match_ viewed = Normal srv'
    /\ length (matchingHistory srv') = 2%nat.
Proof.
  destruct (calculateMatchScore_returns
              (Some scenario1_db) scenario1_user scenario1_project)
    as (sk & _ & _ & Hm).
  destruct (saveMatchingHistory_appends_one_row_or_nothing
              scenario1_server
              (matchScoreFrom scenario1_user scenario1_project sk) viewed)
    as (srv' & Hs & _ & _ & Hrow & _).
  exists srv', (matchScoreFrom scenario1_user scenario1_project sk).
  split; [exact Hm|]. split; [exact Hs|].
  destruct Hrow as (row & Hrow & _); [discriminate | reflexivity |].
  rewrite Hrow. reflexivity.
Defined.

Lemma selectProjectById_found (srv : Server) (db : Db) (projectId : Z)
    (p : Project.t) :
  fails srv (SelectProjectById projectId) = false ->
  In p (projects db) -> Project.id p = projectId ->
  exists p0 rest,
    selectProjectById srv db projectId = Normal (p0 :: rest)
    /\ In p0 (projects db) /\ Project.id p0 = projectId.
Proof.
  intros Hf Hin Hid. unfold selectProjectById. rewrite Hf.
  assert (Hp : In p (List.filter (fun q => (Project.id q =? projectId)%Z)
                       (projects db))).
  { apply List.filter_In. split; [exact Hin | now apply Z.eqb_eq]. }
  destruct (List.filter _ (projects db)) as [|p0 l] eqn:E; [destruct Hp|].
  exists p0, []. split; [reflexivity|].
  assert (Hp0 : In p0 (List.filter (fun q => (Project.id q =? projectId)%Z)
                         (projects db))) by (rewrite E; now left).
  apply List.filter_In in Hp0 as [H1 H2]. split; [exact H1 | now apply Z.eqb_eq].
Qed.

(** X22: the procedure [calculateScore] answers [null] and leaves the
    server as it was when there is no database or no project with the
    requested identifier; it throws exactly when there is a database and
    the query for the project fails. *)
Theorem calculateScore_null_or_throw (srv : Server) (user : User.t)
    (projectId : Z) :
  (connection srv = None -> calculateScore srv user projectId = Normal (None, srv))
  /\ (forall db, connection srv = Some db ->
        fails srv (SelectProjectById projectId) = false ->
        (forall p, In p (projects db) -> Project.id p <> projectId) ->
        calculateScore srv user projectId = Normal (None, srv))
  /\ ((exists e, calculateScore srv user projectId = Throw e)
      <-> connection srv <> None
          /\ fails srv (SelectProjectById projectId) = true).
Proof.
  unfold calculateScore. split; [|split].
  - intros ->. reflexivity.
  - intros db -> Hf Hnone. unfold selectProjectById. rewrite Hf.
    rewrite filter_none
      by (intros p Hp; apply Z.eqb_neq; now apply Hnone).
    reflexivity.
  - destruct (connection srv) as [db|] eqn:Hc.
    + unfold selectProjectById.
      destruct (fails srv (SelectProjectById projectId)) eqn:Hf.
      * split; [intros _; split; [discriminate | reflexivity]|].
        intros _. eexists. reflexivity.
      * split; [|intros [_ H]; discriminate].
        intros [e He]. exfalso. cbn [mbind Completion_bind] in He.
        destruct (firstn 1 _) as [|p0 l]; [discriminate|].
        destruct (calculateMatchScore_returns (Some db) user p0)
          as (sk & _ & _ & Hm).
        rewrite Hm in He. cbn [mbind Completion_bind] in He.
        destruct (saveMatchingHistory_cases srv
                    (matchScoreFrom user p0 sk) viewed)
          as [(_ & _ & Hs)|(_ & Hs)]; rewrite Hs in He; discriminate.
    + split; [intros [e He]; discriminate | intros [H _]; congruence].
Qed.

Lemma calculateScore_null_or_throw_witness :
  calculateScore scenario1_server scenario1_user 999
  = Normal (None, scenario1_server).
Proof.
  destruct (calculateScore_null_or_throw scenario1_server scenario1_user 999)
    as (_ & H & _).
  apply (H scenario1_db); [reflexivity | reflexivity |].
  intros p [<-|[]]. discriminate.
Defined.

(** X23: when the project exists and its query succeeds, [calculateScore]
    returns the match [calculateMatchScore] computes for the signed-in user
    and a project row with the requested identifier, whether the user owns
    the project or not and whether the history insert succeeds or not; the
    history gains the row of that match with the action [viewed], stamped
    with the clock, when the insert succeeds and is unchanged when it
    fails. *)
Theorem calculateScore_returns_match_despite_history (srv : Server) (db : Db)
    (user : User.t) (projectId : Z) (p : Project.t) :
  connection srv = Some db ->
  fails srv (SelectProjectById projectId) = false ->
  In p (projects db) -> Project.id p = projectId ->
  exists ms srv' p0,
    calculateScore srv user projectId = Normal (Some ms, srv')
    /\ In p0 (projects db) /\ Project.id p0 = projectId
    /\ calculateMatchScore (Some db) user p0 = Normal ms
    /\ MatchScore.projectId ms = projectId
    /\ MatchScore.userId ms = User.id user
    /\ (fails srv InsertMatchingHistory = false ->
        matchingHistory srv'
        = matchingHistory srv ++ [historyRowOf srv ms viewed])
    /\ (fails srv InsertMatchingHistory = true -> srv' = srv).
Proof.
  intros Hc Hf Hin Hid.
  destruct (selectProjectById_found srv db projectId p Hf Hin Hid)
    as (p0 & rest & Hsel & Hin0 & Hid0).
  destruct (calculateMatchScore_returns (Some db) user p0)
    as (sk & _ & _ & Hm).
  set (ms := matchScoreFrom user p0 sk) in *.
  assert (Hrun : forall srv',
            saveMatchingHistory srv ms viewed = Normal srv' ->
            calculateScore srv user projectId = Normal (Some ms, srv')).
  { intros srv' Hs. unfold calculateScore. rewrite Hc, Hsel.
    cbn [mbind Completion_bind]. rewrite Hm. cbn [mbind Completion_bind].
    rewrite Hs. reflexivity. }
  destruct (saveMatchingHistory_cases srv ms viewed)
    as [(_ & Hok & Hs)|([Hno|Hfail] & Hs)].
  - eexists ms, _, p0. split; [apply Hrun; exact Hs|].
    repeat split; try assumption; try reflexivity.
    intros Hbad. congruence.
  - congruence.
  - exists ms, srv, p0. split; [apply Hrun; exact Hs|].
    repeat split; try assumption; try reflexivity.
    intros Hbad. congruence.
Qed.

Lemma calculateScore_returns_match_despite_history_witness :
  exists ms,
    calculateScore read_only_server scenario1_user 10
    = Normal (Some ms, read_only_server)
    /\ MatchScore.projectId ms = 10%Z.
Proof.
  destruct (calculateScore_returns_match_despite_history
              read_only_server scenario1_db scenario1_user 10 scenario1_project)
    as (ms & srv' & p0 & Hr & _ & _ & _ & Hp & _ & _ & Hsame).
  - reflexivity.
  - reflexivity.
  - now left.
  - reflexivity.
  - exists ms. rewrite <- (Hsame eq_refl) at 2. split; [exact Hr | exact Hp].
Defined.

Lemma toInteger_le (x : Q) : 0 <= x -> (0 <= toInteger x)%Z /\ inject_Z (toInteger x) <= x.
Proof.
  intros H. unfold toInteger.
  assert (E : Qle_bool 0 x = true) by now apply Qle_bool_iff.
  rewrite E. split; [|apply Qfloor_le].
  change 0%Z with (Qfloor 0). now apply Qfloor_resp_le.
Qed.

(** X24: the procedure [getRecommendations] never throws; every entry it
    returns has a total that reaches the requested threshold, 40 when none
    is given; and for a requested limit that is not negative, 10 when none
    is given, it returns at most that many entries, a fractional limit
    being rounded down. *)
Theorem getRecommendations_respects_defaults (srv : Server) (user : User.t)
    (limit minScore : option Q) :
  exists result,
    getRecommendations srv user limit minScore = Normal result
    /\ Forall (fun ms => default 40 minScore
                         <= inject_Z (MatchScore.totalScore ms)) result
    /\ (0 <= default 10 limit ->
        inject_Z (Z.of_nat (length result)) <= default 10 limit).
Proof.
  unfold getRecommendations.
  eexists. split; [apply findTopMatches_outcome|].
  set (threshold := default default_minScore minScore).
  set (found := discoveryOrder (connection srv) (User.id user) threshold).
  split.
  - apply List.Forall_forall. intros ms Hms. apply In_result in Hms.
    destruct (discoveryOrder_cases (connection srv) (User.id user) threshold)
      as [Hnil|(db & u & rest & _ & _ & _ & Heq)].
    + rewrite Hnil in Hms. destruct Hms.
    + rewrite Heq in Hms.
      apply In_keptMatches in Hms as (p & _ & _ & _ & Ht). exact Ht.
  - intros H0.
    change (default (inject_Z default_limit) limit) with (default 10 limit).
    destruct (toInteger_le (default 10 limit) H0) as [Hpos Hle].
    pose proof (slice0_length (sort byTotalScoreDesc found)
                  (toInteger (default 10 limit)) Hpos) as Hlen.
    rewrite Zle_Qle in Hlen. lra.
Qed.

Lemma getRecommendations_respects_defaults_witness :
  exists result,
    getRecommendations scenario1_server scenario1_user None None = Normal result
    /\ inject_Z (Z.of_nat (length result)) <= 10.
Proof.
  destruct (getRecommendations_respects_defaults
              scenario1_server scenario1_user None None)
    as (result & Hr & _ & Hlen).
  exists result. split; [exact Hr|]. apply Hlen. vm_compute. discriminate.
Defined.

(** ** The connection *)

(** X25: [getDb] never throws, not even when the driver does, and it
    connects at most once: a call made when the module variable holds a
    database returns that database and leaves the variable alone, whatever
    the environment and the driver; a call that returns a database has
    stored it; and without [DATABASE_URL] a call made with an empty
    variable returns [null]. *)
Theorem getDb_connects_once (drizzle : string -> Completion Db)
    (url : option string) (_db : option Db) :
  (exists r, getDb drizzle url _db = Normal (r, r)
             /\ (forall d, r = Some d ->
                   forall drizzle' url',
                     getDb drizzle' url' r = Normal (Some d, Some d)))
  /\ (forall d, _db = Some d -> getDb drizzle url _db = Normal (Some d, Some d))
  /\ (_db = None -> url = None \/ url = Some "" ->
      getDb drizzle url _db = Normal (None, None)).
Proof.
  assert (Hcached : forall d dr u,
            getDb dr u (Some d) = Normal (Some d, Some d)).
  { intros d dr u. unfold getDb.
    destruct u as [u|]; reflexivity. }
  split; [|split].
  - assert (Hr : exists r, getDb drizzle url _db = Normal (r, r)).
    { destruct _db as [d|]; [exists (Some d); apply Hcached|].
      unfold getDb. destruct url as [u|]; simpl; [|now exists None].
      destruct (negb (String.eqb u "")); simpl; [|now exists None].
      destruct (drizzle u) as [d|e]; simpl; eexists; reflexivity. }
    destruct Hr as [r Hr]. exists r. split; [exact Hr|].
    intros d -> dr u. apply Hcached.
  - intros d ->. apply Hcached.
  - intros -> [->| ->]; reflexivity.
Qed.

Lemma getDb_connects_once_witness :
  getDb (fun _ => Throw "no driver") (Some "mysql://db") (Some scenario1_db)
  = Normal (Some scenario1_db, Some scenario1_db).
Proof.
  destruct (getDb_connects_once (fun _ => Throw "no driver")
              (Some "mysql://db") (Some scenario1_db)) as (_ & H & _).
  apply (H scenario1_db). reflexivity.
Defined.
